(** * Kinetic Monte Carlo engine of [simulation_li_limited_fxns.py]

    A shallow embedding of the network compiler ([initialize_simulation]),
    the state updater ([update_state]), the coordination calculator
    ([get_coordination]), the driver loop of [simulate] and the replay
    of a history by [plot_trajectory], with the properties checked
    against them.

    Conventions of the embedding.
    - Population counts are [Z]: they move by one per step, and the
      steps of [update_state] are written without wrap-around, which
      only a count of [2 ^ 63 - 1] would meet. The products of two
      counts in [get_coordination], which numba computes on 64-bit
      integers, are written with their wrap-around ([Jit.int64]); those
      of [initialize_simulation] are products of Python integers and do
      not wrap.
    - The functions under [@jit(nopython=True)] check no bounds when
      they read or write a numpy array: an access outside the array is
      the outcome [OutOfBounds] ([Jit.getitem], [Jit.setitem]), after
      which what the program does is not defined. Python lists check
      their bounds in compiled code as well ([Py.getitem],
      [Py.setitem]).
    - Coordination numbers, rate constants, propensities and the uniform
      draws are exact rationals [Q] (compared with [==]); rounding of
      binary floating point is not part of the model.
    - [np.log] is an argument of the functions that use it.
    - Python exceptions are values of [exn], beside [OutOfBounds],
      which is no exception; code that mutates the
      population array and may raise afterwards is written in a state and
      exception monad that keeps the array as it is when the exception
      leaves the function. *)

From Stdlib Require Import ZArith QArith Qabs Lqa Lia List Bool.
From stdpp Require Import base list gmap.

Open Scope Z_scope.

(** ** Exceptions and results *)

Inductive exn : Type :=
| RuntimeError
| ValueError
| IndexError
| ZeroDivisionError
| OutOfBounds.

Inductive result (A : Type) : Type :=
| Ok (a : A)
| Raise (e : exn).

Arguments Ok {A} a.
Arguments Raise {A} e.

Definition rbind {A B} (r : result A) (k : A -> result B) : result B :=
  match r with
  | Ok a => k a
  | Raise e => Raise e
  end.

Declare Scope result_scope.
Delimit Scope result_scope with result.
Notation "'let?' x := r 'in' k" := (rbind r (fun x => k))
  (at level 10, x pattern, r at level 100, k at level 200) : result_scope.
Open Scope result_scope.

(** ** Python and numpy indexing *)

Module Py.

  (** Position designated by index [i] in a sequence of length [len]:
      a negative index counts from the end, anything outside
      [-len .. len-1] is out of bounds. *)
Definition norm (len : nat) (i : Z) : option nat :=
    if (0 <=? i) && (i <? Z.of_nat len) then Some (Z.to_nat i)
    else if (- Z.of_nat len <=? i) && (i <? 0) then Some (Z.to_nat (i + Z.of_nat len))
    else None.

  (** [l[i]] *)
Definition getitem {A} (l : list A) (i : Z) : result A :=
    match norm (length l) i with
    | Some k => match l !! k with Some x => Ok x | None => Raise IndexError end
    | None => Raise IndexError
    end.

  (** [l[i] = x] *)
Definition setitem {A} (l : list A) (i : Z) (x : A) : result (list A) :=
    match norm (length l) i with
    | Some k => Ok (<[k := x]> l)
    | None => Raise IndexError
    end.

  (** [a[i, j] = x] on a two-dimensional array *)
Definition setitem2 {A} (a : list (list A)) (i j : Z) (x : A)
    : result (list (list A)) :=
    let? row := getitem a i in
    let? row' := setitem row j x in
    setitem a i row'.

  (** End of the slice [: stop] of a sequence of length [len]. *)
Definition slice_stop (len : nat) (stop : Z) : nat :=
    if stop <? 0 then Z.to_nat (Z.max 0 (stop + Z.of_nat len))
    else Z.to_nat (Z.min stop (Z.of_nat len)).

  (** [row[: k] = vals] where the slice has [k] cells: shapes must agree,
      a one-element value is broadcast. *)
Definition assign_prefix {A} (row : list A) (k : nat) (vals : list A)
    : result (list A) :=
    if Nat.eqb (length vals) k then Ok (vals ++ drop k row)
    else match vals with
         | [v] => Ok (replicate k v ++ drop k row)
         | _ => Raise ValueError
         end.

End Py.

(** ** Arrays in compiled code *)

Module Jit.

  (** [a[i]] on a numpy array in a function compiled by numba: a
      negative index counts from the end, and an index outside the array
      is not detected. *)
Definition getitem {A} (a : list A) (i : Z) : result A :=
    match Py.norm (length a) i with
    | Some k => match a !! k with Some x => Ok x | None => Raise OutOfBounds end
    | None => Raise OutOfBounds
    end.

  (** [a[i] = x] on a numpy array in a function compiled by numba. *)
Definition setitem {A} (a : list A) (i : Z) (x : A) : result (list A) :=
    match Py.norm (length a) i with
    | Some k => Ok (<[k := x]> a)
    | None => Raise OutOfBounds
    end.

  (** The value that a 64-bit signed integer holds for the exact result
      [z] of an addition or a multiplication. *)
Definition int64 (z : Z) : Z := (z + 2 ^ 63) mod 2 ^ 64 - 2 ^ 63.

End Jit.

(** ** The population array as mutable state *)

Module Pop.

  (** A computation over the population array: the array after the
      computation is returned also when an exception is raised. *)
Definition M (A : Type) : Type := list Z -> result A * list Z.

Definition ret {A} (a : A) : M A := fun st => (Ok a, st).
Definition raise {A} (e : exn) : M A := fun st => (Raise e, st).
Definition bind {A B} (m : M A) (k : A -> M B) : M B :=
    fun st => match m st with
              | (Ok a, st') => k a st'
              | (Raise e, st') => (Raise e, st')
              end.
Definition lift {A} (r : result A) : M A := fun st => (r, st).
Definition get : M (list Z) := fun st => (Ok st, st).
Definition load (i : Z) : M Z := fun st => (Jit.getitem st i, st).
Definition store (i v : Z) : M unit :=
    fun st => match Jit.setitem st i v with
              | Ok st' => (Ok tt, st')
              | Raise e => (Raise e, st)
              end.

End Pop.

Declare Scope pop_scope.
Delimit Scope pop_scope with pop.
Notation "x <- m ;; k" := (Pop.bind m (fun x => k))
  (at level 100, m at next level, right associativity) : pop_scope.
Notation "m ;; k" := (Pop.bind m (fun _ => k))
  (at level 100, right associativity) : pop_scope.

(** ** State updater *)

(** The decrement loop of [update_state]: each present species of the
    consuming side loses one molecule, and the count is tested after the
    write. *)
Fixpoint consume (ids : list Z) : Pop.M unit :=
  match ids with
  | [] => Pop.ret tt
  | reactant_id :: rest =>
      if reactant_id =? -1 then consume rest
      else (n <- Pop.load reactant_id ;;
            Pop.store reactant_id (n - 1) ;;
            n' <- Pop.load reactant_id ;;
            if n' <? 0 then Pop.raise ValueError else consume rest)%pop
  end.

(** The increment loop of [update_state]. *)
Fixpoint produce (ids : list Z) : Pop.M unit :=
  match ids with
  | [] => Pop.ret tt
  | product_id :: rest =>
      if product_id =? -1 then produce rest
      else (n <- Pop.load product_id ;;
            Pop.store product_id (n + 1) ;;
            produce rest)%pop
  end.

Definition update_state (reactants products : list (list Z))
    (rxn_ind : Z) (reverse : bool) : Pop.M (list Z) :=
  if rxn_ind =? -1 then Pop.raise RuntimeError
  else if reverse then
    (consumed <- Pop.lift (Jit.getitem products rxn_ind) ;;
     consume consumed ;;
     produced <- Pop.lift (Jit.getitem reactants rxn_ind) ;;
     produce produced ;;
     Pop.get)%pop
  else
    (consumed <- Pop.lift (Jit.getitem reactants rxn_ind) ;;
     consume consumed ;;
     produced <- Pop.lift (Jit.getitem products rxn_ind) ;;
     produce produced ;;
     Pop.get)%pop.

(** ** Coordination calculator *)

(** [len(np.where(reactant_array != -1)[0])] *)
Definition count_present (reactant_array : list Z) : nat :=
  length (filter (fun x => x ≠ -1) reactant_array).

(** [[state[reactant_id] for reactant_id in reactant_array]]: the
    sentinel is not skipped here, it is used as an index. *)
Fixpoint num_mols_list (state : list Z) (reactant_array : list Z)
  : result (list Z) :=
  match reactant_array with
  | [] => Ok []
  | reactant_id :: rest =>
      let? n := Jit.getitem state reactant_id in
      let? ns := num_mols_list state rest in
      Ok (n :: ns)
  end.

(** [get_coordination]: the counts are 64-bit integers and so are
    their products; the division by 2 is a division of floats. *)
Definition get_coordination (reactants products : list (list Z))
    (state : list Z) (rxn_id : Z) (reverse : bool) : result Q :=
  let? reactant_array :=
    (if reverse then Jit.getitem products rxn_id
     else Jit.getitem reactants rxn_id) in
  let num_reactants := count_present reactant_array in
  let? mols := num_mols_list state reactant_array in
  if Nat.eqb num_reactants 1 then
    let? n0 := Py.getitem mols 0 in
    Ok (inject_Z n0)
  else if Nat.eqb num_reactants 2 then
    let? a0 := Jit.getitem reactant_array 0 in
    let? a1 := Jit.getitem reactant_array 1 in
    if a0 =? a1 then
      let? n0 := Py.getitem mols 0 in
      Ok (inject_Z (Jit.int64 (n0 * (n0 - 1))) / 2)%Q
    else
      let? n0 := Py.getitem mols 0 in
      let? n1 := Py.getitem mols 1 in
      Ok (inject_Z (Jit.int64 (n0 * n1)))
  else Raise RuntimeError.

(** ** Network compiler *)

Module Reaction.
  (** A reaction descriptor: the entry ids of its reactants and products
      (an entry is identified by its id) and the pair returned by
      [rate_constant()]. *)
Record t : Type := mk {
    reactants : list Z;
    products : list Z;
    k_A : Q;
    k_B : Q
  }.
End Reaction.

(** The arrays filled by the loop over the reactions. *)
Record tables : Type := mk_tables {
  species_rxn_mapping_list : list (list Z);
  reactant_array : list (list Z);
  product_array : list (list Z);
  coord_array : list Q;
  rate_constants : list Q
}.

(** [initial_state_dict.get(entry_id, 0)] *)
Definition dict_get (d : gmap Z Z) (entry_id : Z) : Z := default 0 (d !! entry_id).

(** The loop [for idx, react in enumerate(side)]: writes the entry id
    into column [idx] of row [id], appends the channel to the species'
    reaction list and collects the initial count. *)
Fixpoint record_side (initial_state_dict : gmap Z Z) (channel id idx : Z)
    (side : list Z) (arr mapping : list (list Z)) (counts : list Z)
  : result (list (list Z) * list (list Z) * list Z) :=
  match side with
  | [] => Ok (arr, mapping, counts)
  | entry_id :: rest =>
      let? arr' := Py.setitem2 arr id idx entry_id in
      let? l := Py.getitem mapping entry_id in
      let? mapping' := Py.setitem mapping entry_id (l ++ [channel]) in
      record_side initial_state_dict channel id (idx + 1) rest arr' mapping'
        (counts ++ [dict_get initial_state_dict entry_id])
  end.

(** The [if]/[elif] chain that gives a channel its initial coordination
    number from the counts collected for its consuming side. *)
Definition initial_coordination (side : list Z) (counts : list Z) : result Q :=
  if Nat.eqb (length side) 1 then
    let? n0 := Py.getitem counts 0 in
    Ok (inject_Z n0)
  else if Nat.eqb (length side) 2 then
    let? r0 := Py.getitem side 0 in
    let? r1 := Py.getitem side 1 in
    if r0 =? r1 then
      let? n0 := Py.getitem counts 0 in
      Ok (inject_Z (n0 * (n0 - 1)))
    else
      let? n0 := Py.getitem counts 0 in
      let? n1 := Py.getitem counts 1 in
      Ok (inject_Z (n0 * n1))
  else Raise RuntimeError.

(** Body of [for id, reaction in enumerate(reaction_network.reactions)]. *)
Definition compile_reaction (initial_state_dict : gmap Z Z) (id : Z)
    (reaction : Reaction.t) (t : tables) : result tables :=
  let? rc := Py.setitem (rate_constants t) (2 * id) (Reaction.k_A reaction) in
  let? rc := Py.setitem rc (2 * id + 1) (Reaction.k_B reaction) in
  let? (ra, m, num_reactants_for) :=
    record_side initial_state_dict (2 * id) id 0 (Reaction.reactants reaction)
      (reactant_array t) (species_rxn_mapping_list t) [] in
  let? (pa, m, num_reactants_rev) :=
    record_side initial_state_dict (2 * id + 1) id 0 (Reaction.products reaction)
      (product_array t) m [] in
  let? hf := initial_coordination (Reaction.reactants reaction) num_reactants_for in
  let? ca := Py.setitem (coord_array t) (2 * id) hf in
  let? hr := initial_coordination (Reaction.products reaction) num_reactants_rev in
  let? ca := Py.setitem ca (2 * id + 1) hr in
  Ok (mk_tables m ra pa ca rc).

Fixpoint compile_reactions (initial_state_dict : gmap Z Z) (id : Z)
    (reactions : list Reaction.t) (t : tables) : result tables :=
  match reactions with
  | [] => Ok t
  | reaction :: rest =>
      let? t' := compile_reaction initial_state_dict id reaction t in
      compile_reactions initial_state_dict (id + 1) rest t'
  end.

(** [max(rxn_mapping_lengths)]; Python raises [ValueError] on an empty
    sequence. *)
Definition py_max (l : list nat) : result nat :=
  match l with
  | [] => Raise ValueError
  | x :: xs => Ok (foldl Nat.max x xs)
  end.

(** Row [index] of the table of sentinels after
    [species_rxn_mapping[index, :] = rxn_list] or
    [species_rxn_mapping[index, : this_map_length - max_mapping_length] = rxn_list]. *)
Definition pad_row (max_mapping_length : nat) (rxn_list : list Z)
  : result (list Z) :=
  let row := replicate max_mapping_length (-1) in
  let this_map_length := length rxn_list in
  if Nat.eqb this_map_length max_mapping_length then
    Py.assign_prefix row (length row) rxn_list
  else
    Py.assign_prefix row
      (Py.slice_stop (length row)
         (Z.of_nat this_map_length - Z.of_nat max_mapping_length))
      rxn_list.

Fixpoint pad_rows (max_mapping_length : nat) (lists : list (list Z))
  : result (list (list Z)) :=
  match lists with
  | [] => Ok []
  | rxn_list :: rest =>
      let? row := pad_row max_mapping_length rxn_list in
      let? rows := pad_rows max_mapping_length rest in
      Ok (row :: rows)
  end.

(** [for mol_id in initial_state_dict: initial_state[mol_id] = ...], the
    items taken in the order of [map_to_list]; the order matters only
    when two keys designate the same cell. *)
Fixpoint fill_initial_state (items : list (Z * Z)) (initial_state : list Z)
  : result (list Z) :=
  match items with
  | [] => Ok initial_state
  | (mol_id, amount) :: rest =>
      let? st := Py.setitem initial_state mol_id amount in
      fill_initial_state rest st
  end.

(** The arrays as allocated before the loop: empty reaction lists,
    sentinels in the species tables, zeros elsewhere. *)
Definition fresh_tables (num_entries num_rxns : nat) : tables :=
  {| species_rxn_mapping_list := replicate num_entries [];
     reactant_array := replicate num_rxns [-1; -1];
     product_array := replicate num_rxns [-1; -1];
     coord_array := replicate (2 * num_rxns) 0%Q;
     rate_constants := replicate (2 * num_rxns) 0%Q |}.

(** What [initialize_simulation] returns. *)
Record compiled : Type := mk_compiled {
  c_initial_state : list Z;
  c_species_rxn_mapping : list (list Z);
  c_reactants : list (list Z);
  c_products : list (list Z);
  c_coord_array : list Q;
  c_rate_constants : list Q
}.

(** [initialize_simulation]. The source fixes [num_entries] to 5732 and
    builds [initial_state_dict] from four concentrations; here both are
    arguments. *)
Definition initialize_simulation (num_entries : nat)
    (initial_state_dict : gmap Z Z) (reactions : list Reaction.t)
  : result compiled :=
  let num_rxns := length reactions in
  let? initial_state :=
    fill_initial_state (map_to_list initial_state_dict) (replicate num_entries 0) in
  let? t := compile_reactions initial_state_dict 0 reactions
              (fresh_tables num_entries num_rxns) in
  let rxn_mapping_lengths := map length (species_rxn_mapping_list t) in
  let? max_mapping_length := py_max rxn_mapping_lengths in
  let? species_rxn_mapping := pad_rows max_mapping_length (species_rxn_mapping_list t) in
  Ok {| c_initial_state := initial_state;
        c_species_rxn_mapping := species_rxn_mapping;
        c_reactants := reactant_array t;
        c_products := product_array t;
        c_coord_array := coord_array t;
        c_rate_constants := rate_constants t |}.

(** ** numpy operations on one-dimensional arrays *)

Module Np.

Definition Qlt_bool (x y : Q) : bool := negb (Qle_bool y x).

  (** [np.where(a > 0)[0]], the positions counted from [i]. *)
Fixpoint where_pos_from (i : Z) (a : list Q) : list Z :=
    match a with
    | [] => []
    | x :: rest =>
        if Qlt_bool 0 x then i :: where_pos_from (i + 1) rest
        else where_pos_from (i + 1) rest
    end.

Definition where_pos (a : list Q) : list Z := where_pos_from 0 a.

  (** [np.where(a >= bound)[0]], the positions counted from [i]. *)
Fixpoint where_ge_from (i : Z) (a : list Q) (bound : Q) : list Z :=
    match a with
    | [] => []
    | x :: rest =>
        if Qle_bool bound x then i :: where_ge_from (i + 1) rest bound
        else where_ge_from (i + 1) rest bound
    end.

Definition where_ge (a : list Q) (bound : Q) : list Z := where_ge_from 0 a bound.

  (** [a[inds]] for an integer index array. *)
Fixpoint take (a : list Q) (inds : list Z) : result (list Q) :=
    match inds with
    | [] => Ok []
    | i :: rest =>
        let? x := Jit.getitem a i in
        let? xs := take a rest in
        Ok (x :: xs)
    end.

  (** [np.cumsum(a)], started from the running total [acc]. *)
Fixpoint cumsum_from (acc : Q) (a : list Q) : list Q :=
    match a with
    | [] => []
    | x :: rest => (acc + x)%Q :: cumsum_from (acc + x)%Q rest
    end.

Definition cumsum (a : list Q) : list Q := cumsum_from 0 a.

  (** [np.sum(a)] *)
Definition sum (a : list Q) : Q := foldl Qplus 0%Q a.

  (** [np.multiply(a, b)]: elementwise, a one-element operand is
      broadcast, other shape mismatches are an error. *)
Definition multiply (a b : list Q) : result (list Q) :=
    if Nat.eqb (length a) (length b) then Ok (zip_with Qmult a b)
    else match a, b with
         | [x], _ => Ok (map (Qmult x) b)
         | _, [y] => Ok (map (fun x => x * y)%Q a)
         | _, _ => Raise ValueError
         end.

  (** Scalar division under numba's default error model: a zero divisor
      raises. *)
Definition divide (x y : Q) : result Q :=
    if Qeq_bool y 0 then Raise ZeroDivisionError else Ok (x / y)%Q.

End Np.

(** ** Simulation driver *)

(** The variables of [simulate] that change from one iteration to the
    next. *)
Record sim : Type := mk_sim {
  state : list Z;
  coord : list Q;
  propensity_array : list Q;
  relevant_ind : list Z;
  total_propensity : Q;
  reaction_history : list Z;
  times : list Q
}.

(** The arguments of [simulate] that stay as they are. *)
Record network : Type := mk_network {
  net_rate_constants : list Q;
  net_species_rxn_mapping : list (list Z);
  net_reactants : list (list Z);
  net_products : list (list Z)
}.

(** The two loops that gather the rows of [species_rxn_mapping] of the
    species of one side. *)
Fixpoint collect_rows (species_rxn_mapping : list (list Z)) (ids : list Z)
  : result (list Z) :=
  match ids with
  | [] => Ok []
  | species_id :: rest =>
      if species_id =? -1 then collect_rows species_rxn_mapping rest
      else
        let? row := Jit.getitem species_rxn_mapping species_id in
        let? more := collect_rows species_rxn_mapping rest in
        Ok (row ++ more)
  end.

(** [for rxn_ind in reactions_to_change]: recompute the coordination
    numbers of the listed channels from the current state. *)
Fixpoint refresh_coordination (reactants products : list (list Z))
    (st : list Z) (reactions_to_change : list Z) (coord_array : list Q)
  : result (list Q) :=
  match reactions_to_change with
  | [] => Ok coord_array
  | rxn_ind :: rest =>
      if rxn_ind =? -1 then
        refresh_coordination reactants products st rest coord_array
      else
        let this_reverse := negb (rxn_ind mod 2 =? 0) in
        let? this_h :=
          get_coordination reactants products st (rxn_ind / 2) this_reverse in
        let? coord_array' := Jit.setitem coord_array rxn_ind this_h in
        refresh_coordination reactants products st rest coord_array'
  end.

Section Simulate.

  (** [np.log] *)
Variable np_log : Q -> Q.

  (** Waiting time and channel choice from the two draws. *)
Definition select (propensities : list Q) (relevant : list Z) (A0 : Q)
      (r1 r2 : Q) : result (Q * Z) :=
    let? tau := Np.divide (- np_log r1) A0 in
    let random_propensity := (r2 * A0)%Q in
    let? chosen := Np.take propensities relevant in
    let? abrgd_reaction_choice_ind :=
      Jit.getitem (Np.where_ge (Np.cumsum chosen) random_propensity) 0 in
    let? reaction_choice_ind := Jit.getitem relevant abrgd_reaction_choice_ind in
    Ok (tau, reaction_choice_ind).

  (** One iteration of the loop of [simulate] with the draws [r1] and
      [r2]; [step_counter] is the position written in the history. The
      set [reactions_to_change] is walked in order of first occurrence:
      its channels are written to distinct cells from the same state. *)
Definition simulate_step (net : network) (step_counter : Z) (r1 r2 : Q)
      (s : sim) : result sim :=
    let reactants := net_reactants net in
    let products := net_products net in
    let? (tau, reaction_choice_ind) :=
      select (propensity_array s) (relevant_ind s) (total_propensity s) r1 r2 in
    let converted_rxn_ind := reaction_choice_ind / 2 in
    let reverse := negb (reaction_choice_ind mod 2 =? 0) in
    let? st :=
      fst (update_state reactants products converted_rxn_ind reverse (state s)) in
    let? reactant_row := Jit.getitem reactants converted_rxn_ind in
    let? from_reactants := collect_rows (net_species_rxn_mapping net) reactant_row in
    let? product_row := Jit.getitem products converted_rxn_ind in
    let? from_products := collect_rows (net_species_rxn_mapping net) product_row in
    let reactions_to_change := remove_dups (from_reactants ++ from_products) in
    let? coord_array :=
      refresh_coordination reactants products st reactions_to_change (coord s) in
    let? propensities := Np.multiply (net_rate_constants net) coord_array in
    let relevant := Np.where_pos propensities in
    let? chosen := Np.take propensities relevant in
    let A0 := Np.sum chosen in
    let? history := Py.setitem (reaction_history s) step_counter reaction_choice_ind in
    let? ts := Py.setitem (times s) step_counter tau in
    Ok {| state := st; coord := coord_array; propensity_array := propensities;
          relevant_ind := relevant; total_propensity := A0;
          reaction_history := history; times := ts |}.

  (** [for step_counter in range(time_steps)], the draws of iteration
      [i] being [draws i]. *)
Fixpoint simulate_loop (net : network) (draws : nat -> Q * Q)
      (remaining : nat) (step_counter : nat) (s : sim) : result sim :=
    match remaining with
    | O => Ok s
    | S remaining' =>
        let (r1, r2) := draws step_counter in
        let? s' := simulate_step net (Z.of_nat step_counter) r1 r2 s in
        simulate_loop net draws remaining' (S step_counter) s'
    end.

  (** The variables of [simulate] before the first iteration. *)
Definition simulate_init (time_steps : nat) (coord_array propensities : list Q)
      (A0 : Q) (st : list Z) : sim :=
    {| state := st; coord := coord_array; propensity_array := propensities;
       relevant_ind := Np.where_pos propensities; total_propensity := A0;
       reaction_history := replicate time_steps 0;
       times := replicate time_steps 0%Q |}.

  (** [simulate]: the two rows of the array it returns. *)
Definition simulate (time_steps : nat) (num_species : nat)
      (coord_array rate_consts propensities : list Q) (A0 : Q)
      (species_rxn_mapping reactants products : list (list Z)) (st : list Z)
      (draws : nat -> Q * Q) : result (list Z * list Q) :=
    let net := mk_network rate_consts species_rxn_mapping reactants products in
    let? s := simulate_loop net draws time_steps 0
                (simulate_init time_steps coord_array propensities A0 st) in
    Ok (reaction_history s, times s).

  (** The values that the loop variables of [simulate] can take: those
      set up before the first iteration, and those left by an iteration
      that completed. *)
Inductive reachable (net : network) : sim -> Prop :=
  | reachable_init time_steps coord_array propensities A0 st :
      reachable net (simulate_init time_steps coord_array propensities A0 st)
  | reachable_step s s' step_counter r1 r2 :
      reachable net s ->
      simulate_step net step_counter r1 r2 s = Ok s' ->
      reachable net s'.

End Simulate.

(** ** Specification vocabulary *)

(** Number of slots of a table row that hold species [k]. *)
Fixpoint occurrences (k : Z) (ids : list Z) : Z :=
  match ids with
  | [] => 0
  | id :: rest => (if id =? k then 1 else 0) + occurrences k rest
  end.

(** A table row over [len] species: each slot is the sentinel or a
    species id. *)
Definition wf_row (len : nat) (ids : list Z) : Prop :=
  Forall (fun id => id = -1 \/ 0 <= id < Z.of_nat len) ids.

Definition nonneg (st : list Z) : Prop := Forall (fun n => 0 <= n) st.

(** A reaction that the engine does not support: one of its sides has
    neither one nor two species. *)
Definition unsupported_side (side : list Z) : Prop :=
  length side <> 1%nat /\ length side <> 2%nat.

Definition unsupported (reaction : Reaction.t) : Prop :=
  unsupported_side (Reaction.reactants reaction) \/
  unsupported_side (Reaction.products reaction).

(** A species table: every row has the two slots. *)
Definition rows_of_two (arr : list (list Z)) : Prop :=
  Forall (fun row => length row = 2%nat) arr.

(** Number of strictly positive entries before position [k]. *)
Definition rank (p : list Q) (k : nat) : nat :=
  length (List.filter (Np.Qlt_bool 0) (take k p)).

(** Sum of the strictly positive entries among [p[0], ..., p[k]]: the
    running total of the scan when it stands on channel [k]. *)
Definition cum_pos (p : list Q) (k : nat) : Q :=
  Np.sum (List.filter (Np.Qlt_bool 0) (take (S k) p)).

(** Channel [c] is the first channel of strictly positive propensity, in
    ascending order of channel index, at which the running total reaches
    [target]. *)
Definition first_reaching (p : list Q) (target : Q) (c : Z) : Prop :=
  exists (k : nat) (x : Q),
    c = Z.of_nat k /\ p !! k = Some x /\ (0 < x)%Q /\
    (target <= cum_pos p k)%Q /\
    forall (j : nat) (y : Q),
      (j < k)%nat -> p !! j = Some y -> (0 < y)%Q -> (cum_pos p j < target)%Q.

(** ** Small networks used as instances *)

(** One reversible reaction [A <-> B] between species 0 and 1, both rate
    constants 1, compiled by hand. *)
Definition pair_network : network :=
  {| net_rate_constants := [1; 1]%Q;
     net_species_rxn_mapping := [[0]; [1]];
     net_reactants := [[0; -1]];
     net_products := [[1; -1]] |}.

(** The loop variables for [A = 100], [B = 0] and one iteration. *)
Definition pair_start : sim :=
  simulate_init 1 [100; 0]%Q [100; 0]%Q 100%Q [100; 0].

(** The loop variables after one iteration with both draws at 1/2 and a
    logarithm read as 0. *)
Definition pair_after : sim :=
  match simulate_step (fun _ => 0%Q) pair_network 0 (1 # 2) (1 # 2) pair_start with
  | Ok s => s
  | Raise _ => pair_start
  end.

(** The same reaction with a negative reverse rate constant, one
    molecule of each species: the propensities are [1] and [-5], their
    sum is [-4]. *)
Definition skewed_network : network :=
  {| net_rate_constants := [1; -5]%Q;
     net_species_rxn_mapping := [[0]; [1]];
     net_reactants := [[0; -1]];
     net_products := [[1; -1]] |}.

Definition skewed_start : sim :=
  simulate_init 1 [1; 1]%Q [1; -5]%Q (-4)%Q [1; 1].

(** A reaction with the same species twice on its reactant side. *)
Definition dimer_reactions : list Reaction.t :=
  [Reaction.mk [0] [1] 1 1; Reaction.mk [0; 0] [1] 1 1].

Definition dimer_compiled : compiled :=
  {| c_initial_state := [100; 0; 0];
     c_species_rxn_mapping := [[0; 2; 2]; [1; 3; -1]; [-1; -1; -1]];
     c_reactants := [[0; -1]; [0; 0]];
     c_products := [[1; -1]; [1; -1]];
     c_coord_array := [100; 0; 9900; 0]%Q;
     c_rate_constants := [1; 1; 1; 1]%Q |}.

(** A reaction with three reactants. *)
Definition termolecular : Reaction.t := Reaction.mk [0; 1; 2] [3] 1 1.

(** No molecule at all: every propensity and the total are zero. *)
Definition empty_start : sim :=
  simulate_init 1 [0; 0]%Q [0; 0]%Q 0%Q [0; 0].

(** A negative total with no strictly positive propensity. *)
Definition sunk_start : sim :=
  simulate_init 1 [0; 1]%Q [0; -5]%Q (-5)%Q [0; 1].

(** ** Vocabulary of the further properties *)



(** A side as the compiler stores it: one species and the sentinel, or
    two species. *)
Definition side_row (row : list Z) : Prop :=
  (exists a, row = [a; -1] /\ a <> -1) \/
  (exists a b, row = [a; b] /\ a <> -1 /\ b <> -1).

(** A reaction that the compiler accepts for a table of [num_entries]
    species: one or two species on each side, each a species of the
    table. *)
Definition supported_side (num_entries : nat) (side : list Z) : Prop :=
  (length side = 1%nat \/ length side = 2%nat) /\
  Forall (fun e => 0 <= e < Z.of_nat num_entries) side.

Definition supported (num_entries : nat) (reaction : Reaction.t) : Prop :=
  supported_side num_entries (Reaction.reactants reaction) /\
  supported_side num_entries (Reaction.products reaction).

(** The row of species that channel [c] consumes, and the coordination
    number of channel [c] in a state, with the decomposition of the
    channel index that [simulate] uses. *)
Definition consuming_row (reactants products : list (list Z)) (c : Z)
  : result (list Z) :=
  Py.getitem (if negb (c mod 2 =? 0) then products else reactants) (c / 2).

Definition channel_coordination (reactants products : list (list Z))
    (st : list Z) (c : Z) : result Q :=
  get_coordination reactants products st (c / 2) (negb (c mod 2 =? 0)).

(** Every cell of the coordination vector holds what the calculator
    gives for its channel in the state. *)
Definition coord_consistent (reactants products : list (list Z))
    (st : list Z) (coord_array : list Q) : Prop :=
  forall (c : nat) h, coord_array !! c = Some h ->
    channel_coordination reactants products st (Z.of_nat c) = Ok h.

(** The dependency table lists, for every species, every channel that
    consumes it. *)
Definition dependency_complete (reactants products mapping : list (list Z)) : Prop :=
  forall (c k : nat) row,
    consuming_row reactants products (Z.of_nat c) = Ok row ->
    Z.of_nat k ∈ row ->
    exists mrow, mapping !! k = Some mrow /\ Z.of_nat c ∈ mrow.

(** The row of species that channel [c] produces: the other side of
    its reaction. *)
Definition producing_row (reactants products : list (list Z)) (c : Z)
  : result (list Z) :=
  Py.getitem (if negb (c mod 2 =? 0) then reactants else products) (c / 2).

(** The arrays passed to [simulate] have the shapes that the compiler
    gives them for [num_species] species: as many product rows as
    reactant rows, two rate constants per reaction, one dependency row
    per species, every row of the species tables a side of species of
    the population array, and every cell of the dependency table the
    sentinel or a channel index. *)
Definition well_shaped (net : network) (num_species : nat) : Prop :=
  length (net_products net) = length (net_reactants net) /\
  length (net_rate_constants net) = (2 * length (net_reactants net))%nat /\
  length (net_species_rxn_mapping net) = num_species /\
  Forall (fun row => side_row row /\ wf_row num_species row) (net_reactants net) /\
  Forall (fun row => side_row row /\ wf_row num_species row) (net_products net) /\
  Forall (Forall (fun c => c = -1 \/ 0 <= c < 2 * Z.of_nat (length (net_reactants net))))
    (net_species_rxn_mapping net).

(** The loop variables of [simulate] fit the arrays: the population
    array has [num_species] cells, the coordination and propensity
    vectors one cell per channel, the cached positions are those of the
    positive propensities and the cached total is their sum, and the two
    histories have [time_steps] cells. *)
Definition run_invariant (net : network) (num_species time_steps : nat) (s : sim)
  : Prop :=
  length (state s) = num_species /\
  length (coord s) = (2 * length (net_reactants net))%nat /\
  length (propensity_array s) = (2 * length (net_reactants net))%nat /\
  relevant_ind s = Np.where_pos (propensity_array s) /\
  (total_propensity s == Np.sum (List.filter (Np.Qlt_bool 0) (propensity_array s)))%Q /\
  length (reaction_history s) = time_steps /\
  length (times s) = time_steps.

(** ** Replay of a history by [plot_trajectory] *)










(** * Properties *)

(** ** Indexing *)

(** An access in compiled code does what the Python access does as long
    as the index designates a cell. *)
Lemma jit_getitem {A} (l : list A) i :
  Jit.getitem l i =
  match Py.getitem l i with Ok x => Ok x | Raise _ => Raise OutOfBounds end.
Proof.
  unfold Jit.getitem, Py.getitem.
  destruct (Py.norm (length l) i); [by destruct (l !! n)|done].
Qed.

Lemma jit_setitem {A} (l : list A) i x :
  Jit.setitem l i x =
  match Py.setitem l i x with Ok l' => Ok l' | Raise _ => Raise OutOfBounds end.
Proof. unfold Jit.setitem, Py.setitem. by destruct (Py.norm (length l) i). Qed.

Lemma jit_getitem_Ok {A} (l : list A) i x :
  Jit.getitem l i = Ok x <-> Py.getitem l i = Ok x.
Proof. rewrite jit_getitem. destruct (Py.getitem l i); split; congruence. Qed.

Lemma jit_setitem_Ok {A} (l : list A) i x l' :
  Jit.setitem l i x = Ok l' <-> Py.setitem l i x = Ok l'.
Proof. rewrite jit_setitem. destruct (Py.setitem l i x); split; congruence. Qed.

Lemma jit_getitem_Raise {A} (l : list A) i e :
  Jit.getitem l i = Raise e -> e = OutOfBounds.
Proof. rewrite jit_getitem. destruct (Py.getitem l i); congruence. Qed.

Lemma jit_setitem_Raise {A} (l : list A) i x e :
  Jit.setitem l i x = Raise e -> e = OutOfBounds.
Proof. rewrite jit_setitem. destruct (Py.setitem l i x); congruence. Qed.

(** Accesses that succeeded are read as Python accesses. *)
Ltac of_jit :=
  repeat match goal with
  | H : Jit.getitem _ _ = Ok _ |- _ => apply (proj1 (jit_getitem_Ok _ _ _)) in H
  | H : Jit.setitem _ _ _ = Ok _ |- _ => apply (proj1 (jit_setitem_Ok _ _ _ _)) in H
  end.

Ltac inv_bind H :=
  repeat match type of H with
  | rbind ?r _ = Ok _ =>
      let E := fresh "E" in
      destruct r eqn:E; cbn [rbind] in H; [|discriminate H]
  | (let (_, _) := ?p in _) = Ok _ => destruct p
  | (match ?p with (_, _) => _ end) = Ok _ => destruct p
  end;
  of_jit.

Section PyFacts.
Context {A : Type}.
Implicit Types (l : list A) (i : Z) (k : nat) (x : A).

Lemma norm_nonneg len i :
    0 <= i < Z.of_nat len -> Py.norm len i = Some (Z.to_nat i).
  Proof.
    intros H. unfold Py.norm.
    replace (0 <=? i) with true by (symmetry; apply Z.leb_le; lia).
    replace (i <? Z.of_nat len) with true by (symmetry; apply Z.ltb_lt; lia).
    reflexivity.
  Qed.

Lemma norm_lt len i k : Py.norm len i = Some k -> (k < len)%nat.
  Proof.
    unfold Py.norm.
    destruct (0 <=? i) eqn:E1, (i <? Z.of_nat len) eqn:E2; simpl;
      try destruct (- Z.of_nat len <=? i) eqn:E3; try destruct (i <? 0) eqn:E4;
      simpl; intros; simplify_eq; lia.
  Qed.

Lemma norm_nonneg_inv len i k :
    Py.norm len i = Some k -> 0 <= i -> k = Z.to_nat i /\ i < Z.of_nat len.
  Proof.
    unfold Py.norm.
    destruct (0 <=? i) eqn:E1, (i <? Z.of_nat len) eqn:E2; simpl;
      try destruct (- Z.of_nat len <=? i) eqn:E3; try destruct (i <? 0) eqn:E4;
      simpl; intros; simplify_eq; lia.
  Qed.

Lemma norm_minus_one len :
    (0 < len)%nat -> Py.norm len (-1) = Some (len - 1)%nat.
  Proof.
    intros H. unfold Py.norm. simpl.
    replace (- Z.of_nat len <=? -1) with true by (symmetry; apply Z.leb_le; lia).
    simpl. f_equal. lia.
  Qed.

Lemma getitem_Ok l i x :
    Py.getitem l i = Ok x <->
    exists k, Py.norm (length l) i = Some k /\ l !! k = Some x.
  Proof.
    unfold Py.getitem. split.
    - destruct (Py.norm (length l) i) as [k|] eqn:E; [|discriminate].
      destruct (l !! k) eqn:E'; [|discriminate].
      intros [= ->]. eauto.
    - intros (k & -> & ->). reflexivity.
  Qed.

Lemma getitem_nonneg l i x :
    0 <= i -> (Py.getitem l i = Ok x <-> l !! Z.to_nat i = Some x).
  Proof.
    intros Hi. rewrite getitem_Ok. split.
    - intros (k & Hk & Hx). apply norm_nonneg_inv in Hk as [-> _]; auto.
    - intros Hx. exists (Z.to_nat i). split; [|done].
      apply norm_nonneg. apply lookup_lt_Some in Hx. lia.
  Qed.

Lemma getitem_Raise l i e : Py.getitem l i = Raise e -> e = IndexError.
  Proof.
    unfold Py.getitem.
    destruct (Py.norm (length l) i); [destruct (l !! n)|]; congruence.
  Qed.

Lemma setitem_Ok l i x l' :
    Py.setitem l i x = Ok l' <->
    exists k, Py.norm (length l) i = Some k /\ l' = <[k := x]> l.
  Proof.
    unfold Py.setitem. split.
    - destruct (Py.norm (length l) i) as [k|]; [|discriminate].
      intros [= <-]. eauto.
    - intros (k & -> & ->). reflexivity.
  Qed.

Lemma setitem_length l i x l' :
    Py.setitem l i x = Ok l' -> length l' = length l.
  Proof.
    rewrite setitem_Ok. intros (k & _ & ->). apply length_insert.
  Qed.

End PyFacts.

(** A result that fits in 64 bits is held as it is. *)
Lemma int64_exact z : - 2 ^ 63 <= z < 2 ^ 63 -> Jit.int64 z = z.
Proof. intros Hz. unfold Jit.int64. rewrite Z.mod_small; lia. Qed.

Lemma int64_range z : - 2 ^ 63 <= Jit.int64 z < 2 ^ 63.
Proof.
  unfold Jit.int64. pose proof (Z.mod_pos_bound (z + 2 ^ 63) (2 ^ 64)). lia.
Qed.

(** ** The decrement and increment loops *)



Lemma nonneg_insert (st : list Z) k n : nonneg st -> 0 <= n -> nonneg (<[k := n]> st).
Proof.
  unfold nonneg. rewrite !Forall_lookup. intros H Hn j m Hj.
  destruct (decide (k = j)) as [->|Hne].
  - destruct (decide (j < length st)%nat).
    + rewrite list_lookup_insert_eq in Hj by done. congruence.
    + rewrite list_insert_ge in Hj by lia. eauto.
  - rewrite list_lookup_insert_ne in Hj by done. eauto.
Qed.

(** One pass of the body of either loop on a present, in-range species:
    the cell is rewritten with [f] applied to its content. *)
Lemma load_store st id (f : Z -> Z) :
  0 <= id < Z.of_nat (length st) ->
  exists n, st !! Z.to_nat id = Some n /\
    Pop.load id st = (Ok n, st) /\
    Pop.store id (f n) st = (Ok tt, <[Z.to_nat id := f n]> st) /\
    Pop.load id (<[Z.to_nat id := f n]> st) = (Ok (f n), <[Z.to_nat id := f n]> st).
Proof.
  intros Hid.
  destruct (lookup_lt_is_Some_2 st (Z.to_nat id)) as [n Hn]; [lia|].
  exists n. split; [done|]. unfold Pop.load, Pop.store, Jit.getitem, Jit.setitem.
  rewrite length_insert, !norm_nonneg by done. rewrite Hn.
  rewrite list_lookup_insert_eq by lia. done.
Qed.

Lemma lookup_insert_occurrences (st : list Z) id n (d : Z) k m :
  0 <= id -> st !! Z.to_nat id = Some n -> st !! k = Some m ->
  <[Z.to_nat id := n + d]> st !! k
  = Some (m + d * (if id =? Z.of_nat k then 1 else 0)).
Proof.
  intros Hid Hn Hm. destruct (Z.eqb_spec id (Z.of_nat k)) as [->|Hne].
  - rewrite Nat2Z.id in *. rewrite list_lookup_insert_eq by (by eapply lookup_lt_Some).
    f_equal. simplify_eq. lia.
  - rewrite list_lookup_insert_ne by lia. rewrite Hm. f_equal. lia.
Qed.

Lemma occurrences_sentinel (k : nat) ids :
  occurrences (Z.of_nat k) (-1 :: ids) = occurrences (Z.of_nat k) ids.
Proof.
  cbn [occurrences]. destruct (Z.eqb_spec (-1) (Z.of_nat k)); lia.
Qed.

(** What the decrement loop leaves behind, whether it completes or
    raises: the cells of the slots it went through are decremented, the
    offending slot included. *)
Lemma consume_spec ids : forall st,
  wf_row (length st) ids ->
  match consume ids st with
  | (Ok _, st') =>
      length st' = length st /\
      (nonneg st -> nonneg st') /\
      (forall k m, st !! k = Some m ->
         st' !! k = Some (m - occurrences (Z.of_nat k) ids))
  | (Raise e, st') =>
      e = ValueError /\ length st' = length st /\
      exists pre bad post m,
        ids = pre ++ bad :: post /\ 0 <= bad /\
        st' !! Z.to_nat bad = Some m /\ m < 0 /\
        (forall k m, st !! k = Some m ->
           st' !! k = Some (m - occurrences (Z.of_nat k) (pre ++ [bad])))
  end.
Proof.
  induction ids as [|id ids IH]; intros st Hwf.
  - cbn [consume occurrences]. repeat split; auto. intros k m ->. f_equal; lia.
  - apply Forall_cons in Hwf as [Hid Hwf]. cbn [consume].
    destruct (Z.eqb_spec id (-1)) as [->|Hne].
    + specialize (IH st Hwf). destruct (consume ids st) as [[[]|e] st'].
      * destruct IH as (Hlen & Hnn & Hocc). repeat split; auto.
        intros k m Hk. rewrite (Hocc k m Hk).
        by rewrite occurrences_sentinel.
      * destruct IH as (-> & Hlen & pre & bad & post & m & -> & Hbad & Hm & Hneg & Hocc).
        repeat split; auto. exists (-1 :: pre), bad, post, m.
        repeat split; auto. intros k m' Hk. rewrite (Hocc k m' Hk).
        change ((-1 :: pre) ++ [bad]) with (-1 :: (pre ++ [bad])).
        by rewrite occurrences_sentinel.
    + assert (Hin : 0 <= id < Z.of_nat (length st)) by (destruct Hid; [done | lia]).
      destruct (load_store st id (fun n => n - 1) Hin) as (n & Hn & Hl & Hs & Hl').
      unfold Pop.bind. rewrite Hl, Hs, Hl'.
      set (st1 := <[Z.to_nat id := n - 1]> st) in *.
      assert (Hst1 : forall k m, st !! k = Some m ->
                st1 !! k = Some (m - (if id =? Z.of_nat k then 1 else 0))).
      { intros k m Hk. unfold st1. replace (n - 1) with (n + -1) by lia.
        rewrite (lookup_insert_occurrences st id n (-1) k m) by (done || lia).
        f_equal; lia. }
      destruct (Z.ltb_spec (n - 1) 0) as [Hlt|Hge].
      * unfold Pop.raise. repeat split; [apply length_insert|].
        exists [], id, ids, (n - 1). repeat split; auto; try lia.
        { unfold st1. apply list_lookup_insert_eq. lia. }
        intros k m Hk. rewrite (Hst1 k m Hk). cbn [app occurrences]. f_equal; lia.
      * assert (Hlen1 : length st1 = length st) by apply length_insert.
        specialize (IH st1). rewrite Hlen1 in IH. specialize (IH Hwf).
        destruct (consume ids st1) as [[[]|e] st'].
        -- destruct IH as (Hlen & Hnn & Hocc). repeat split; [lia| |].
           ++ intros Hst. apply Hnn. by apply nonneg_insert.
           ++ intros k m Hk. rewrite (Hocc _ _ (Hst1 k m Hk)). cbn [occurrences]. f_equal; lia.
        -- destruct IH as (-> & Hlen & pre & bad & post & m & -> & Hbad & Hm & Hneg & Hocc).
           repeat split; [lia|]. exists (id :: pre), bad, post, m.
           repeat split; auto. intros k m' Hk.
           rewrite (Hocc _ _ (Hst1 k m' Hk)). cbn [app occurrences]. f_equal; lia.
Qed.

(** The increment loop completes on a well-formed row and adds one per
    slot. *)
Lemma produce_spec ids : forall st,
  wf_row (length st) ids ->
  exists st', produce ids st = (Ok tt, st') /\
    length st' = length st /\
    (nonneg st -> nonneg st') /\
    (forall k m, st !! k = Some m ->
       st' !! k = Some (m + occurrences (Z.of_nat k) ids)).
Proof.
  induction ids as [|id ids IH]; intros st Hwf.
  - exists st. cbn [produce occurrences]. repeat split; auto. intros k m ->. f_equal; lia.
  - apply Forall_cons in Hwf as [Hid Hwf]. cbn [produce].
    destruct (Z.eqb_spec id (-1)) as [->|Hne].
    + destruct (IH st Hwf) as (st' & -> & Hlen & Hnn & Hocc).
      exists st'. repeat split; auto. intros k m Hk. rewrite (Hocc k m Hk).
      by rewrite occurrences_sentinel.
    + assert (Hin : 0 <= id < Z.of_nat (length st)) by (destruct Hid; [done | lia]).
      destruct (load_store st id (fun n => n + 1) Hin) as (n & Hn & Hl & Hs & _).
      unfold Pop.bind. rewrite Hl, Hs.
      set (st1 := <[Z.to_nat id := n + 1]> st) in *.
      assert (Hlen1 : length st1 = length st) by apply length_insert.
      specialize (IH st1). rewrite Hlen1 in IH.
      destruct (IH Hwf) as (st' & -> & Hlen & Hnn & Hocc).
      exists st'. repeat split; [lia| |].
      * intros Hst. apply Hnn. apply nonneg_insert; [done|].
        unfold nonneg in Hst. rewrite Forall_lookup in Hst.
        specialize (Hst _ _ Hn). lia.
      * intros k m Hk.
        pose proof (lookup_insert_occurrences st id n 1 k m ltac:(lia) Hn Hk) as H1.
        fold st1 in H1. rewrite (Hocc _ _ H1). cbn [occurrences]. f_equal; lia.
Qed.

(** ** State updater *)

(** [update_state] on a channel index whose two rows exist: the
    decrement loop on the consuming side, then the increment loop on the
    other side. *)
Lemma update_state_run reactants products c st consumed produced :
  0 <= c ->
  Py.getitem (if negb (c mod 2 =? 0) then products else reactants) (c / 2) = Ok consumed ->
  Py.getitem (if negb (c mod 2 =? 0) then reactants else products) (c / 2) = Ok produced ->
  update_state reactants products (c / 2) (negb (c mod 2 =? 0)) st =
  match consume consumed st with
  | (Ok _, st1) =>
      match produce produced st1 with
      | (Ok _, st2) => (Ok st2, st2)
      | (Raise e, st2) => (Raise e, st2)
      end
  | (Raise e, st1) => (Raise e, st1)
  end.
Proof.
  intros Hc Hcons Hprod. unfold update_state.
  apply (proj2 (jit_getitem_Ok _ _ _)) in Hcons.
  apply (proj2 (jit_getitem_Ok _ _ _)) in Hprod.
  destruct (Z.eqb_spec (c / 2) (-1)) as [E|_].
  { pose proof (Z.div_pos c 2 Hc). lia. }
  destruct (negb (c mod 2 =? 0)); unfold Pop.bind, Pop.lift, Pop.get;
    rewrite Hcons; destruct (consume consumed st) as [[[]|e] st1]; try done;
    rewrite Hprod; by destruct (produce produced st1) as [[[]|e] st2].
Qed.



(** C9. When a decrement of the consuming side would take a count below
    zero, [update_state] raises [ValueError] and leaves the population
    array changed: for some slot [bad] of the consuming side, the array
    holds the decrements of every slot up to and including [bad], no
    increment of the other side, and nothing has been restored. *)
Theorem update_state_not_atomic reactants products c st consumed produced :
  0 <= c ->
  Py.getitem (if negb (c mod 2 =? 0) then products else reactants) (c / 2) = Ok consumed ->
  Py.getitem (if negb (c mod 2 =? 0) then reactants else products) (c / 2) = Ok produced ->
  wf_row (length st) consumed ->
  wf_row (length st) produced ->
  nonneg st ->
  (exists k m, st !! k = Some m /\ m < occurrences (Z.of_nat k) consumed) ->
  exists st' pre bad post,
    update_state reactants products (c / 2) (negb (c mod 2 =? 0)) st
      = (Raise ValueError, st') /\
    consumed = pre ++ bad :: post /\ 0 <= bad /\
    (forall k m, st !! k = Some m ->
       st' !! k = Some (m - occurrences (Z.of_nat k) (pre ++ [bad]))) /\
    (exists m, st' !! Z.to_nat bad = Some m /\ m < 0) /\
    st' <> st.
Proof.
  intros Hc Hcons Hprod Hwc Hwp Hnn (k & m & Hk & Hlt).
  rewrite (update_state_run _ _ _ _ _ _ Hc Hcons Hprod).
  pose proof (consume_spec consumed st Hwc) as HC.
  destruct (consume consumed st) as [[[]|e] st1].
  - exfalso. destruct HC as (_ & Hnn1 & Hocc). specialize (Hnn1 Hnn).
    pose proof (Hocc _ _ Hk) as H1. unfold nonneg in Hnn1.
    rewrite Forall_lookup in Hnn1. specialize (Hnn1 _ _ H1). lia.
  - destruct HC as (-> & Hlen & pre & bad & post & m' & -> & Hbad & Hm & Hneg & Hocc).
    exists st1, pre, bad, post. repeat split; eauto.
    intros ->. unfold nonneg in Hnn. rewrite Forall_lookup in Hnn.
    specialize (Hnn _ _ Hm). lia.
Qed.

Ltac solve_Forall :=
  repeat first [ apply Forall_nil | apply Forall_cons; split ];
  cbn [length]; first [ lia | left; lia | right; lia | idtac ].


Lemma update_state_not_atomic_witness :
  exists st' pre bad post,
    update_state [[0; 0]] [[1; -1]] (0 / 2) (negb (0 mod 2 =? 0)) [1; 0]
      = (Raise ValueError, st') /\
    [0; 0] = pre ++ bad :: post /\ 0 <= bad /\
    (forall k m, [1; 0] !! k = Some m ->
       st' !! k = Some (m - occurrences (Z.of_nat k) (pre ++ [bad]))) /\
    (exists m, st' !! Z.to_nat bad = Some m /\ m < 0) /\
    st' <> [1; 0].
Proof.
  apply (update_state_not_atomic [[0; 0]] [[1; -1]] 0 [1; 0] [0; 0] [1; -1]);
    [lia | reflexivity | reflexivity | | | | ];
    try (unfold wf_row, nonneg; solve_Forall).
  exists 0%nat, 1. split; [reflexivity | simpl; lia].
Defined.

(** ** Coordination calculator *)

(** C10. For a consuming side [[s; -1]] with one species, the list
    comprehension of [get_coordination] reads the state at index [-1]
    for the absent slot (the count of the last species), yet the value
    returned is the count of [s] alone: a second state with the same
    count of [s] gives the same result. *)
Theorem get_coordination_single_species (reactants products : list (list Z))
    (st st2 : list Z) rxn_id (reverse : bool) s n :
  Py.getitem (if reverse then products else reactants) rxn_id = Ok [s; -1] ->
  s <> -1 ->
  Py.getitem st s = Ok n ->
  (exists last_count,
     Py.getitem st (-1) = Ok last_count /\
     st !! (length st - 1)%nat = Some last_count /\
     num_mols_list st [s; -1] = Ok [n; last_count]) /\
  get_coordination reactants products st rxn_id reverse = Ok (inject_Z n) /\
  (Py.getitem st2 s = Ok n ->
   get_coordination reactants products st2 rxn_id reverse
   = get_coordination reactants products st rxn_id reverse).
Proof.
  intros Hrow Hs Hn.
  assert (Hlast : forall st0 : list Z, Py.getitem st0 s = Ok n ->
            exists last_count, Py.getitem st0 (-1) = Ok last_count /\
              st0 !! (length st0 - 1)%nat = Some last_count).
  { intros st0 H0. apply getitem_Ok in H0 as (k & Hk & _).
    apply norm_lt in Hk.
    destruct (lookup_lt_is_Some_2 st0 (length st0 - 1)%nat) as [x Hx]; [lia|].
    exists x. split; [|done]. apply getitem_Ok. exists (length st0 - 1)%nat.
    split; [|done]. apply norm_minus_one. lia. }
  assert (Hcoord : forall st0 : list Z, Py.getitem st0 s = Ok n ->
            get_coordination reactants products st0 rxn_id reverse = Ok (inject_Z n)).
  { intros st0 H0. destruct (Hlast st0 H0) as (x & Hx & _).
    unfold get_coordination.
    assert (Hr : (if reverse then Jit.getitem products rxn_id
                  else Jit.getitem reactants rxn_id) = Ok [s; -1])
      by (destruct reverse; by apply jit_getitem_Ok).
    rewrite Hr. cbn [rbind num_mols_list]. rewrite !jit_getitem, H0, Hx. cbn [rbind].
    unfold count_present. rewrite filter_cons_True by done.
    rewrite filter_cons_False by (intros H; by apply H). reflexivity. }
  split; [|split].
  - destruct (Hlast st Hn) as (x & Hx & Hx'). exists x. repeat split; auto.
    cbn [num_mols_list]. by rewrite !jit_getitem, Hn, Hx.
  - by apply Hcoord.
  - intros H2. by rewrite !Hcoord.
Qed.

Lemma get_coordination_single_species_witness :
  (exists last_count,
     Py.getitem [7; 3; 5] (-1) = Ok last_count /\
     [7; 3; 5] !! (length [7; 3; 5] - 1)%nat = Some last_count /\
     num_mols_list [7; 3; 5] [0; -1] = Ok [7; last_count]) /\
  get_coordination [[0; -1]] [[1; -1]] [7; 3; 5] 0 false = Ok (inject_Z 7) /\
  (Py.getitem [7; 4; 9] 0 = Ok 7 ->
   get_coordination [[0; -1]] [[1; -1]] [7; 4; 9] 0 false
   = get_coordination [[0; -1]] [[1; -1]] [7; 3; 5] 0 false).
Proof.
  apply (get_coordination_single_species [[0; -1]] [[1; -1]] [7; 3; 5] [7; 4; 9] 0 false 0 7);
    [reflexivity | lia | reflexivity].
Defined.

(** ** Array operations *)

Section NpFacts.
Local Open Scope Q_scope.
Implicit Types (a p : list Q) (x y acc : Q) (i c : Z) (j k n : nat).

Lemma Qlt_bool_true x y : Np.Qlt_bool x y = true <-> x < y.
  Proof.
    unfold Np.Qlt_bool. rewrite negb_true_iff, <- not_true_iff_false, Qle_bool_iff.
    split; [apply Qnot_le_lt | apply Qlt_not_le].
  Qed.

Lemma Qlt_bool_false x y : Np.Qlt_bool x y = false <-> y <= x.
  Proof.
    unfold Np.Qlt_bool. rewrite negb_false_iff, Qle_bool_iff. reflexivity.
  Qed.

Lemma foldl_Qplus acc a : foldl Qplus acc a == acc + Np.sum a.
  Proof.
    unfold Np.sum. revert acc.
    induction a as [|x a IH]; intros acc; cbn [foldl].
    - ring.
    - rewrite (IH (acc + x)), (IH (0 + x)). ring.
  Qed.

Lemma sum_cons x a : Np.sum (x :: a) == x + Np.sum a.
  Proof. unfold Np.sum at 1. cbn [foldl]. rewrite foldl_Qplus. ring. Qed.

Lemma sum_app a1 a2 : Np.sum (a1 ++ a2) == Np.sum a1 + Np.sum a2.
  Proof.
    induction a1 as [|x a1 IH]; cbn [app].
    - unfold Np.sum at 2. cbn [foldl]. ring.
    - rewrite !sum_cons, IH. ring.
  Qed.

Lemma sum_nonneg a : Forall (fun x => 0 <= x) a -> 0 <= Np.sum a.
  Proof.
    induction 1 as [|x a Hx _ IH].
    - unfold Np.sum. cbn. lra.
    - rewrite sum_cons. lra.
  Qed.

  (** Leaving out the entries that are not strictly positive does not
      change the sum of non-negative numbers. *)
Lemma sum_filter_positive a :
    Forall (fun x => 0 <= x) a ->
    Np.sum (List.filter (Np.Qlt_bool 0) a) == Np.sum a.
  Proof.
    induction 1 as [|x a Hx _ IH]; [reflexivity|].
    cbn [List.filter]. destruct (Np.Qlt_bool 0 x) eqn:E.
    - rewrite !sum_cons, IH. reflexivity.
    - apply Qlt_bool_false in E. rewrite sum_cons, IH. lra.
  Qed.

Lemma filter_take_S p k x :
    p !! k = Some x -> Np.Qlt_bool 0 x = true ->
    List.filter (Np.Qlt_bool 0) (take (S k) p)
    = List.filter (Np.Qlt_bool 0) (take k p) ++ [x].
  Proof.
    intros Hk Hx. rewrite (take_S_r _ _ _ Hk), List.filter_app.
    cbn [List.filter]. by rewrite Hx.
  Qed.

Lemma take_rank_filter p k :
    take (rank p k) (List.filter (Np.Qlt_bool 0) p)
    = List.filter (Np.Qlt_bool 0) (take k p).
  Proof.
    unfold rank. rewrite <- (take_drop k p) at 2.
    rewrite List.filter_app. by rewrite take_app_length.
  Qed.

Lemma rank_mono p j k : (j <= k)%nat -> (rank p j <= rank p k)%nat.
  Proof.
    intros Hjk. unfold rank.
    replace k with (j + (k - j))%nat by lia.
    rewrite <- take_take_drop, List.filter_app, length_app. lia.
  Qed.

Lemma rank_S p k x :
    p !! k = Some x -> Np.Qlt_bool 0 x = true -> rank p (S k) = S (rank p k).
  Proof.
    intros Hk Hx. unfold rank. rewrite (filter_take_S _ _ _ Hk Hx), length_app.
    cbn [length]. lia.
  Qed.

  (** [np.where(p > 0)[0]] lists, in ascending order, the positions of
      the strictly positive entries. *)
Lemma where_pos_from_lookup p : forall i n c,
    Np.where_pos_from i p !! n = Some c <->
    exists k x, c = (i + Z.of_nat k)%Z /\ p !! k = Some x /\
                Np.Qlt_bool 0 x = true /\ n = rank p k.
  Proof.
    induction p as [|x p IH]; intros i n c; cbn [Np.where_pos_from].
    - split; [done|]. by intros (k & y & _ & Hk & _).
    - destruct (Np.Qlt_bool 0 x) eqn:E.
      + destruct n as [|n].
        * split.
          -- intros [= <-]. exists 0%nat, x.
             split; [lia|]. split; [done|]. split; [done|]. reflexivity.
          -- intros (k & y & -> & Hk & Hy & Hr). destruct k as [|k]; [simpl; f_equal; lia|].
             exfalso. unfold rank in Hr. cbn [take List.filter] in Hr.
             rewrite E in Hr. done.
        * change ((i :: Np.where_pos_from (i + 1) p) !! S n)
            with (Np.where_pos_from (i + 1) p !! n).
          rewrite IH. split.
          -- intros (k & y & -> & Hk & Hy & ->). exists (S k), y.
             repeat split; auto; [lia|]. unfold rank. cbn [take List.filter].
             by rewrite E.
          -- intros (k & y & -> & Hk & Hy & Hr). destruct k as [|k]; [done|].
             exists k, y. repeat split; auto; [lia|].
             unfold rank in *. cbn [take List.filter] in Hr. rewrite E in Hr.
             cbn [length] in Hr. lia.
      + rewrite IH. split.
        * intros (k & y & -> & Hk & Hy & ->). exists (S k), y.
          repeat split; auto; [lia|]. unfold rank. cbn [take List.filter].
          by rewrite E.
        * intros (k & y & -> & Hk & Hy & Hr). destruct k as [|k].
          { cbn in Hk. congruence. }
          exists k, y. repeat split; auto; [lia|].
          unfold rank in *. cbn [take List.filter] in Hr. by rewrite E in Hr.
  Qed.

Lemma where_pos_nonneg p n c : Np.where_pos p !! n = Some c -> (0 <= c)%Z.
  Proof.
    unfold Np.where_pos. rewrite where_pos_from_lookup.
    intros (k & x & -> & _). lia.
  Qed.

  (** Indexing [p] with the positions of its positive entries gives those
      entries. *)
Lemma take_where_pos_from pre : forall suf,
    Np.take (pre ++ suf) (Np.where_pos_from (Z.of_nat (length pre)) suf)
    = Ok (List.filter (Np.Qlt_bool 0) suf).
  Proof.
    intros suf. revert pre.
    induction suf as [|x suf IH]; intros pre; cbn [Np.where_pos_from List.filter].
    - reflexivity.
    - assert (Hnext : Np.take (pre ++ x :: suf)
                 (Np.where_pos_from (Z.of_nat (length pre) + 1) suf)
               = Ok (List.filter (Np.Qlt_bool 0) suf)).
      { specialize (IH (pre ++ [x])). rewrite <- app_assoc in IH. cbn [app] in IH.
        rewrite length_app in IH. cbn [length] in IH.
        by replace (Z.of_nat (length pre + 1)) with (Z.of_nat (length pre) + 1)%Z
          in IH by lia. }
      destruct (Np.Qlt_bool 0 x); [|done].
      cbn [Np.take]. rewrite Hnext.
      assert (Hx : Py.getitem (pre ++ x :: suf) (Z.of_nat (length pre)) = Ok x).
      { apply getitem_nonneg; [lia|]. rewrite Nat2Z.id.
        by rewrite list_lookup_middle. }
      by rewrite jit_getitem, Hx.
  Qed.

Lemma take_where_pos p :
    Np.take p (Np.where_pos p) = Ok (List.filter (Np.Qlt_bool 0) p).
  Proof. apply (take_where_pos_from [] p). Qed.

  (** The entries of [np.cumsum] are the partial sums, as computed. *)
Lemma cumsum_from_lookup a : forall acc n y,
    Np.cumsum_from acc a !! n = Some y ->
    y = foldl Qplus acc (take (S n) a).
  Proof.
    induction a as [|x a IH]; intros acc n y; cbn [Np.cumsum_from]; [done|].
    destruct n as [|n].
    - intros [= <-]. reflexivity.
    - intros H. apply IH in H. exact H.
  Qed.

Lemma cumsum_from_length acc a : length (Np.cumsum_from acc a) = length a.
  Proof. revert acc. induction a as [|x a IH]; intros acc; cbn; auto. Qed.

  (** The first position returned by [np.where(a >= bound)[0]]. *)
Lemma where_ge_from_head a bound : forall i c,
    Py.getitem (Np.where_ge_from i a bound) 0 = Ok c ->
    exists n y, c = (i + Z.of_nat n)%Z /\ a !! n = Some y /\ bound <= y /\
      forall m z, (m < n)%nat -> a !! m = Some z -> z < bound.
  Proof.
    induction a as [|x a IH]; intros i c; cbn [Np.where_ge_from]; [done|].
    destruct (Qle_bool bound x) eqn:E.
    - intros [= <-]. exists 0%nat, x. repeat split; auto; [lia| |lia].
      by apply Qle_bool_iff.
    - intros H. destruct (IH _ _ H) as (n & y & -> & Hn & Hy & Hmin).
      exists (S n), y. repeat split; auto; [lia|].
      intros [|m] z Hm.
      + intros [= <-]. apply Qnot_le_lt. rewrite <- Qle_bool_iff. congruence.
      + apply Hmin. lia.
  Qed.

Lemma where_ge_from_exists a bound : forall i n y,
    a !! n = Some y -> bound <= y ->
    exists c, Py.getitem (Np.where_ge_from i a bound) 0 = Ok c.
  Proof.
    induction a as [|x a IH]; intros i n y; [done|].
    cbn [Np.where_ge_from]. destruct (Qle_bool bound x) eqn:E; [by eauto|].
    destruct n as [|n].
    - intros [= ->] Hy. apply Qle_bool_iff in Hy. congruence.
    - intros Hn Hy. eapply IH; eauto.
  Qed.



(** ** One iteration of the driver *)

Section StepFacts.
Local Open Scope Q_scope.
Variable np_log : Q -> Q.

Lemma multiply_nonneg a b p :
    Forall (fun x => 0 <= x) a -> Forall (fun x => 0 <= x) b ->
    Np.multiply a b = Ok p -> Forall (fun x => 0 <= x) p.
  Proof.
    intros Ha Hb. unfold Np.multiply.
    assert (Hmul : forall x y, 0 <= x -> 0 <= y -> 0 <= x * y)
      by (intros; by apply Qmult_le_0_compat).
    destruct (Nat.eqb (length a) (length b)).
    - intros [= <-]. clear -Ha Hb Hmul. revert b Hb.
      induction Ha as [|x a Hx _ IH]; intros b Hb; [constructor|].
      destruct Hb as [|y b Hy Hb]; cbn; constructor; auto.
    - destruct a as [|x [|x' a]].
      + destruct b as [|y [|y' b]]; [done| |done].
        intros [= <-]. cbn. constructor.
      + intros [= <-]. apply Forall_cons in Ha as [Hx _].
        apply List.Forall_map. eapply Forall_impl; [exact Hb|]. cbn. auto.
      + destruct b as [|y [|y' b]]; [done| |done].
        intros [= <-]. apply Forall_cons in Hb as [Hy _].
        apply (proj2 (List.Forall_map (fun x => x * y) (fun x => 0 <= x) (x :: x' :: a))).
        eapply Forall_impl; [exact Ha|]. cbn. auto.
  Qed.

  (** What a completed iteration has computed. *)
Lemma simulate_step_inv net i r1 r2 s s' :
    simulate_step np_log net i r1 r2 s = Ok s' ->
    exists tau c propensities,
      select np_log (propensity_array s) (relevant_ind s) (total_propensity s) r1 r2
        = Ok (tau, c) /\
      (update_state (net_reactants net) (net_products net) (c / 2)
         (negb (c mod 2 =? 0)%Z) (state s)).1 = Ok (state s') /\
      Np.multiply (net_rate_constants net) (coord s') = Ok propensities /\
      propensity_array s' = propensities /\
      relevant_ind s' = Np.where_pos propensities /\
      total_propensity s' = Np.sum (List.filter (Np.Qlt_bool 0) propensities) /\
      Py.setitem (reaction_history s) i c = Ok (reaction_history s') /\
      Py.setitem (times s) i tau = Ok (times s').
  Proof.
    unfold simulate_step. intros H.
    destruct (select np_log _ _ _ r1 r2) as [[tau c]|] eqn:Esel;
      cbn [rbind] in H; [|discriminate].
    inv_bind H.
    match goal with
    | E : Np.take _ (Np.where_pos _) = Ok _ |- _ =>
        rewrite take_where_pos in E; injection E as <-
    end.
    injection H as <-. cbn [state coord propensity_array relevant_ind
                            total_propensity reaction_history times].
    eexists tau, c, _. repeat split; eauto.
  Qed.

Lemma reachable_relevant net s :
    reachable np_log net s -> relevant_ind s = Np.where_pos (propensity_array s).
  Proof.
    destruct 1 as [|s s' i r1 r2 _ Hstep]; [reflexivity|].
    apply simulate_step_inv in Hstep as (tau & c & p & _ & _ & _ & -> & -> & _).
    reflexivity.
  Qed.



Lemma cumsum_prefix_sum p k x n y :
  p !! k = Some x -> Np.Qlt_bool 0 x = true -> n = rank p k ->
  Np.cumsum (List.filter (Np.Qlt_bool 0) p) !! n = Some y ->
  y = cum_pos p k.
Proof.
  intros Hk Hx -> Hy. apply cumsum_from_lookup in Hy.
  rewrite <- (rank_S _ _ _ Hk Hx), take_rank_filter in Hy. exact Hy.
Qed.

(** The scan of [select] on the cached positions of the positive
    propensities returns the first channel that reaches the target. *)
Lemma select_inv p A0 r1 r2 tau c :
  select np_log p (Np.where_pos p) A0 r1 r2 = Ok (tau, c) ->
  tau = - np_log r1 / A0 /\ ~ A0 == 0 /\ first_reaching p (r2 * A0) c.
Proof.
  unfold select, Np.divide. destruct (Qeq_bool A0 0) eqn:EA; [discriminate|].
  cbn [rbind]. rewrite take_where_pos. cbn [rbind]. intros H. inv_bind H.
  injection H as <- <-. split; [reflexivity|]. split.
  { intros HA. apply Qeq_bool_iff in HA. congruence. }
  match goal with
  | E : Py.getitem (Np.where_ge _ _) 0 = Ok _ |- _ =>
      apply where_ge_from_head in E as (n & y & -> & Hn & Hy & Hmin)
  end.
  match goal with
  | E : Py.getitem (Np.where_pos p) _ = Ok _ |- _ =>
      apply getitem_nonneg in E; [|lia]; rewrite Z.add_0_l, Nat2Z.id in E;
      apply where_pos_from_lookup in E as (k & x & Hc & Hk & Hx & Hr)
  end.
  exists k, x. split; [lia|]. split; [done|]. split; [by apply Qlt_bool_true|].
  split.
  - by rewrite <- (cumsum_prefix_sum p k x n y).
  - intros j z Hjk Hj Hz. apply Qlt_bool_true in Hz.
    assert (Hlt : (rank p j < n)%nat).
    { pose proof (rank_S _ _ _ Hj Hz). pose proof (rank_mono p (S j) k). lia. }
    destruct (lookup_lt_is_Some_2 (Np.cumsum (List.filter (Np.Qlt_bool 0) p)) (rank p j))
      as [w Hw].
    { apply lookup_lt_Some in Hn. lia. }
    rewrite <- (cumsum_prefix_sum p j z (rank p j) w); auto.
    by apply (Hmin (rank p j) w).
Qed.

Lemma where_pos_from_length p : forall i,
  length (Np.where_pos_from i p) = length (List.filter (Np.Qlt_bool 0) p).
Proof.
  induction p as [|x p IH]; intros i; cbn [Np.where_pos_from List.filter]; [done|].
  destruct (Np.Qlt_bool 0 x); cbn [length]; by rewrite IH.
Qed.

(** The scan finds a channel whenever the cached total is the positive
    sum of the positive propensities and the draw is at most one. *)
Lemma select_total p A0 r1 r2 :
  A0 == Np.sum (List.filter (Np.Qlt_bool 0) p) -> 0 < A0 -> r2 <= 1 ->
  exists c, select np_log p (Np.where_pos p) A0 r1 r2 = Ok (- np_log r1 / A0, c).
Proof.
  intros HA Hpos Hr. unfold select, Np.divide.
  destruct (Qeq_bool A0 0) eqn:EA.
  { apply Qeq_bool_iff in EA. lra. }
  cbn [rbind]. rewrite take_where_pos. cbn [rbind].
  set (chosen := List.filter (Np.Qlt_bool 0) p) in *.
  assert (Hne : chosen <> []).
  { intros E. rewrite E in HA. unfold Np.sum in HA. cbn in HA. lra. }
  assert (Hlen : (0 < length chosen)%nat) by (destruct chosen; [done | cbn; lia]).
  destruct (lookup_lt_is_Some_2 (Np.cumsum chosen) (length chosen - 1)%nat) as [y Hy].
  { unfold Np.cumsum. rewrite cumsum_from_length. lia. }
  assert (Hy' : y == A0).
  { apply cumsum_from_lookup in Hy.
    rewrite take_ge in Hy by lia. fold (Np.sum chosen) in Hy. by rewrite Hy, HA. }
  destruct (where_ge_from_exists (Np.cumsum chosen) (r2 * A0) 0%Z _ y Hy) as [a Ha].
  { rewrite Hy'. nra. }
  fold (Np.where_ge (Np.cumsum chosen) (r2 * A0)) in Ha.
  rewrite jit_getitem, Ha. cbn [rbind].
  apply where_ge_from_head in Ha as (n & z & -> & Hn & _).
  destruct (lookup_lt_is_Some_2 (Np.where_pos p) n) as [c Hc].
  { apply lookup_lt_Some in Hn. unfold Np.cumsum in Hn.
    rewrite cumsum_from_length in Hn.
    pose proof (where_pos_from_length p 0) as Hl.
    fold (Np.where_pos p) in Hl. fold chosen in Hl. lia. }
  exists c.
  assert (Hget : Py.getitem (Np.where_pos p) (0 + Z.of_nat n) = Ok c).
  { apply getitem_nonneg; [lia|]. by rewrite Z.add_0_l, Nat2Z.id. }
  by rewrite jit_getitem, Hget.
Qed.

(** C3. In an iteration of [simulate] that completes, the waiting time
    written in the history is [-ln(r1) / A0] for the cached total [A0],
    and the channel written in the history is the first channel of
    strictly positive propensity, in ascending order of channel index,
    at which the running sum of the positive propensities reaches
    [r2 * A0]. *)
Theorem simulate_step_selection net s s' (step_counter : nat) r1 r2 :
  reachable np_log net s ->
  simulate_step np_log net (Z.of_nat step_counter) r1 r2 s = Ok s' ->
  exists tau c,
    times s' !! step_counter = Some tau /\
    reaction_history s' !! step_counter = Some c /\
    tau = - np_log r1 / total_propensity s /\
    first_reaching (propensity_array s) (r2 * total_propensity s) c.
Proof.
  intros Hreach Hstep.
  apply reachable_relevant in Hreach.
  apply simulate_step_inv in Hstep
    as (tau & c & props & Hsel & _ & _ & _ & _ & _ & Hhist & Htimes).
  rewrite Hreach in Hsel. apply select_inv in Hsel as (-> & _ & Hfirst).
  assert (Hset : forall (A : Type) (l l' : list A) (x : A),
            Py.setitem l (Z.of_nat step_counter) x = Ok l' ->
            l' !! step_counter = Some x).
  { intros A l l' x H. apply setitem_Ok in H as (k & Hk & ->).
    pose proof (norm_lt _ _ _ Hk).
    apply norm_nonneg_inv in Hk as [-> _]; [|lia]. rewrite Nat2Z.id in *.
    by apply list_lookup_insert_eq. }
  eexists _, c. repeat split; eauto.
Qed.

(** C8. After the refresh of an iteration that completes, with
    non-negative rate constants and coordination numbers, the cached
    total (the sum of the strictly positive propensities) equals the sum
    of the whole propensity vector; in exact arithmetic the two agree
    within every relative tolerance [eps]. *)
Theorem cached_total_is_full_resum net step_counter r1 r2 s s' :
  simulate_step np_log net step_counter r1 r2 s = Ok s' ->
  Forall (fun x => 0 <= x) (net_rate_constants net) ->
  Forall (fun x => 0 <= x) (coord s') ->
  total_propensity s' == Np.sum (propensity_array s') /\
  forall eps, 0 <= eps ->
    Qabs (total_propensity s' - Np.sum (propensity_array s'))
    <= eps * Qabs (Np.sum (propensity_array s')).
Proof.
  intros Hstep Hrates Hcoord.
  apply simulate_step_inv in Hstep
    as (tau & c & props & _ & _ & Hmul & -> & _ & -> & _).
  pose proof (multiply_nonneg _ _ _ Hrates Hcoord Hmul) as Hnn.
  pose proof (sum_filter_positive _ Hnn) as Heq.
  split; [exact Heq|]. intros eps Heps. rewrite Heq.
  assert (H0 : Np.sum props - Np.sum props == 0) by ring.
  rewrite H0. change (Qabs 0) with 0.
  pose proof (Qabs_nonneg (Np.sum props)). nra.
Qed.

(** C7, as the code has it. A zero total makes the iteration raise on
    the division; so does every total that is zero or negative and is
    the sum of the strictly positive propensities, as the total cached
    by a refresh is. A negative total raises nothing: when no propensity
    is strictly positive the scan finds no position and the iteration
    reads the first cell of an empty array, which compiled code does not
    check; otherwise the scan returns the first channel of strictly
    positive propensity. *)
Theorem select_degenerate net step_counter r1 r2 s :
  (total_propensity s == 0 ->
   simulate_step np_log net step_counter r1 r2 s = Raise ZeroDivisionError) /\
  (total_propensity s == Np.sum (List.filter (Np.Qlt_bool 0) (propensity_array s)) ->
   total_propensity s <= 0 ->
   simulate_step np_log net step_counter r1 r2 s = Raise ZeroDivisionError) /\
  (total_propensity s < 0 -> relevant_ind s = [] ->
   simulate_step np_log net step_counter r1 r2 s = Raise OutOfBounds) /\
  (total_propensity s < 0 -> 0 <= r2 ->
   relevant_ind s = Np.where_pos (propensity_array s) ->
   forall c rest, relevant_ind s = c :: rest ->
     select np_log (propensity_array s) (relevant_ind s) (total_propensity s) r1 r2
     = Ok (- np_log r1 / total_propensity s, c)).
Proof.
  assert (Hzero : total_propensity s == 0 ->
            simulate_step np_log net step_counter r1 r2 s = Raise ZeroDivisionError).
  { intros HA. unfold simulate_step, select, Np.divide.
    apply Qeq_bool_iff in HA. by rewrite HA. }
  split; [exact Hzero|]. split; [|split].
  - intros Hsum Hle. apply Hzero.
    assert (Hnn : 0 <= Np.sum (List.filter (Np.Qlt_bool 0) (propensity_array s))).
    { apply sum_nonneg. apply List.Forall_forall. intros x Hx.
      apply List.filter_In in Hx as [_ Hx]. apply Qlt_bool_true in Hx. lra. }
    lra.
  - intros HA Hrel. unfold simulate_step, select, Np.divide.
    destruct (Qeq_bool (total_propensity s) 0) eqn:E.
    { apply Qeq_bool_iff in E. lra. }
    rewrite Hrel. reflexivity.
  - intros HA Hr2 Hrel c rest Hcons. unfold select, Np.divide.
    destruct (Qeq_bool (total_propensity s) 0) eqn:E.
    { apply Qeq_bool_iff in E. lra. }
    cbn [rbind]. rewrite Hrel, take_where_pos. cbn [rbind].
    rewrite Hrel in Hcons.
    assert (H0 : Np.where_pos (propensity_array s) !! 0%nat = Some c)
      by (by rewrite Hcons).
    apply where_pos_from_lookup in H0 as (k & x & _ & Hk & Hx & Hr).
    pose proof (take_rank_filter (propensity_array s) (S k)) as Ht.
    rewrite (rank_S _ _ _ Hk Hx), <- Hr, (filter_take_S _ _ _ Hk Hx) in Ht.
    assert (Hnil : List.filter (Np.Qlt_bool 0) (take k (propensity_array s)) = []).
    { apply length_zero_iff_nil. unfold rank in Hr. lia. }
    rewrite Hnil in Ht. cbn [app] in Ht.
    destruct (List.filter (Np.Qlt_bool 0) (propensity_array s)) as [|y ys];
      [discriminate|].
    cbn [take] in Ht. injection Ht as ->.
    unfold Np.cumsum, Np.where_ge. cbn [Np.cumsum_from Np.where_ge_from].
    assert (Hle : Qle_bool (r2 * total_propensity s) (0 + x) = true).
    { apply Qle_bool_iff. apply Qlt_bool_true in Hx. nra. }
    rewrite Hle. rewrite Hcons. reflexivity.
Qed.

End StepFacts.

End NpFacts.

Lemma simulate_step_selection_witness :
  exists tau c,
    times pair_after !! 0%nat = Some tau /\
    reaction_history pair_after !! 0%nat = Some c /\
    tau = (- (fun _ : Q => 0%Q) (1 # 2) / total_propensity pair_start)%Q /\
    first_reaching (propensity_array pair_start)
      ((1 # 2) * total_propensity pair_start)%Q c.
Proof.
  apply (simulate_step_selection (fun _ => 0%Q) pair_network pair_start pair_after
           0%nat (1 # 2) (1 # 2)).
  - apply reachable_init.
  - vm_compute. reflexivity.
Defined.

Lemma cached_total_is_full_resum_witness :
  (total_propensity pair_after == Np.sum (propensity_array pair_after))%Q /\
  forall eps : Q, (0 <= eps)%Q ->
    (Qabs (total_propensity pair_after - Np.sum (propensity_array pair_after))
     <= eps * Qabs (Np.sum (propensity_array pair_after)))%Q.
Proof.
  apply (cached_total_is_full_resum (fun _ => 0%Q) pair_network 0 (1 # 2) (1 # 2)
           pair_start pair_after).
  - vm_compute. reflexivity.
  - cbn. repeat constructor; discriminate.
  - vm_compute. repeat constructor; discriminate.
Defined.

(** C7, as stated, fails: with propensities [1] and [-5] the total is
    negative, and the iteration completes, firing channel 0. *)
Lemma negative_total_fires :
  (total_propensity skewed_start <= 0)%Q /\
  exists s',
    simulate_step (fun _ => 0%Q) skewed_network 0 (1 # 2) (1 # 2) skewed_start = Ok s' /\
    reaction_history s' = [0] /\ state s' = [0; 2].
Proof.
  split; [discriminate|]. eexists. split; [vm_compute; reflexivity|].
  split; reflexivity.
Qed.

Lemma select_degenerate_witness :
  simulate_step (fun _ => 0%Q) pair_network 0 (1 # 2) (1 # 2) empty_start
    = Raise ZeroDivisionError /\
  simulate_step (fun _ => 0%Q) pair_network 1 (1 # 3) (1 # 3) empty_start
    = Raise ZeroDivisionError /\
  simulate_step (fun _ => 0%Q) skewed_network 0 (1 # 2) (1 # 2) sunk_start
    = Raise OutOfBounds /\
  select (fun _ => 0%Q) (propensity_array skewed_start) (relevant_ind skewed_start)
    (total_propensity skewed_start) (1 # 2) (1 # 2)
    = Ok ((- (fun _ : Q => 0%Q) (1 # 2) / total_propensity skewed_start)%Q, 0).
Proof.
  split; [|split; [|split]].
  - apply (proj1 (select_degenerate (fun _ => 0%Q) pair_network 0 (1 # 2) (1 # 2)
                    empty_start)).
    reflexivity.
  - apply (proj1 (proj2 (select_degenerate (fun _ => 0%Q) pair_network 1 (1 # 3)
                           (1 # 3) empty_start))); [reflexivity | discriminate].
  - apply (proj1 (proj2 (proj2 (select_degenerate (fun _ => 0%Q) skewed_network 0
                                  (1 # 2) (1 # 2) sunk_start)))); reflexivity.
  - apply (proj2 (proj2 (proj2 (select_degenerate (fun _ => 0%Q) skewed_network 0
                                  (1 # 2) (1 # 2) skewed_start))) eq_refl)
      with (rest := []); [discriminate | reflexivity | reflexivity].
Defined.

(** ** The reversible pair [A <-> B] *)

(** C2. For two species with [A = 100] and [B = 0] and one reversible
    reaction with both rate constants 1, compilation succeeds, the
    initial total propensity is 100, and for all draws [r1], [r2] in
    [[0, 1)] the first iteration fires channel 0 and leaves [A = 99],
    [B = 1]. *)
Theorem reversible_pair_first_step (np_log : Q -> Q) (r1 r2 : Q) :
  (0 <= r1 < 1)%Q -> (0 <= r2 < 1)%Q ->
  exists out propensities s',
    initialize_simulation 2 {[ 0 := 100; 1 := 0 ]} [Reaction.mk [0] [1] 1 1] = Ok out /\
    c_initial_state out = [100; 0] /\
    Np.multiply (c_coord_array out) (c_rate_constants out) = Ok propensities /\
    (Np.sum propensities == 100)%Q /\
    simulate_step np_log
      (mk_network (c_rate_constants out) (c_species_rxn_mapping out)
         (c_reactants out) (c_products out))
      0 r1 r2
      (simulate_init 1 (c_coord_array out) propensities (Np.sum propensities)
         (c_initial_state out))
    = Ok s' /\
    reaction_history s' = [0] /\
    state s' = [99; 1].
Proof.
  intros Hr1 Hr2. eexists _, _, _.
  split; [vm_compute; reflexivity|]. cbn [c_initial_state c_coord_array
    c_rate_constants c_species_rxn_mapping c_reactants c_products].
  split; [reflexivity|].
  split; [vm_compute; reflexivity|].
  split; [reflexivity|].
  assert (Hsel : forall A0 : Q, (A0 == 100)%Q ->
            select np_log [100 # 1; 0 # 1]%Q [0] A0 r1 r2 = Ok ((- np_log r1 / A0)%Q, 0)).
  { intros A0 HA. unfold select, Np.divide.
    destruct (Qeq_bool A0 0) eqn:E.
    { apply Qeq_bool_iff in E. lra. }
    cbn [rbind]. change (Np.take [100; 0]%Q [0]) with (Ok [100%Q]). cbn [rbind].
    unfold Np.where_ge, Np.cumsum. cbn [Np.cumsum_from Np.where_ge_from].
    assert (Hle : Qle_bool (r2 * A0) (0 + (100 # 1)) = true).
    { apply Qle_bool_iff. nra. }
    rewrite Hle. reflexivity. }
  unfold simulate_step.
  cbn [propensity_array relevant_ind total_propensity simulate_init state coord
       reaction_history times net_reactants net_products net_rate_constants
       net_species_rxn_mapping].
  change (Np.where_pos [100 # 1; 0 # 1]%Q) with [0].
  rewrite Hsel by reflexivity. cbn [rbind].
  split; [vm_compute; reflexivity|]. split; reflexivity.
Qed.

Lemma reversible_pair_first_step_witness :
  exists out propensities s',
    initialize_simulation 2 {[ 0 := 100; 1 := 0 ]} [Reaction.mk [0] [1] 1 1] = Ok out /\
    c_initial_state out = [100; 0] /\
    Np.multiply (c_coord_array out) (c_rate_constants out) = Ok propensities /\
    (Np.sum propensities == 100)%Q /\
    simulate_step (fun _ => 0%Q)
      (mk_network (c_rate_constants out) (c_species_rxn_mapping out)
         (c_reactants out) (c_products out))
      0 (1 # 2) (1 # 2)
      (simulate_init 1 (c_coord_array out) propensities (Np.sum propensities)
         (c_initial_state out))
    = Ok s' /\
    reaction_history s' = [0] /\
    state s' = [99; 1].
Proof.
  apply (reversible_pair_first_step (fun _ => 0%Q) (1 # 2) (1 # 2));
    split; reflexivity || discriminate.
Defined.

(** ** Network compiler: the dependency table *)

Lemma setitem_nonneg {A} (l l' : list A) i x :
  0 <= i -> Py.setitem l i x = Ok l' ->
  l' = <[Z.to_nat i := x]> l /\ (Z.to_nat i < length l)%nat.
Proof.
  intros Hi H. apply setitem_Ok in H as (k & Hk & ->).
  pose proof (norm_lt _ _ _ Hk). apply norm_nonneg_inv in Hk as [-> _]; auto.
Qed.

(** The loop over one side only appends its channel to reaction lists,
    and does so for every species of the side. *)
Lemma record_side_mapping d channel id : forall side idx arr m counts arr' m' counts',
  record_side d channel id idx side arr m counts = Ok (arr', m', counts') ->
  length m' = length m /\
  forall (k : nat) l, m !! k = Some l ->
    exists ext, m' !! k = Some (l ++ ext) /\
      Forall (fun c => c = channel) ext /\
      (Z.of_nat k ∈ side -> channel ∈ ext).
Proof.
  induction side as [|entry side IH]; intros idx arr m counts arr' m' counts' H.
  - cbn in H. injection H as <- <- <-. split; [done|]. intros k l Hk.
    exists []. rewrite app_nil_r. repeat split; auto. intros Hin. inversion Hin.
  - cbn [record_side] in H. inv_bind H.
    match goal with
    | E : Py.getitem m entry = Ok ?l0, E' : Py.setitem m entry _ = Ok ?m1 |- _ =>
        apply getitem_Ok in E as (k0 & Hk0 & Hl0);
        apply setitem_Ok in E' as (k0' & Hk0' & ->)
    end.
    assert (k0' = k0) as -> by congruence. clear Hk0'.
    apply IH in H as (Hlen & Hext). rewrite length_insert in Hlen.
    split; [done|]. intros k l Hk.
    destruct (decide (k = k0)) as [->|Hne].
    + assert (a0 = l) as -> by congruence.
      destruct (Hext k0 (l ++ [channel])) as (ext & Hm' & Hall & Hin).
      { apply list_lookup_insert_eq. by eapply lookup_lt_Some. }
      exists ([channel] ++ ext). rewrite app_assoc. split; [done|]. split.
      * apply Forall_app. split; [by constructor | done].
      * intros _. apply elem_of_app. left. by apply list_elem_of_singleton.
    + destruct (Hext k l) as (ext & Hm' & Hall & Hin).
      { by rewrite list_lookup_insert_ne. }
      exists ext. split; [done|]. split; [done|].
      intros Hk'. apply elem_of_cons in Hk' as [Heq|Hk']; [|by auto].
      exfalso. apply Hne. subst entry.
      apply norm_nonneg_inv in Hk0 as [-> _]; lia.
Qed.

(** What an iteration that completed has computed. *)
Lemma compile_reaction_inv d id reaction t t' :
  compile_reaction d id reaction t = Ok t' ->
  exists rc1 ra m1 nrf pa m2 nrr hf ca1 hr,
    Py.setitem (rate_constants t) (2 * id) (Reaction.k_A reaction) = Ok rc1 /\
    Py.setitem rc1 (2 * id + 1) (Reaction.k_B reaction) = Ok (rate_constants t') /\
    record_side d (2 * id) id 0 (Reaction.reactants reaction)
      (reactant_array t) (species_rxn_mapping_list t) [] = Ok (ra, m1, nrf) /\
    record_side d (2 * id + 1) id 0 (Reaction.products reaction)
      (product_array t) m1 [] = Ok (pa, m2, nrr) /\
    initial_coordination (Reaction.reactants reaction) nrf = Ok hf /\
    Py.setitem (coord_array t) (2 * id) hf = Ok ca1 /\
    initial_coordination (Reaction.products reaction) nrr = Ok hr /\
    Py.setitem ca1 (2 * id + 1) hr = Ok (coord_array t') /\
    species_rxn_mapping_list t' = m2 /\
    reactant_array t' = ra /\ product_array t' = pa.
Proof.
  unfold compile_reaction. intros H.
  destruct (Py.setitem (rate_constants t) _ _) as [rc1|] eqn:E1; [|done].
  cbn [rbind] in H.
  destruct (Py.setitem rc1 _ _) as [rc2|] eqn:E2; [|done]. cbn [rbind] in H.
  destruct (record_side d (2 * id) _ _ _ _ _ _) as [[[ra m1] nrf]|] eqn:E3; [|done].
  cbn [rbind] in H.
  destruct (record_side d (2 * id + 1) _ _ _ _ _ _) as [[[pa m2] nrr]|] eqn:E4; [|done].
  cbn [rbind] in H.
  destruct (initial_coordination _ nrf) as [hf|] eqn:E5; [|done]. cbn [rbind] in H.
  destruct (Py.setitem (coord_array t) _ _) as [ca1|] eqn:E6; [|done].
  cbn [rbind] in H.
  destruct (initial_coordination _ nrr) as [hr|] eqn:E7; [|done]. cbn [rbind] in H.
  destruct (Py.setitem ca1 _ _) as [ca2|] eqn:E8; [|done]. cbn [rbind] in H.
  injection H as <-. cbn.
  exists rc1, ra, m1, nrf, pa, m2, nrr, hf, ca1, hr. repeat split; auto.
Qed.

(** Reaction lists only grow during compilation; for species [k] they
    receive the forward channel of every reaction that has [k] among its
    reactants and the reverse channel of every reaction that has [k]
    among its products; every channel index is non-negative. *)
Lemma compile_reactions_mapping d : forall reactions id0 t t',
  0 <= id0 ->
  compile_reactions d id0 reactions t = Ok t' ->
  length (species_rxn_mapping_list t') = length (species_rxn_mapping_list t) /\
  forall (k : nat) l, species_rxn_mapping_list t !! k = Some l ->
    exists ext, species_rxn_mapping_list t' !! k = Some (l ++ ext) /\
      Forall (fun c => 0 <= c) ext /\
      forall (j : nat) rxn, reactions !! j = Some rxn ->
        (Z.of_nat k ∈ Reaction.reactants rxn -> 2 * (id0 + Z.of_nat j) ∈ ext) /\
        (Z.of_nat k ∈ Reaction.products rxn -> 2 * (id0 + Z.of_nat j) + 1 ∈ ext).
Proof.
  induction reactions as [|reaction reactions IH]; intros id0 t t' Hid H.
  - cbn in H. injection H as <-. split; [done|]. intros k l Hk.
    exists []. rewrite app_nil_r. repeat split; auto; done.
  - cbn [compile_reactions] in H.
    destruct (compile_reaction d id0 reaction t) as [t1|] eqn:E1; [|done].
    cbn [rbind] in H.
    apply compile_reaction_inv in E1
      as (rc1 & ra & m1 & nrf & pa & m2 & nrr & hf & ca1 & hr &
          _ & _ & Hfor & Hrev & _ & _ & _ & _ & Hm & _ & _).
    apply record_side_mapping in Hfor as (Hlen1 & Hext1).
    apply record_side_mapping in Hrev as (Hlen2 & Hext2).
    apply IH in H as (Hlen3 & Hext3); [|lia].
    rewrite Hm in *. split; [lia|]. intros k l Hk.
    destruct (Hext1 k l Hk) as (e1 & Hk1 & Hall1 & Hin1).
    destruct (Hext2 k _ Hk1) as (e2 & Hk2 & Hall2 & Hin2).
    destruct (Hext3 k _ Hk2) as (e3 & Hk3 & Hall3 & Hin3).
    exists (e1 ++ e2 ++ e3). split; [by rewrite Hk3, <- !app_assoc|].
    split.
    { apply Forall_app; split; [|apply Forall_app; split]; auto.
      - eapply Forall_impl; [exact Hall1|]. cbn. lia.
      - eapply Forall_impl; [exact Hall2|]. cbn. lia. }
    intros [|j] rxn Hj.
    + injection Hj as ->. rewrite Z.add_0_r. split; intros Hin.
      * apply elem_of_app. left. auto.
      * apply elem_of_app. right. apply elem_of_app. left. auto.
    + change ((reaction :: reactions) !! S j) with (reactions !! j) in Hj.
      destruct (Hin3 j rxn Hj) as [Hr Hp].
      replace (id0 + Z.of_nat (S j)) with (id0 + 1 + Z.of_nat j) by lia.
      split; intros Hin; apply elem_of_app; right; apply elem_of_app; right; auto.
Qed.

Lemma foldl_max_le x xs : (x <= foldl Nat.max x xs)%nat /\
  Forall (fun y => (y <= foldl Nat.max x xs)%nat) xs.
Proof.
  revert x. induction xs as [|y xs IH]; intros x; cbn [foldl].
  - split; [lia | constructor].
  - destruct (IH (Nat.max x y)) as [H1 H2]. split; [lia|].
    constructor; [lia | done].
Qed.

Lemma py_max_bound (ls : list nat) (w : nat) :
  py_max ls = Ok w -> Forall (fun y => (y <= w)%nat) ls.
Proof.
  destruct ls as [|x xs]; [done|]. intros [= <-].
  destruct (foldl_max_le x xs). by constructor.
Qed.

(** The slice written by the padding loop is the leading part of the
    row, for a full list as for a shorter one. *)
Lemma pad_row_spec (w : nat) (rxn_list : list Z) :
  (length rxn_list <= w)%nat ->
  pad_row w rxn_list = Ok (rxn_list ++ replicate (w - length rxn_list) (-1)).
Proof.
  intros Hle. unfold pad_row. rewrite length_replicate.
  destruct (Nat.eqb_spec (length rxn_list) w) as [E|E].
  - unfold Py.assign_prefix. rewrite E, Nat.eqb_refl.
    rewrite drop_replicate. by rewrite Nat.sub_diag.
  - assert (Hstop : Py.slice_stop w (Z.of_nat (length rxn_list) - Z.of_nat w)
                    = length rxn_list).
    { unfold Py.slice_stop.
      destruct (Z.ltb_spec (Z.of_nat (length rxn_list) - Z.of_nat w) 0); lia. }
    rewrite Hstop. unfold Py.assign_prefix. rewrite Nat.eqb_refl.
    by rewrite drop_replicate.
Qed.

Lemma pad_rows_spec (w : nat) (lists : list (list Z)) :
  Forall (fun l => (length l <= w)%nat) lists ->
  pad_rows w lists
  = Ok (map (fun l => l ++ replicate (w - length l) (-1)) lists).
Proof.
  induction 1 as [|l lists Hl _ IH]; [reflexivity|].
  cbn [pad_rows map]. rewrite (pad_row_spec _ _ Hl), IH. reflexivity.
Qed.

Lemma lookup_map {A B} (f : A -> B) (l : list A) (i : nat) :
  map f l !! i = f <$> (l !! i).
Proof.
  revert i. induction l as [|x l IH]; intros [|i]; cbn; auto.
Qed.

Lemma initialize_simulation_inv num_entries d reactions out :
  initialize_simulation num_entries d reactions = Ok out ->
  exists t w,
    compile_reactions d 0 reactions (fresh_tables num_entries (length reactions)) = Ok t /\
    py_max (map length (species_rxn_mapping_list t)) = Ok w /\
    pad_rows w (species_rxn_mapping_list t) = Ok (c_species_rxn_mapping out) /\
    c_reactants out = reactant_array t /\
    c_products out = product_array t /\
    c_coord_array out = coord_array t /\
    c_rate_constants out = rate_constants t.
Proof.
  unfold initialize_simulation. intros H. inv_bind H. injection H as <-.
  cbn. eauto 10.
Qed.

(** C5, as the code has it. In the table compiled by
    [initialize_simulation], row [s] is the reaction list of species [s]
    followed by sentinels up to the common width, for short lists as for
    the longest; the list holds no sentinel, and it holds the channels
    that consume [s]: the forward channel [2 id] of every reaction [id]
    that has [s] among its reactants and the reverse channel [2 id + 1]
    of every reaction that has [s] among its products. *)
Theorem dependency_rows_complete num_entries d reactions out (s : nat) :
  initialize_simulation num_entries d reactions = Ok out ->
  (s < num_entries)%nat ->
  exists (chans : list Z) (width : nat),
    c_species_rxn_mapping out !! s
      = Some (chans ++ replicate (width - length chans) (-1)) /\
    (length chans <= width)%nat /\
    Forall (fun c => 0 <= c) chans /\
    Forall (fun row => length row = width) (c_species_rxn_mapping out) /\
    forall (id : nat) rxn, reactions !! id = Some rxn ->
      (Z.of_nat s ∈ Reaction.reactants rxn -> 2 * Z.of_nat id ∈ chans) /\
      (Z.of_nat s ∈ Reaction.products rxn -> 2 * Z.of_nat id + 1 ∈ chans).
Proof.
  intros Hinit Hs.
  apply initialize_simulation_inv in Hinit
    as (t & w & Hcomp & Hmax & Hpad & _).
  apply compile_reactions_mapping in Hcomp as (Hlen & Hext); [|lia].
  cbn [fresh_tables species_rxn_mapping_list] in Hlen, Hext.
  destruct (Hext s []) as (chans & Hchans & Hnn & Hin).
  { by apply lookup_replicate_2. }
  cbn [app] in Hchans.
  apply py_max_bound in Hmax. rewrite List.Forall_map in Hmax.
  rewrite (pad_rows_spec _ _ Hmax) in Hpad. injection Hpad as <-.
  exists chans, w. split; [|split; [|split; [|split]]].
  - cbn [c_species_rxn_mapping]. by rewrite lookup_map, Hchans.
  - rewrite Forall_lookup in Hmax. apply (Hmax _ _ Hchans).
  - done.
  - apply List.Forall_map. eapply Forall_impl; [exact Hmax|].
    intros l Hl. cbn beta in *. rewrite length_app, length_replicate. lia.
  - intros id rxn Hid. destruct (Hin id rxn Hid) as [Hr Hp].
    rewrite !Z.add_0_l in *. auto.
Qed.

Lemma dependency_rows_complete_witness :
  exists (chans : list Z) (width : nat),
    [[0; 2; 2]; [1; 3; -1]; [-1; -1; -1]] !! 1%nat
      = Some (chans ++ replicate (width - length chans) (-1)) /\
    (length chans <= width)%nat /\
    Forall (fun c => 0 <= c) chans /\
    Forall (fun row => length row = width) [[0; 2; 2]; [1; 3; -1]; [-1; -1; -1]] /\
    forall (id : nat) rxn,
      [Reaction.mk [0] [1] 1 1; Reaction.mk [0; 0] [1] 1 1] !! id = Some rxn ->
      (Z.of_nat 1 ∈ Reaction.reactants rxn -> 2 * Z.of_nat id ∈ chans) /\
      (Z.of_nat 1 ∈ Reaction.products rxn -> 2 * Z.of_nat id + 1 ∈ chans).
Proof.
  apply (dependency_rows_complete 3 {[ 0 := 100 ]}
           [Reaction.mk [0] [1] 1 1; Reaction.mk [0; 0] [1] 1 1]
           (mk_compiled [100; 0; 0] [[0; 2; 2]; [1; 3; -1]; [-1; -1; -1]]
              [[0; -1]; [0; 0]] [[1; -1]; [1; -1]]
              [100; 0; 9900; 0]%Q [1; 1; 1; 1]%Q) 1%nat).
  - vm_compute. reflexivity.
  - lia.
Defined.

(** C5, as stated, fails: in the reaction [A <-> B] species [A] is the
    product of the reverse channel 1, and row [A] of the compiled table
    holds channel 0 only. A row lists the channels that consume its
    species, not those that produce it. *)
Lemma producing_channel_not_listed :
  exists out prow row,
    initialize_simulation 2 {[ 0 := 100 ]} [Reaction.mk [0] [1] 1 1] = Ok out /\
    producing_row (c_reactants out) (c_products out) 1 = Ok prow /\
    0 ∈ prow /\
    c_species_rxn_mapping out !! 0%nat = Some row /\
    1 ∉ row.
Proof.
  eexists _, _, _. split; [vm_compute; reflexivity|].
  cbn [c_reactants c_products c_species_rxn_mapping].
  split; [reflexivity|]. split; [apply elem_of_cons; by left|].
  split; [reflexivity|].
  intros H. apply elem_of_cons in H as [H|H]; [discriminate|].
  by apply elem_of_nil in H.
Qed.

(** ** Network compiler: the species tables and the coordination numbers *)

Lemma setitem2_nonneg (arr arr' : list (list Z)) i j x :
  0 <= i -> 0 <= j -> Py.setitem2 arr i j x = Ok arr' ->
  exists row, arr !! Z.to_nat i = Some row /\
    (Z.to_nat j < length row)%nat /\
    arr' = <[Z.to_nat i := <[Z.to_nat j := x]> row]> arr.
Proof.
  intros Hi Hj. unfold Py.setitem2. intros H. inv_bind H.
  match goal with
  | E : Py.getitem arr i = Ok _ |- _ => apply getitem_nonneg in E; [|done]
  end.
  match goal with
  | E : Py.setitem _ j x = Ok _ |- _ =>
      apply setitem_nonneg in E as [-> Hlt]; [|done]
  end.
  apply setitem_nonneg in H as [-> _]; [|done]. eauto.
Qed.

(** The loop over one side writes the entry ids of the side into the
    columns of row [id], from column [idx] on, and touches nothing else
    of the table; it collects the initial counts in order. *)
Lemma record_side_arr d channel id : forall side idx arr m counts arr' m' counts',
  0 <= id -> 0 <= idx ->
  record_side d channel id idx side arr m counts = Ok (arr', m', counts') ->
  (rows_of_two arr -> rows_of_two arr') /\
  (forall j : nat, j <> Z.to_nat id -> arr' !! j = arr !! j) /\
  counts' = counts ++ map (dict_get d) side /\
  (forall row (c : nat) v, arr !! Z.to_nat id = Some row -> row !! c = Some v ->
     Z.of_nat c < idx ->
     exists row', arr' !! Z.to_nat id = Some row' /\ row' !! c = Some v) /\
  (forall (n : nat) e, side !! n = Some e ->
     exists row', arr' !! Z.to_nat id = Some row' /\
       row' !! (Z.to_nat idx + n)%nat = Some e).
Proof.
  induction side as [|entry side IH];
    intros idx arr m counts arr' m' counts' Hid Hidx H.
  - cbn in H. injection H as <- <- <-. rewrite app_nil_r.
    repeat split; auto; [eauto|done].
  - cbn [record_side] in H.
    destruct (Py.setitem2 arr id idx entry) as [arr1|] eqn:E1; [|done].
    cbn [rbind] in H. inv_bind H.
    apply setitem2_nonneg in E1 as (row & Hrow & Hlt & ->); [|done..].
    apply IH in H as (Htwo & Hother & -> & Hkeep & Hnew); [|lia..].
    assert (Hrow1 : <[Z.to_nat id := <[Z.to_nat idx := entry]> row]> arr !! Z.to_nat id
                    = Some (<[Z.to_nat idx := entry]> row)).
    { apply list_lookup_insert_eq. by eapply lookup_lt_Some. }
    split; [|split; [|split; [|split]]].
    + intros Harr. apply Htwo. unfold rows_of_two in *.
      apply Forall_insert; [done|]. rewrite length_insert.
      rewrite Forall_lookup in Harr. eauto.
    + intros j Hj. rewrite Hother by done. by rewrite list_lookup_insert_ne.
    + cbn [map]. by rewrite <- app_assoc.
    + intros row0 c v Hrow0 Hc Hlt'. assert (row0 = row) as -> by congruence.
      apply (Hkeep _ c v Hrow1); [|lia].
      rewrite list_lookup_insert_ne by lia. done.
    + intros [|n] e Hn.
      * injection Hn as ->. rewrite Nat.add_0_r.
        apply (Hkeep _ (Z.to_nat idx) e Hrow1); [|lia].
        by apply list_lookup_insert_eq.
      * destruct (Hnew n e Hn) as (row' & Hrow' & He). exists row'.
        split; [done|]. rewrite <- He. f_equal. lia.
Qed.

(** What the loop over the reactions leaves in the arrays: the cells and
    rows below the first reaction index are untouched, and reaction
    [id0 + j] has its entry ids in row [id0 + j] of the species tables
    and its two initial coordination numbers in cells [2 (id0 + j)] and
    [2 (id0 + j) + 1]. *)
Lemma compile_reactions_arrays d : forall reactions id0 t t',
  0 <= id0 ->
  compile_reactions d id0 reactions t = Ok t' ->
  rows_of_two (reactant_array t) -> rows_of_two (product_array t) ->
  rows_of_two (reactant_array t') /\ rows_of_two (product_array t') /\
  (forall r : nat, (r < Z.to_nat id0)%nat ->
     reactant_array t' !! r = reactant_array t !! r /\
     product_array t' !! r = product_array t !! r) /\
  (forall k : nat, (k < Z.to_nat (2 * id0))%nat ->
     coord_array t' !! k = coord_array t !! k) /\
  forall (j : nat) rxn, reactions !! j = Some rxn ->
    (exists hf,
       initial_coordination (Reaction.reactants rxn)
         (map (dict_get d) (Reaction.reactants rxn)) = Ok hf /\
       coord_array t' !! Z.to_nat (2 * (id0 + Z.of_nat j)) = Some hf) /\
    (exists hr,
       initial_coordination (Reaction.products rxn)
         (map (dict_get d) (Reaction.products rxn)) = Ok hr /\
       coord_array t' !! Z.to_nat (2 * (id0 + Z.of_nat j) + 1) = Some hr) /\
    (forall (n : nat) e, Reaction.reactants rxn !! n = Some e ->
       exists row, reactant_array t' !! Z.to_nat (id0 + Z.of_nat j) = Some row /\
         row !! n = Some e) /\
    (forall (n : nat) e, Reaction.products rxn !! n = Some e ->
       exists row, product_array t' !! Z.to_nat (id0 + Z.of_nat j) = Some row /\
         row !! n = Some e).
Proof.
  induction reactions as [|reaction reactions IH]; intros id0 t t' Hid H Hra Hpa.
  - cbn in H. injection H as <-. repeat split; auto; done.
  - cbn [compile_reactions] in H.
    destruct (compile_reaction d id0 reaction t) as [t1|] eqn:E1; [|done].
    cbn [rbind] in H.
    apply compile_reaction_inv in E1
      as (rc1 & ra & m1 & nrf & pa & m2 & nrr & hf & ca1 & hr &
          _ & _ & Hfor & Hrev & Hhf & Hca1 & Hhr & Hca2 & _ & Hra1 & Hpa1).
    apply record_side_arr in Hfor as (Htwo_f & Hother_f & Hnrf & _ & Hnew_f);
      [|lia..].
    apply record_side_arr in Hrev as (Htwo_r & Hother_r & Hnrr & _ & Hnew_r);
      [|lia..].
    cbn [app] in Hnrf, Hnrr. subst nrf nrr ra pa.
    apply setitem_nonneg in Hca1 as [-> Hlt1]; [|lia].
    apply setitem_nonneg in Hca2 as [Hca2 Hlt2]; [|lia].
    rewrite length_insert in Hlt2.
    apply IH in H as (Hra' & Hpa' & Hrows & Hcells & Hrest); [|lia|by auto..].
    split; [done|]. split; [done|]. split; [|split].
    + intros r Hr. destruct (Hrows r ltac:(lia)) as [-> ->].
      rewrite Hother_f, Hother_r by lia. done.
    + intros k Hk. rewrite (Hcells k) by lia. rewrite Hca2.
      rewrite !list_lookup_insert_ne by lia. done.
    + intros [|j] rxn Hj.
      * injection Hj as ->. rewrite Z.add_0_r.
        destruct (Hrows (Z.to_nat id0) ltac:(lia)) as [Hr1 Hr2].
        split; [|split; [|split]].
        -- exists hf. split; [done|]. rewrite (Hcells (Z.to_nat (2 * id0))) by lia.
           rewrite Hca2, list_lookup_insert_ne by lia.
           by apply list_lookup_insert_eq.
        -- exists hr. split; [done|].
           rewrite (Hcells (Z.to_nat (2 * id0 + 1))) by lia.
           rewrite Hca2. apply list_lookup_insert_eq. by rewrite length_insert.
        -- intros n e Hn. rewrite Hr1.
           destruct (Hnew_f n e Hn) as (row & Hrow & He). eauto.
        -- intros n e Hn. rewrite Hr2.
           destruct (Hnew_r n e Hn) as (row & Hrow & He). eauto.
      * change ((reaction :: reactions) !! S j) with (reactions !! j) in Hj.
        replace (id0 + Z.of_nat (S j)) with (id0 + 1 + Z.of_nat j) by lia.
        by apply Hrest.
Qed.

Lemma row_of_two_entries (row : list Z) a b :
  length row = 2%nat -> row !! 0%nat = Some a -> row !! 1%nat = Some b ->
  row = [a; b].
Proof.
  destruct row as [|x [|y [|z row]]]; try done. cbn. congruence.
Qed.

(** The two computations of the coordination number of a side
    [[s; s]], at the same count [n] of [s]. *)
Lemma initial_coordination_identical s n :
  initial_coordination [s; s] (map (fun _ => n) [s; s])
  = Ok (inject_Z (n * (n - 1))).
Proof.
  unfold initial_coordination. cbn [length Nat.eqb map].
  change (Py.getitem [s; s] 0) with (Ok (A := Z) s).
  change (Py.getitem [s; s] 1) with (Ok (A := Z) s).
  cbn [rbind]. rewrite Z.eqb_refl. reflexivity.
Qed.

Lemma get_coordination_identical (reactants products : list (list Z))
    (st : list Z) rxn_id (reverse : bool) s n :
  Py.getitem (if reverse then products else reactants) rxn_id = Ok [s; s] ->
  s <> -1 ->
  Py.getitem st s = Ok n ->
  get_coordination reactants products st rxn_id reverse
  = Ok (inject_Z (Jit.int64 (n * (n - 1))) / 2)%Q.
Proof.
  intros Hrow Hs Hn. unfold get_coordination.
  assert (Hr : (if reverse then Jit.getitem products rxn_id
                else Jit.getitem reactants rxn_id) = Ok [s; s])
    by (destruct reverse; by apply jit_getitem_Ok).
  rewrite Hr. cbn [rbind num_mols_list]. rewrite !jit_getitem, Hn. cbn [rbind].
  unfold count_present. rewrite !filter_cons_True by done.
  cbn [filter length Nat.eqb].
  change (Py.getitem [s; s] 0) with (Ok (A := Z) s).
  change (Py.getitem [s; s] 1) with (Ok (A := Z) s).
  cbn [rbind]. rewrite Z.eqb_refl. reflexivity.
Qed.

(** The product of two consecutive integers is never negative, so it is
    held exactly as soon as it is below [2 ^ 63]. *)
Lemma get_coordination_identical_exact (reactants products : list (list Z))
    (st : list Z) rxn_id (reverse : bool) s n :
  Py.getitem (if reverse then products else reactants) rxn_id = Ok [s; s] ->
  s <> -1 ->
  Py.getitem st s = Ok n ->
  n * (n - 1) < 2 ^ 63 ->
  get_coordination reactants products st rxn_id reverse
  = Ok (inject_Z (n * (n - 1)) / 2)%Q.
Proof.
  intros Hrow Hs Hn Hfit.
  rewrite (get_coordination_identical _ _ _ _ _ s n Hrow Hs Hn).
  rewrite int64_exact; [done|]. split; [nia | done].
Qed.

(** C1, as the code has it. For a reaction whose reactant side (or
    product side) consists of the same species [s] twice, with count [n]
    of [s] both in the initial dictionary and in the current state, and
    [n (n - 1)] below [2 ^ 63] so that the 64-bit product of
    [get_coordination] is exact: the coordination number stored by
    [initialize_simulation] for the forward (reverse) channel is
    [n (n - 1)], the one computed by [get_coordination] on the compiled
    tables is [n (n - 1) / 2], the first is twice the second, and they
    differ as soon as [n >= 2]. *)
Theorem identical_species_factor_two num_entries d reactions out
    (id : nat) rxn (s n : Z) (st : list Z) :
  initialize_simulation num_entries d reactions = Ok out ->
  reactions !! id = Some rxn ->
  s <> -1 ->
  dict_get d s = n ->
  Py.getitem st s = Ok n ->
  n * (n - 1) < 2 ^ 63 ->
  (Reaction.reactants rxn = [s; s] ->
   exists h_init h_run,
     c_coord_array out !! (2 * id)%nat = Some h_init /\
     h_init = inject_Z (n * (n - 1)) /\
     get_coordination (c_reactants out) (c_products out) st (Z.of_nat id) false
       = Ok h_run /\
     h_run = (inject_Z (n * (n - 1)) / 2)%Q /\
     (h_init == 2 * h_run)%Q /\
     (2 <= n -> ~ (h_init == h_run)%Q)) /\
  (Reaction.products rxn = [s; s] ->
   exists h_init h_run,
     c_coord_array out !! (2 * id + 1)%nat = Some h_init /\
     h_init = inject_Z (n * (n - 1)) /\
     get_coordination (c_reactants out) (c_products out) st (Z.of_nat id) true
       = Ok h_run /\
     h_run = (inject_Z (n * (n - 1)) / 2)%Q /\
     (h_init == 2 * h_run)%Q /\
     (2 <= n -> ~ (h_init == h_run)%Q)).
Proof.
  intros Hinit Hid Hs Hd Hst Hfit.
  apply initialize_simulation_inv in Hinit
    as (t & w & Hcomp & _ & _ & Hreac & Hprod & Hcoord & _).
  apply compile_reactions_arrays in Hcomp
    as (Hra & Hpa & _ & _ & Hrxn); [|lia|apply Forall_replicate; done..].
  destruct (Hrxn id rxn Hid) as ((hf & Hhf & Hcf) & (hr & Hhr & Hcr) & Hrow_f & Hrow_r).
  rewrite Z.add_0_l in *. rewrite Hreac, Hprod, Hcoord.
  assert (Harith : (inject_Z (n * (n - 1)) == 2 * (inject_Z (n * (n - 1)) / 2))%Q
                   /\ (2 <= n -> ~ (inject_Z (n * (n - 1)) == inject_Z (n * (n - 1)) / 2)%Q)).
  { split; [field|]. intros Hn Heq.
    assert (Hpos : (0 < inject_Z (n * (n - 1)))%Q).
    { rewrite <- (Zlt_Qlt 0). nia. }
    assert (H2 : (inject_Z (n * (n - 1)) / 2 == inject_Z (n * (n - 1)) * (1 # 2))%Q)
      by field.
    rewrite H2 in Heq. lra. }
  destruct Harith as [Hdouble Hdiff].
  assert (Hside : forall side, side = [s; s] ->
            initial_coordination side (map (dict_get d) side)
            = Ok (inject_Z (n * (n - 1)))).
  { intros side ->. cbn [map]. rewrite Hd. apply (initial_coordination_identical s n). }
  assert (Hrow : forall (arr : list (list Z)) side, rows_of_two arr -> side = [s; s] ->
            (forall (k : nat) e, side !! k = Some e ->
               exists row, arr !! Z.to_nat (Z.of_nat id) = Some row /\ row !! k = Some e) ->
            Py.getitem arr (Z.of_nat id) = Ok [s; s]).
  { intros arr side Harr -> Hcols.
    destruct (Hcols 0%nat s eq_refl) as (row & Hr & H0).
    destruct (Hcols 1%nat s eq_refl) as (row' & Hr' & H1).
    assert (row' = row) as -> by congruence.
    unfold rows_of_two in Harr. rewrite Forall_lookup in Harr.
    rewrite (row_of_two_entries row s s (Harr _ _ Hr) H0 H1) in Hr.
    apply getitem_nonneg; [lia | done]. }
  split; intros Hside_eq.
  - exists hf, (inject_Z (n * (n - 1)) / 2)%Q.
    rewrite (Hside _ Hside_eq) in Hhf. injection Hhf as <-.
    split.
    { rewrite <- Hcf. f_equal. lia. }
    split; [done|]. split; [|done].
    apply get_coordination_identical_exact with (s := s); auto.
    cbn [negb]. eapply Hrow; eauto.
  - exists hr, (inject_Z (n * (n - 1)) / 2)%Q.
    rewrite (Hside _ Hside_eq) in Hhr. injection Hhr as <-.
    split.
    { rewrite <- Hcr. f_equal. lia. }
    split; [done|]. split; [|done].
    apply get_coordination_identical_exact with (s := s); auto.
    eapply Hrow; eauto.
Qed.

Lemma identical_species_factor_two_witness :
  exists h_init h_run,
    c_coord_array dimer_compiled !! (2 * 1)%nat = Some h_init /\
    h_init = inject_Z (100 * (100 - 1)) /\
    get_coordination (c_reactants dimer_compiled) (c_products dimer_compiled)
      [100; 0; 0] (Z.of_nat 1) false = Ok h_run /\
    h_run = (inject_Z (100 * (100 - 1)) / 2)%Q /\
    (h_init == 2 * h_run)%Q /\
    (2 <= 100 -> ~ (h_init == h_run)%Q).
Proof.
  refine (proj1 (identical_species_factor_two 3 {[ 0 := 100 ]} dimer_reactions
                   dimer_compiled 1%nat (Reaction.mk [0; 0] [1] 1 1) 0 100
                   [100; 0; 0] _ _ _ _ _ _) _).
  - vm_compute. reflexivity.
  - reflexivity.
  - lia.
  - reflexivity.
  - reflexivity.
  - reflexivity.
  - reflexivity.
Defined.

(** C1, as stated, fails: with [n = 4000000000] molecules of the
    repeated species the compiler stores [n (n - 1)], the 64-bit product
    of [get_coordination] wraps around, and the value returned is
    negative, neither [n (n - 1) / 2] nor half the stored one. *)
Lemma identical_species_product_wraps :
  2 <= 4000000000 /\
  exists out h_init h_run,
    initialize_simulation 3 {[ 0 := 4000000000 ]} dimer_reactions = Ok out /\
    c_coord_array out !! (2 * 1)%nat = Some h_init /\
    h_init = inject_Z (4000000000 * (4000000000 - 1)) /\
    get_coordination (c_reactants out) (c_products out) (c_initial_state out)
      (Z.of_nat 1) false = Ok h_run /\
    h_run = (inject_Z (-2446744077709551616) / 2)%Q /\
    ~ (h_run == inject_Z (4000000000 * (4000000000 - 1)) / 2)%Q /\
    ~ (h_init == 2 * h_run)%Q.
Proof.
  split; [lia|]. eexists _, _, _.
  split; [vm_compute; reflexivity|]. cbn [c_coord_array c_reactants c_products
                                          c_initial_state].
  split; [reflexivity|]. split; [reflexivity|]. split; [vm_compute; reflexivity|].
  split; [reflexivity|]. split; intros H; vm_compute in H; discriminate H.
Qed.

(** ** Network compiler: unsupported reactions *)

Lemma setitem_Raise {A} (l : list A) i x e :
  Py.setitem l i x = Raise e -> e = IndexError.
Proof. unfold Py.setitem. destruct (Py.norm (length l) i); congruence. Qed.

Lemma setitem2_Raise {A} (a : list (list A)) i j x e :
  Py.setitem2 a i j x = Raise e -> e = IndexError.
Proof.
  unfold Py.setitem2.
  destruct (Py.getitem a i) as [row|e1] eqn:E1; cbn [rbind].
  - destruct (Py.setitem row j x) as [row'|e2] eqn:E2; cbn [rbind].
    + apply setitem_Raise.
    + intros [= <-]. by apply setitem_Raise in E2.
  - intros [= <-]. by apply getitem_Raise in E1.
Qed.

Ltac raise_bind H :=
  repeat match type of H with
  | rbind ?r _ = Raise _ =>
      let E := fresh "E" in
      destruct r eqn:E; cbn [rbind] in H
  | (match ?p with (_, _) => _ end) = Raise _ => destruct p
  end.

Lemma record_side_Raise d channel id : forall side idx arr m counts e,
  record_side d channel id idx side arr m counts = Raise e -> e = IndexError.
Proof.
  induction side as [|entry side IH]; intros idx arr m counts e H; [done|].
  cbn [record_side] in H. raise_bind H.
  - eauto.
  - injection H as <-. eauto using setitem_Raise.
  - injection H as <-. eauto using getitem_Raise.
  - injection H as <-. eauto using setitem2_Raise.
Qed.

(** The only way to the [RuntimeError] of the coordination chain is a
    side with neither one nor two species. *)
Lemma initial_coordination_RuntimeError side counts :
  initial_coordination side counts = Raise RuntimeError -> unsupported_side side.
Proof.
  unfold initial_coordination, unsupported_side.
  destruct (Nat.eqb_spec (length side) 1).
  { intros H. raise_bind H; [done|]. injection H as H.
    apply getitem_Raise in E. congruence. }
  destruct (Nat.eqb_spec (length side) 2); [|done].
  intros H. exfalso. raise_bind H; try done;
    repeat match goal with
    | E : Py.getitem _ _ = Raise _ |- _ => apply getitem_Raise in E
    end; try congruence.
  destruct (a =? a0); raise_bind H; try done;
    repeat match goal with
    | E : Py.getitem _ _ = Raise _ |- _ => apply getitem_Raise in E
    end; congruence.
Qed.

Lemma compile_reaction_RuntimeError d id reaction t :
  compile_reaction d id reaction t = Raise RuntimeError -> unsupported reaction.
Proof.
  unfold compile_reaction, unsupported. intros H.
  destruct (Py.setitem (rate_constants t) _ _) as [rc1|] eqn:E1; cbn [rbind] in H;
    [|injection H as ->; by apply setitem_Raise in E1].
  destruct (Py.setitem rc1 _ _) as [rc2|] eqn:E2; cbn [rbind] in H;
    [|injection H as ->; by apply setitem_Raise in E2].
  destruct (record_side d (2 * id) _ _ _ _ _ _) as [[[ra m1] nrf]|] eqn:E3;
    cbn [rbind] in H; [|injection H as ->; by apply record_side_Raise in E3].
  destruct (record_side d (2 * id + 1) _ _ _ _ _ _) as [[[pa m2] nrr]|] eqn:E4;
    cbn [rbind] in H; [|injection H as ->; by apply record_side_Raise in E4].
  destruct (initial_coordination _ nrf) as [hf|] eqn:E5; cbn [rbind] in H;
    [|injection H as ->; left; by eapply initial_coordination_RuntimeError].
  destruct (Py.setitem (coord_array t) _ _) as [ca1|] eqn:E6; cbn [rbind] in H;
    [|injection H as ->; by apply setitem_Raise in E6].
  destruct (initial_coordination _ nrr) as [hr|] eqn:E7; cbn [rbind] in H;
    [|injection H as ->; right; by eapply initial_coordination_RuntimeError].
  destruct (Py.setitem ca1 _ _) as [ca2|] eqn:E8; cbn [rbind] in H;
    [done|injection H as ->; by apply setitem_Raise in E8].
Qed.

Lemma compile_reactions_RuntimeError d : forall reactions id t,
  compile_reactions d id reactions t = Raise RuntimeError ->
  exists reaction, reaction ∈ reactions /\ unsupported reaction.
Proof.
  induction reactions as [|reaction reactions IH]; intros id t H; [done|].
  cbn [compile_reactions] in H.
  destruct (compile_reaction d id reaction t) as [t1|e] eqn:E; cbn [rbind] in H.
  - destruct (IH _ _ H) as (r & Hin & Hr). exists r. split; [|done].
    apply elem_of_cons. by right.
  - injection H as ->. exists reaction. split; [apply elem_of_cons; by left|].
    by eapply compile_reaction_RuntimeError.
Qed.

Lemma fill_initial_state_Raise : forall items st e,
  fill_initial_state items st = Raise e -> e = IndexError.
Proof.
  induction items as [|[mol_id amount] items IH]; intros st e H; [done|].
  cbn [fill_initial_state] in H.
  destruct (Py.setitem st mol_id amount) eqn:E; cbn [rbind] in H; [eauto|].
  injection H as <-. by eapply setitem_Raise.
Qed.

Lemma pad_rows_Raise w : forall lists e,
  pad_rows w lists = Raise e -> e = ValueError.
Proof.
  assert (Hrow : forall l e, pad_row w l = Raise e -> e = ValueError).
  { intros l e. unfold pad_row, Py.assign_prefix.
    repeat match goal with
    | |- context [if ?b then _ else _] => destruct b
    | |- context [match ?l with [] => _ | _ :: _ => _ end] => destruct l
    end; congruence. }
  induction lists as [|l lists IH]; intros e H; [done|].
  cbn [pad_rows] in H.
  destruct (pad_row w l) eqn:E; cbn [rbind] in H.
  - destruct (pad_rows w lists) eqn:E'; cbn [rbind] in H; [done|].
    injection H as <-. eauto.
  - injection H as <-. eauto.
Qed.

(** C6, where the code departs from it. A reaction with three reactants
    has an unsupported side, and [initialize_simulation] stops on it with
    the [IndexError] of the write into the two-column table, before the
    check that raises the [RuntimeError] of unsupported reactions. That
    [RuntimeError] is raised for a side without species, and whenever it
    is raised some reaction has an unsupported side. *)
Theorem unsupported_arity_errors :
  unsupported termolecular /\
  initialize_simulation 4 ∅ [termolecular] = Raise IndexError /\
  initialize_simulation 4 ∅ [Reaction.mk [] [3] 1 1] = Raise RuntimeError /\
  forall num_entries d reactions,
    initialize_simulation num_entries d reactions = Raise RuntimeError ->
    exists reaction, reaction ∈ reactions /\ unsupported reaction.
Proof.
  split; [|split; [|split]].
  - left. split; cbn; lia.
  - vm_compute. reflexivity.
  - vm_compute. reflexivity.
  - intros num_entries d reactions. unfold initialize_simulation. intros H.
    destruct (fill_initial_state _ _) eqn:E1; cbn [rbind] in H;
      [|injection H as ->; by apply fill_initial_state_Raise in E1].
    destruct (compile_reactions d 0 reactions _) as [t|] eqn:E2; cbn [rbind] in H;
      [|injection H as ->; by eapply compile_reactions_RuntimeError].
    destruct (py_max _) as [w|] eqn:E3; cbn [rbind] in H.
    + destruct (pad_rows w _) eqn:E4; cbn [rbind] in H; [done|].
      injection H as ->. by apply pad_rows_Raise in E4.
    + injection H as ->. unfold py_max in E3.
      destruct (map length _); done.
Qed.

(** * Further properties *)

(** ** State updater: composition and balance *)

(** [update_state] on a reaction index, once its two rows are known. *)
Lemma update_state_rows (reactants products : list (list Z)) rxn_ind
    (reverse : bool) st consumed produced :
  rxn_ind <> -1 ->
  Py.getitem (if reverse then products else reactants) rxn_ind = Ok consumed ->
  Py.getitem (if reverse then reactants else products) rxn_ind = Ok produced ->
  update_state reactants products rxn_ind reverse st =
  match consume consumed st with
  | (Ok _, st1) =>
      match produce produced st1 with
      | (Ok _, st2) => (Ok st2, st2)
      | (Raise e, st2) => (Raise e, st2)
      end
  | (Raise e, st1) => (Raise e, st1)
  end.
Proof.
  intros Hne Hcons Hprod. unfold update_state.
  apply (proj2 (jit_getitem_Ok _ _ _)) in Hcons.
  apply (proj2 (jit_getitem_Ok _ _ _)) in Hprod.
  destruct (Z.eqb_spec rxn_ind (-1)) as [E|_]; [done|].
  destruct reverse; unfold Pop.bind, Pop.lift, Pop.get;
    rewrite Hcons; destruct (consume consumed st) as [[[]|e] st1]; try done;
    rewrite Hprod; by destruct (produce produced st1) as [[[]|e] st2].
Qed.









(** ** Coordination calculator: values and dependencies *)

Lemma get_coordination_row (reactants products : list (list Z)) (st : list Z)
    rxn_id (reverse : bool) row :
  Py.getitem (if reverse then products else reactants) rxn_id = Ok row ->
  get_coordination reactants products st rxn_id reverse =
  (let num_reactants := count_present row in
   let? mols := num_mols_list st row in
   if Nat.eqb num_reactants 1 then
     let? n0 := Py.getitem mols 0 in Ok (inject_Z n0)
   else if Nat.eqb num_reactants 2 then
     let? a0 := Jit.getitem row 0 in
     let? a1 := Jit.getitem row 1 in
     if a0 =? a1 then
       let? n0 := Py.getitem mols 0 in
       Ok (inject_Z (Jit.int64 (n0 * (n0 - 1))) / 2)%Q
     else
       let? n0 := Py.getitem mols 0 in
       let? n1 := Py.getitem mols 1 in Ok (inject_Z (Jit.int64 (n0 * n1)))
   else Raise RuntimeError).
Proof.
  intros Hrow. unfold get_coordination.
  assert (Hr : (if reverse then Jit.getitem products rxn_id
                else Jit.getitem reactants rxn_id) = Ok row)
    by (destruct reverse; by apply jit_getitem_Ok).
  by rewrite Hr.
Qed.

(** The value of [get_coordination] on each shape of side that the
    compiler stores. *)
Lemma get_coordination_cases (reactants products : list (list Z)) (st : list Z)
    rxn_id (reverse : bool) row :
  Py.getitem (if reverse then products else reactants) rxn_id = Ok row ->
  (forall a n, row = [a; -1] -> a <> -1 -> Py.getitem st a = Ok n ->
     get_coordination reactants products st rxn_id reverse = Ok (inject_Z n)) /\
  (forall a b n m, row = [a; b] -> a <> -1 -> b <> -1 -> a <> b ->
     Py.getitem st a = Ok n -> Py.getitem st b = Ok m ->
     get_coordination reactants products st rxn_id reverse
     = Ok (inject_Z (Jit.int64 (n * m)))) /\
  (forall a n, row = [a; a] -> a <> -1 -> Py.getitem st a = Ok n ->
     get_coordination reactants products st rxn_id reverse
     = Ok (inject_Z (Jit.int64 (n * (n - 1))) / 2)%Q).
Proof.
  intros Hrow. rewrite (get_coordination_row _ _ _ _ _ _ Hrow).
  split; [|split].
  - intros a n -> Ha Hn.
    assert (Hlast : exists x, Py.getitem st (-1) = Ok x).
    { apply getitem_Ok in Hn as (k & Hk & _). apply norm_lt in Hk.
      destruct (lookup_lt_is_Some_2 st (length st - 1)%nat) as [x Hx]; [lia|].
      exists x. apply getitem_Ok. exists (length st - 1)%nat.
      split; [|done]. apply norm_minus_one. lia. }
    destruct Hlast as [x Hx].
    cbn [num_mols_list]. rewrite !jit_getitem, Hn, Hx. cbn [rbind].
    unfold count_present. rewrite filter_cons_True by done.
    rewrite filter_cons_False by (intros H; by apply H). reflexivity.
  - intros a b n m -> Ha Hb Hab Hn Hm.
    cbn [num_mols_list]. rewrite !(jit_getitem st), Hn, Hm. cbn [rbind].
    unfold count_present. rewrite !filter_cons_True by done.
    cbn [filter length Nat.eqb].
    change (Jit.getitem [a; b] 0) with (Ok (A := Z) a).
    change (Jit.getitem [a; b] 1) with (Ok (A := Z) b).
    cbn [rbind]. destruct (Z.eqb_spec a b); [done|]. reflexivity.
  - intros a n -> Ha Hn.
    cbn [num_mols_list]. rewrite !(jit_getitem st), Hn. cbn [rbind].
    unfold count_present. rewrite !filter_cons_True by done.
    cbn [filter length Nat.eqb].
    change (Jit.getitem [a; a] 0) with (Ok (A := Z) a).
    change (Jit.getitem [a; a] 1) with (Ok (A := Z) a).
    cbn [rbind]. rewrite Z.eqb_refl. reflexivity.
Qed.




(** X4. The coordination number of a stored side depends only on the
    counts of the species of that side: two states that give the same
    count to each of them give the same result. *)
Theorem get_coordination_frame (reactants products : list (list Z))
    (st st2 : list Z) rxn_id (reverse : bool) row :
  Py.getitem (if reverse then products else reactants) rxn_id = Ok row ->
  side_row row ->
  (forall a, a ∈ row -> a <> -1 ->
     exists n, Py.getitem st a = Ok n /\ Py.getitem st2 a = Ok n) ->
  get_coordination reactants products st2 rxn_id reverse
  = get_coordination reactants products st rxn_id reverse.
Proof.
  intros Hrow Hside Hsame.
  destruct (get_coordination_cases reactants products st rxn_id reverse row Hrow)
    as (H1 & H2 & H3).
  destruct (get_coordination_cases reactants products st2 rxn_id reverse row Hrow)
    as (H1' & H2' & H3').
  destruct Hside as [(a & -> & Ha)|(a & b & -> & Ha & Hb)].
  - destruct (Hsame a) as (n & Hn & Hn'); [set_solver | done |].
    by rewrite (H1 a n), (H1' a n).
  - destruct (Hsame a) as (n & Hn & Hn'); [set_solver | done |].
    destruct (Hsame b) as (m & Hm & Hm'); [set_solver | done |].
    destruct (Z.eq_dec a b) as [<-|Hab].
    + by rewrite (H3 a n), (H3' a n).
    + by rewrite (H2 a b n m), (H2' a b n m).
Qed.

Lemma get_coordination_frame_witness :
  get_coordination [[0; 2]] [[1; -1]] [3; 9; 4; 8] 0 false
  = get_coordination [[0; 2]] [[1; -1]] [3; 7; 4] 0 false.
Proof.
  apply (get_coordination_frame [[0; 2]] [[1; -1]] [3; 7; 4] [3; 9; 4; 8] 0 false
           [0; 2]).
  - reflexivity.
  - right. exists 0, 2. repeat split; lia.
  - intros a Ha _.
    apply elem_of_cons in Ha as [->|Ha]; [exists 3; by split|].
    apply elem_of_cons in Ha as [->|Ha]; [exists 4; by split|].
    by apply elem_of_nil in Ha.
Defined.

(** X5. The sentinel is used as an index: for a row whose first slot is
    the sentinel and whose second slot holds a species, the value
    returned is the count of the last species of the array, whatever the
    species of the row; for a row of two sentinels on a non-empty array
    the function raises [RuntimeError]. *)
Theorem get_coordination_sentinel_first (reactants products : list (list Z))
    (st : list Z) rxn_id (reverse : bool) s last_count :
  Py.getitem st (-1) = Ok last_count ->
  (Py.getitem (if reverse then products else reactants) rxn_id = Ok [-1; s] ->
   s <> -1 -> (exists n, Py.getitem st s = Ok n) ->
   get_coordination reactants products st rxn_id reverse = Ok (inject_Z last_count)) /\
  (Py.getitem (if reverse then products else reactants) rxn_id = Ok [-1; -1] ->
   get_coordination reactants products st rxn_id reverse = Raise RuntimeError).
Proof.
  intros Hlast. split.
  - intros Hrow Hs [n Hn]. rewrite (get_coordination_row _ _ _ _ _ _ Hrow).
    cbn [num_mols_list]. rewrite !jit_getitem, Hlast, Hn. cbn [rbind].
    unfold count_present. rewrite filter_cons_False by (intros H; by apply H).
    rewrite filter_cons_True by done. reflexivity.
  - intros Hrow. rewrite (get_coordination_row _ _ _ _ _ _ Hrow).
    cbn [num_mols_list]. rewrite !jit_getitem, Hlast. cbn [rbind].
    unfold count_present. rewrite !filter_cons_False by (intros H; by apply H).
    reflexivity.
Qed.

Lemma get_coordination_sentinel_first_witness :
  get_coordination [[-1; 0]] [[1; -1]] [7; 3; 5] 0 false = Ok (inject_Z 5) /\
  get_coordination [[-1; -1]] [[1; -1]] [7; 3; 5] 0 false = Raise RuntimeError.
Proof.
  split.
  - apply (proj1 (get_coordination_sentinel_first [[-1; 0]] [[1; -1]] [7; 3; 5] 0
                    false 0 5 eq_refl)); [reflexivity | lia | by exists 7].
  - apply (proj2 (get_coordination_sentinel_first [[-1; -1]] [[1; -1]] [7; 3; 5] 0
                    false 0 5 eq_refl)). reflexivity.
Defined.

(** ** Network compiler: what the compiled arrays hold *)

(** Row [id] after the loop over one side: the entry ids of the side
    stand in the columns from [idx] on, the other columns are as they
    were. *)
Lemma record_side_row d channel id : forall side idx arr m counts arr' m' counts' row,
  0 <= id -> 0 <= idx ->
  record_side d channel id idx side arr m counts = Ok (arr', m', counts') ->
  arr !! Z.to_nat id = Some row ->
  arr' !! Z.to_nat id
  = Some (take (Z.to_nat idx) row ++ side ++ drop (Z.to_nat idx + length side) row).
Proof.
  induction side as [|entry side IH];
    intros idx arr m counts arr' m' counts' row Hid Hidx H Hrow.
  - cbn in H. injection H as <- <- <-. rewrite Hrow. f_equal.
    cbn [app length]. by rewrite Nat.add_0_r, take_drop.
  - cbn [record_side] in H.
    destruct (Py.setitem2 arr id idx entry) as [arr1|] eqn:E1; [|done].
    cbn [rbind] in H. inv_bind H.
    apply setitem2_nonneg in E1 as (row0 & Hrow0 & Hlt & ->); [|done..].
    assert (row0 = row) as -> by congruence.
    eapply IH in H; [|lia..|].
    2:{ apply list_lookup_insert_eq. by eapply lookup_lt_Some. }
    rewrite H. f_equal.
    replace (Z.to_nat (idx + 1)) with (S (Z.to_nat idx)) by lia.
    rewrite (take_S_r _ _ entry) by (by apply list_lookup_insert_eq).
    rewrite take_insert_ge by lia.
    rewrite drop_insert_lt by lia.
    cbn [length app]. rewrite <- app_assoc. cbn [app].
    by replace (S (Z.to_nat idx) + length side)%nat
      with (Z.to_nat idx + S (length side))%nat by lia.
Qed.

Lemma record_side_length d channel id : forall side idx arr m counts arr' m' counts',
  record_side d channel id idx side arr m counts = Ok (arr', m', counts') ->
  length arr' = length arr.
Proof.
  induction side as [|entry side IH]; intros idx arr m counts arr' m' counts' H.
  - cbn in H. by injection H as <- <- <-.
  - cbn [record_side] in H.
    destruct (Py.setitem2 arr id idx entry) as [arr1|] eqn:E1; [|done].
    cbn [rbind] in H. inv_bind H. apply IH in H. rewrite H.
    unfold Py.setitem2 in E1. inv_bind E1. by apply setitem_length in E1.
Qed.

(** One iteration of the loop over the reactions, array by array. *)
Lemma compile_reaction_effect d id reaction t t' :
  0 <= id ->
  compile_reaction d id reaction t = Ok t' ->
  (forall row, reactant_array t !! Z.to_nat id = Some row ->
     reactant_array t' !! Z.to_nat id
     = Some (Reaction.reactants reaction
             ++ drop (length (Reaction.reactants reaction)) row)) /\
  (forall row, product_array t !! Z.to_nat id = Some row ->
     product_array t' !! Z.to_nat id
     = Some (Reaction.products reaction
             ++ drop (length (Reaction.products reaction)) row)) /\
  (forall j : nat, j <> Z.to_nat id ->
     reactant_array t' !! j = reactant_array t !! j /\
     product_array t' !! j = product_array t !! j) /\
  length (reactant_array t') = length (reactant_array t) /\
  length (product_array t') = length (product_array t) /\
  rate_constants t'
  = <[Z.to_nat (2 * id + 1) := Reaction.k_B reaction]>
      (<[Z.to_nat (2 * id) := Reaction.k_A reaction]> (rate_constants t)) /\
  (Z.to_nat (2 * id + 1) < length (rate_constants t))%nat /\
  length (coord_array t') = length (coord_array t) /\
  (Z.to_nat (2 * id + 1) < length (coord_array t))%nat.
Proof.
  intros Hid H.
  apply compile_reaction_inv in H
    as (rc1 & ra & m1 & nrf & pa & m2 & nrr & hf & ca1 & hr &
        Hrc1 & Hrc2 & Hfor & Hrev & _ & Hca1 & _ & Hca2 & _ & Hra & Hpa).
  subst ra pa.
  pose proof (record_side_length _ _ _ _ _ _ _ _ _ _ _ Hfor) as Hlf.
  pose proof (record_side_length _ _ _ _ _ _ _ _ _ _ _ Hrev) as Hlr.
  pose proof Hfor as Hfor'. pose proof Hrev as Hrev'.
  apply record_side_arr in Hfor' as (_ & Hof & _); [|lia..].
  apply record_side_arr in Hrev' as (_ & Hor & _); [|lia..].
  apply setitem_nonneg in Hrc1 as [-> Hl1]; [|lia].
  apply setitem_nonneg in Hrc2 as [Hrc2 Hl2]; [|lia].
  rewrite length_insert in Hl2.
  apply setitem_nonneg in Hca1 as [-> Hl3]; [|lia].
  apply setitem_nonneg in Hca2 as [Hca2 Hl4]; [|lia].
  rewrite length_insert in Hl4.
  split; [|split; [|split; [|split; [|split; [|split; [|split; [|split]]]]]]];
    try done.
  - intros row Hrow.
    rewrite (record_side_row _ _ _ _ _ _ _ _ _ _ _ row Hid (Z.le_refl 0) Hfor Hrow).
    reflexivity.
  - intros row Hrow.
    rewrite (record_side_row _ _ _ _ _ _ _ _ _ _ _ row Hid (Z.le_refl 0) Hrev Hrow).
    reflexivity.
  - intros j Hj. by rewrite Hof, Hor.
  - by rewrite Hca2, !length_insert.
Qed.

(** The loop over the reactions, from fresh rows: reaction [id0 + j]
    has its sides in row [id0 + j], padded with the sentinel, and its
    rate constants in cells [2 (id0 + j)] and [2 (id0 + j) + 1]; rows and
    cells below [id0] are as they were; no array changes length. *)
Lemma compile_reactions_table d : forall reactions id0 t t',
  0 <= id0 ->
  compile_reactions d id0 reactions t = Ok t' ->
  (forall r : nat, (r < Z.to_nat id0)%nat ->
     reactant_array t' !! r = reactant_array t !! r /\
     product_array t' !! r = product_array t !! r) /\
  (forall k : nat, (k < Z.to_nat (2 * id0))%nat ->
     rate_constants t' !! k = rate_constants t !! k) /\
  length (reactant_array t') = length (reactant_array t) /\
  length (product_array t') = length (product_array t) /\
  length (rate_constants t') = length (rate_constants t) /\
  length (coord_array t') = length (coord_array t) /\
  forall (j : nat) rxn, reactions !! j = Some rxn ->
    (forall row, reactant_array t !! (Z.to_nat id0 + j)%nat = Some row ->
       reactant_array t' !! (Z.to_nat id0 + j)%nat
       = Some (Reaction.reactants rxn ++ drop (length (Reaction.reactants rxn)) row)) /\
    (forall row, product_array t !! (Z.to_nat id0 + j)%nat = Some row ->
       product_array t' !! (Z.to_nat id0 + j)%nat
       = Some (Reaction.products rxn ++ drop (length (Reaction.products rxn)) row)) /\
    rate_constants t' !! (2 * (Z.to_nat id0 + j))%nat = Some (Reaction.k_A rxn) /\
    rate_constants t' !! (2 * (Z.to_nat id0 + j) + 1)%nat = Some (Reaction.k_B rxn).
Proof.
  induction reactions as [|reaction reactions IH]; intros id0 t t' Hid H.
  - cbn in H. injection H as <-. repeat split; auto; done.
  - cbn [compile_reactions] in H.
    destruct (compile_reaction d id0 reaction t) as [t1|] eqn:E1; [|done].
    cbn [rbind] in H.
    apply compile_reaction_effect in E1
      as (Hra & Hpa & Hother & Hlra & Hlpa & Hrc & Hlrc & Hlca & Hlca'); [|done].
    apply IH in H as (Hrows & Hcells & Hl1 & Hl2 & Hl3 & Hl4 & Hrest); [|lia].
    assert (Hlrc1 : length (rate_constants t1) = length (rate_constants t))
      by (by rewrite Hrc, !length_insert).
    split; [|split; [|split; [|split; [|split; [|split]]]]]; try congruence.
    + intros r Hr. destruct (Hrows r ltac:(lia)) as [-> ->].
      apply Hother. lia.
    + intros k Hk. rewrite (Hcells k) by lia. rewrite Hrc.
      by rewrite !list_lookup_insert_ne by lia.
    + intros [|j] rxn Hj.
      * injection Hj as ->. rewrite Nat.add_0_r.
        destruct (Hrows (Z.to_nat id0) ltac:(lia)) as [Hr1 Hr2].
        split; [|split; [|split]].
        -- intros row Hrow. rewrite Hr1. by apply Hra.
        -- intros row Hrow. rewrite Hr2. by apply Hpa.
        -- rewrite (Hcells (2 * Z.to_nat id0)%nat) by lia. rewrite Hrc.
           rewrite list_lookup_insert_ne by lia.
           replace (2 * Z.to_nat id0)%nat with (Z.to_nat (2 * id0)) by lia.
           apply list_lookup_insert_eq. lia.
        -- rewrite (Hcells (2 * Z.to_nat id0 + 1)%nat) by lia. rewrite Hrc.
           replace (2 * Z.to_nat id0 + 1)%nat with (Z.to_nat (2 * id0 + 1)) by lia.
           apply list_lookup_insert_eq. rewrite length_insert. lia.
      * change ((reaction :: reactions) !! S j) with (reactions !! j) in Hj.
        destruct (Hrest j rxn Hj) as (Ha & Hb & Hc & Hd).
        replace (Z.to_nat (id0 + 1) + j)%nat with (Z.to_nat id0 + S j)%nat in * by lia.
        destruct (Hother (Z.to_nat id0 + S j)%nat ltac:(lia)) as [Ho1 Ho2].
        split; [|split; [|split]]; try done.
        -- intros row Hrow. apply Ha. by rewrite Ho1.
        -- intros row Hrow. apply Hb. by rewrite Ho2.
Qed.

Lemma initial_coordination_Ok side counts h :
  initial_coordination side counts = Ok h ->
  length side = 1%nat \/ length side = 2%nat.
Proof.
  unfold initial_coordination.
  destruct (Nat.eqb_spec (length side) 1); [auto|].
  destruct (Nat.eqb_spec (length side) 2); [auto | done].
Qed.

Lemma fill_initial_state_length : forall items st st',
  fill_initial_state items st = Ok st' -> length st' = length st.
Proof.
  induction items as [|[mol_id amount] items IH]; intros st st' H.
  - cbn in H. by injection H as <-.
  - cbn [fill_initial_state] in H. inv_bind H. apply IH in H.
    rewrite H. by eapply setitem_length.
Qed.

Lemma fresh_rows (num_rxns r : nat) (row : list Z) :
  replicate num_rxns [-1; -1] !! r = Some row -> row = [-1; -1].
Proof. intros H. by apply lookup_replicate in H as [-> _]. Qed.

(** X6. Shape of the compiled arrays: for [num_rxns] reactions and
    [num_entries] species, the two species tables have [num_rxns] rows,
    the coordination and rate-constant vectors [2 num_rxns] cells, the
    dependency table and the initial state [num_entries] rows; reaction
    [id] has [k_A] in cell [2 id] and [k_B] in cell [2 id + 1] of the
    rate-constant vector. *)
Theorem compiled_shape num_entries d reactions out :
  initialize_simulation num_entries d reactions = Ok out ->
  length (c_reactants out) = length reactions /\
  length (c_products out) = length reactions /\
  length (c_coord_array out) = (2 * length reactions)%nat /\
  length (c_rate_constants out) = (2 * length reactions)%nat /\
  length (c_species_rxn_mapping out) = num_entries /\
  length (c_initial_state out) = num_entries /\
  forall (id : nat) rxn, reactions !! id = Some rxn ->
    c_rate_constants out !! (2 * id)%nat = Some (Reaction.k_A rxn) /\
    c_rate_constants out !! (2 * id + 1)%nat = Some (Reaction.k_B rxn).
Proof.
  intros Hinit. pose proof Hinit as Hinit'.
  apply initialize_simulation_inv in Hinit
    as (t & w & Hcomp & Hmax & Hpad & -> & -> & -> & ->).
  pose proof Hcomp as Hcomp'.
  apply compile_reactions_table in Hcomp
    as (_ & _ & Hl1 & Hl2 & Hl3 & Hl4 & Hrxn); [|lia].
  apply compile_reactions_mapping in Hcomp' as (Hlm & _); [|lia].
  cbn [fresh_tables reactant_array product_array rate_constants coord_array
       species_rxn_mapping_list] in *.
  rewrite length_replicate in Hl1. rewrite length_replicate in Hl2.
  rewrite length_replicate in Hl3. rewrite length_replicate in Hl4.
  rewrite length_replicate in Hlm.
  split; [done|]. split; [done|]. split; [done|]. split; [done|].
  split; [|split].
  - apply py_max_bound in Hmax. rewrite List.Forall_map in Hmax.
    rewrite (pad_rows_spec _ _ Hmax) in Hpad. injection Hpad as <-.
    by rewrite length_map.
  - unfold initialize_simulation in Hinit'.
    destruct (fill_initial_state _ _) as [st0|] eqn:E; [|done].
    cbn [rbind] in Hinit'. inv_bind Hinit'. injection Hinit' as <-.
    cbn [c_initial_state]. apply fill_initial_state_length in E.
    by rewrite length_replicate in E.
  - intros id rxn Hid. destruct (Hrxn id rxn Hid) as (_ & _ & Ha & Hb).
    change (Z.to_nat 0) with 0%nat in *. rewrite Nat.add_0_l in *. done.
Qed.

Lemma compiled_shape_witness :
  length (c_reactants dimer_compiled) = length dimer_reactions /\
  length (c_products dimer_compiled) = length dimer_reactions /\
  length (c_coord_array dimer_compiled) = (2 * length dimer_reactions)%nat /\
  length (c_rate_constants dimer_compiled) = (2 * length dimer_reactions)%nat /\
  length (c_species_rxn_mapping dimer_compiled) = 3%nat /\
  length (c_initial_state dimer_compiled) = 3%nat /\
  forall (id : nat) rxn, dimer_reactions !! id = Some rxn ->
    c_rate_constants dimer_compiled !! (2 * id)%nat = Some (Reaction.k_A rxn) /\
    c_rate_constants dimer_compiled !! (2 * id + 1)%nat = Some (Reaction.k_B rxn).
Proof.
  apply (compiled_shape 3 {[ 0 := 100 ]} dimer_reactions dimer_compiled).
  vm_compute. reflexivity.
Defined.

(** X7. The species tables encode the reactions: when compilation
    succeeds every reaction has one or two species on each side, row
    [id] of the reactant (product) table is the reactant (product) side
    of reaction [id] followed by sentinels up to two slots, and, for a
    side without the id [-1], dropping the sentinels from the row gives
    the side back. *)
Theorem compiled_rows_encode_sides num_entries d reactions out (id : nat) rxn :
  initialize_simulation num_entries d reactions = Ok out ->
  reactions !! id = Some rxn ->
  let rs := Reaction.reactants rxn in
  let ps := Reaction.products rxn in
  (length rs = 1%nat \/ length rs = 2%nat) /\
  (length ps = 1%nat \/ length ps = 2%nat) /\
  c_reactants out !! id = Some (rs ++ replicate (2 - length rs) (-1)) /\
  c_products out !! id = Some (ps ++ replicate (2 - length ps) (-1)) /\
  (-1 ∉ rs ->
   forall row, c_reactants out !! id = Some row -> filter (fun x => x ≠ -1) row = rs) /\
  (-1 ∉ ps ->
   forall row, c_products out !! id = Some row -> filter (fun x => x ≠ -1) row = ps).
Proof.
  intros Hinit Hid rs ps.
  apply initialize_simulation_inv in Hinit
    as (t & w & Hcomp & _ & _ & -> & -> & _ & _).
  pose proof Hcomp as Hcomp'.
  apply compile_reactions_table in Hcomp as (_ & _ & _ & _ & _ & _ & Hrxn); [|lia].
  apply compile_reactions_arrays in Hcomp'
    as (_ & _ & _ & _ & Harr); [|lia|apply Forall_replicate; done..].
  destruct (Harr id rxn Hid) as ((hf & Hhf & _) & (hr & Hhr & _) & _).
  apply initial_coordination_Ok in Hhf, Hhr. fold rs in Hhf. fold ps in Hhr.
  destruct (Hrxn id rxn Hid) as (Ha & Hb & _).
  change (Z.to_nat 0) with 0%nat in *. rewrite Nat.add_0_l in *.
  cbn [fresh_tables reactant_array product_array] in Ha, Hb.
  assert (Hfresh : replicate (length reactions) [-1; -1] !! id = Some [-1; -1]).
  { apply lookup_replicate_2. by eapply lookup_lt_Some. }
  specialize (Ha _ Hfresh). specialize (Hb _ Hfresh). fold rs in Ha. fold ps in Hb.
  assert (Hpad : forall side : list Z, length side = 1%nat \/ length side = 2%nat ->
            drop (length side) [-1; -1] = replicate (2 - length side) (-1)).
  { intros side [->| ->]; reflexivity. }
  rewrite Hpad in Ha, Hb by done.
  assert (Hdecode : forall side : list Z, -1 ∉ side ->
            filter (fun x => x ≠ -1) (side ++ replicate (2 - length side) (-1)) = side).
  { intros side Hside. rewrite filter_app.
    assert (H1 : filter (fun x => x ≠ -1) side = side).
    { clear -Hside. induction side as [|x side IH]; [done|].
      rewrite filter_cons_True by set_solver. f_equal. apply IH. set_solver. }
    assert (H2 : forall k, filter (fun x => x ≠ -1) (replicate k (-1)) = []).
    { induction k as [|k IH]; [done|]. cbn [replicate].
      rewrite filter_cons_False by (intros H; by apply H). done. }
    by rewrite H1, H2, app_nil_r. }
  split; [done|]. split; [done|]. split; [done|]. split; [done|]. split.
  - intros Hne row Hrow. rewrite Ha in Hrow. injection Hrow as <-. by apply Hdecode.
  - intros Hne row Hrow. rewrite Hb in Hrow. injection Hrow as <-. by apply Hdecode.
Qed.

Lemma compiled_rows_encode_sides_witness :
  let rs := Reaction.reactants (Reaction.mk [0; 0] [1] 1 1) in
  let ps := Reaction.products (Reaction.mk [0; 0] [1] 1 1) in
  (length rs = 1%nat \/ length rs = 2%nat) /\
  (length ps = 1%nat \/ length ps = 2%nat) /\
  c_reactants dimer_compiled !! 1%nat = Some (rs ++ replicate (2 - length rs) (-1)) /\
  c_products dimer_compiled !! 1%nat = Some (ps ++ replicate (2 - length ps) (-1)) /\
  (-1 ∉ rs ->
   forall row, c_reactants dimer_compiled !! 1%nat = Some row ->
     filter (fun x => x ≠ -1) row = rs) /\
  (-1 ∉ ps ->
   forall row, c_products dimer_compiled !! 1%nat = Some row ->
     filter (fun x => x ≠ -1) row = ps).
Proof.
  apply (compiled_rows_encode_sides 3 {[ 0 := 100 ]} dimer_reactions dimer_compiled
           1%nat (Reaction.mk [0; 0] [1] 1 1)).
  - vm_compute. reflexivity.
  - reflexivity.
Defined.

(** The loop that fills the initial state, on items with distinct
    non-negative keys: a listed species gets its amount, the others keep
    what they had. *)
Lemma fill_initial_state_spec : forall items st st',
  NoDup items.*1 ->
  Forall (fun p => 0 <= p.1) items ->
  fill_initial_state items st = Ok st' ->
  (forall (k : nat) v, (Z.of_nat k, v) ∈ items -> st' !! k = Some v) /\
  (forall k : nat, (forall v, (Z.of_nat k, v) ∉ items) -> st' !! k = st !! k).
Proof.
  induction items as [|[mol_id amount] items IH]; intros st st' Hnd Hpos H.
  - cbn in H. injection H as <-. split; [|done]. intros k v Hin. inversion Hin.
  - cbn [fill_initial_state] in H. inv_bind H.
    rewrite fmap_cons in Hnd. apply NoDup_cons in Hnd as [Hhead Hnd].
    apply Forall_cons in Hpos as [Hmol Hpos]. cbn in Hmol, Hhead.
    match goal with
    | E : Py.setitem st mol_id amount = Ok _ |- _ =>
        apply setitem_nonneg in E as [-> Hlt]; [|done]
    end.
    destruct (IH _ _ Hnd Hpos H) as [Hin Hout]. split.
    + intros k v Hk. apply elem_of_cons in Hk as [Heq|Hk]; [|by apply Hin].
      injection Heq as <- <-. rewrite Hout.
      * rewrite Nat2Z.id. apply list_lookup_insert_eq. lia.
      * intros w Hw. apply Hhead. apply list_elem_of_fmap. by exists (Z.of_nat k, w).
    + intros k Hk. rewrite Hout.
      * apply list_lookup_insert_ne. intros Heq. apply (Hk amount).
        apply elem_of_cons. left. f_equal. lia.
      * intros v Hv. apply (Hk v). apply elem_of_cons. by right.
Qed.

(** X8. The initial state is the dictionary: when every key of
    [initial_state_dict] is non-negative and compilation succeeds, cell
    [s] of the initial state is [initial_state_dict.get(s, 0)] for every
    species [s] of the table. *)
Theorem initial_state_is_dict num_entries (d : gmap Z Z) reactions out (s : nat) :
  initialize_simulation num_entries d reactions = Ok out ->
  (forall key amount, d !! key = Some amount -> 0 <= key) ->
  (s < num_entries)%nat ->
  c_initial_state out !! s = Some (dict_get d (Z.of_nat s)).
Proof.
  intros Hinit Hkeys Hs. unfold initialize_simulation in Hinit.
  destruct (fill_initial_state _ _) as [st0|] eqn:E; [|done].
  cbn [rbind] in Hinit. inv_bind Hinit. injection Hinit as <-.
  cbn [c_initial_state].
  apply fill_initial_state_spec in E as [Hin Hout].
  - unfold dict_get. destruct (d !! Z.of_nat s) as [v|] eqn:Ed; cbn [default].
    + apply Hin. by apply elem_of_map_to_list.
    + rewrite Hout.
      * by apply lookup_replicate_2.
      * intros v Hv. apply elem_of_map_to_list in Hv. congruence.
  - apply NoDup_fst_map_to_list.
  - apply Forall_forall. intros [key amount] Hp. cbn.
    apply elem_of_map_to_list in Hp. eauto.
Qed.

Lemma initial_state_is_dict_witness :
  c_initial_state dimer_compiled !! 0%nat = Some (dict_get {[ 0 := 100 ]} (Z.of_nat 0)).
Proof.
  apply (initial_state_is_dict 3 {[ 0 := 100 ]} dimer_reactions dimer_compiled 0%nat).
  - vm_compute. reflexivity.
  - intros key amount H. apply lookup_singleton_Some in H as [<- _]. lia.
  - lia.
Defined.

(** ** Network compiler: when it succeeds *)

Lemma getitem_total {A} (l : list A) i :
  0 <= i < Z.of_nat (length l) -> exists x, Py.getitem l i = Ok x /\ l !! Z.to_nat i = Some x.
Proof.
  intros Hi. destruct (lookup_lt_is_Some_2 l (Z.to_nat i)) as [x Hx]; [lia|].
  exists x. split; [|done]. apply getitem_nonneg; [lia | done].
Qed.

Lemma setitem_total {A} (l : list A) i x :
  0 <= i < Z.of_nat (length l) -> Py.setitem l i x = Ok (<[Z.to_nat i := x]> l).
Proof. intros Hi. unfold Py.setitem. by rewrite norm_nonneg. Qed.

Lemma record_side_total d channel id : forall side idx arr m counts,
  0 <= id < Z.of_nat (length arr) ->
  rows_of_two arr ->
  0 <= idx -> idx + Z.of_nat (length side) <= 2 ->
  Forall (fun e => 0 <= e < Z.of_nat (length m)) side ->
  exists arr' m' counts',
    record_side d channel id idx side arr m counts = Ok (arr', m', counts') /\
    length arr' = length arr /\ rows_of_two arr' /\ length m' = length m.
Proof.
  induction side as [|entry side IH]; intros idx arr m counts Hid Hrows Hidx Hfit Hside.
  - exists arr, m, counts. by cbn.
  - apply Forall_cons in Hside as [Hentry Hside]. cbn [length] in Hfit.
    cbn [record_side].
    destruct (getitem_total arr id Hid) as (row & Hrow & Hrow').
    assert (Hlen : length row = 2%nat).
    { unfold rows_of_two in Hrows. rewrite Forall_lookup in Hrows. eauto. }
    unfold Py.setitem2. rewrite Hrow. cbn [rbind].
    rewrite (setitem_total row idx entry) by lia. cbn [rbind].
    rewrite (setitem_total arr id) by lia. cbn [rbind].
    destruct (getitem_total m entry Hentry) as (l & Hl & _). rewrite Hl. cbn [rbind].
    rewrite (setitem_total m entry) by lia. cbn [rbind].
    set (arr1 := <[Z.to_nat id := <[Z.to_nat idx := entry]> row]> arr).
    set (m1 := <[Z.to_nat entry := l ++ [channel]]> m).
    destruct (IH (idx + 1) arr1 m1 (counts ++ [dict_get d entry]))
      as (arr' & m' & counts' & -> & Hl1 & Hr1 & Hl2).
    + unfold arr1. rewrite length_insert. lia.
    + unfold arr1, rows_of_two in *. apply Forall_insert; [done|].
      by rewrite length_insert.
    + lia.
    + lia.
    + unfold m1. by rewrite length_insert.
    + exists arr', m', counts'. split; [done|].
      unfold arr1, m1 in *. rewrite length_insert in Hl1, Hl2. done.
Qed.

Lemma initial_coordination_total (side : list Z) (f : Z -> Z) :
  length side = 1%nat \/ length side = 2%nat ->
  exists h, initial_coordination side (map f side) = Ok h.
Proof.
  intros [H|H].
  - destruct side as [|a [|b side]]; try done. by eexists.
  - destruct side as [|a [|b [|c side]]]; try done.
    unfold initial_coordination. cbn [length Nat.eqb map].
    change (Py.getitem [a; b] 0) with (Ok (A := Z) a).
    change (Py.getitem [a; b] 1) with (Ok (A := Z) b).
    cbn [rbind]. destruct (a =? b); by eexists.
Qed.

Lemma compile_reaction_total d id reaction t :
  0 <= id ->
  (Z.to_nat id < length (reactant_array t))%nat ->
  (Z.to_nat id < length (product_array t))%nat ->
  (Z.to_nat (2 * id + 1) < length (rate_constants t))%nat ->
  (Z.to_nat (2 * id + 1) < length (coord_array t))%nat ->
  rows_of_two (reactant_array t) -> rows_of_two (product_array t) ->
  supported (length (species_rxn_mapping_list t)) reaction ->
  exists t', compile_reaction d id reaction t = Ok t' /\
    rows_of_two (reactant_array t') /\ rows_of_two (product_array t') /\
    length (species_rxn_mapping_list t') = length (species_rxn_mapping_list t).
Proof.
  intros Hid Hra Hpa Hrc Hca Hrows_r Hrows_p [[Hlr Hr] [Hlp Hp]].
  unfold compile_reaction.
  rewrite (setitem_total (rate_constants t) (2 * id)) by lia. cbn [rbind].
  rewrite setitem_total by (rewrite length_insert; lia). cbn [rbind].
  destruct (record_side_total d (2 * id) id (Reaction.reactants reaction) 0
              (reactant_array t) (species_rxn_mapping_list t) [])
    as (ra & m1 & nrf & Hfor & Hl1 & Hr1 & Hm1); [lia | done | lia | lia | done |].
  rewrite Hfor. cbn [rbind].
  destruct (record_side_total d (2 * id + 1) id (Reaction.products reaction) 0
              (product_array t) m1 [])
    as (pa & m2 & nrr & Hrev & Hl2 & Hr2 & Hm2);
    [lia | done | lia | lia | by rewrite Hm1 |].
  rewrite Hrev. cbn [rbind].
  apply record_side_arr in Hfor as (_ & _ & -> & _); [|lia..].
  apply record_side_arr in Hrev as (_ & _ & -> & _); [|lia..].
  cbn [app].
  destruct (initial_coordination_total (Reaction.reactants reaction) (dict_get d) Hlr)
    as [hf ->].
  cbn [rbind]. rewrite (setitem_total (coord_array t) (2 * id)) by lia. cbn [rbind].
  destruct (initial_coordination_total (Reaction.products reaction) (dict_get d) Hlp)
    as [hr ->].
  cbn [rbind]. rewrite setitem_total by (rewrite length_insert; lia). cbn [rbind].
  eexists. split; [reflexivity|]. cbn. repeat split; auto. congruence.
Qed.

Lemma compile_reactions_total d : forall reactions id0 t,
  0 <= id0 ->
  (Z.to_nat id0 + length reactions <= length (reactant_array t))%nat ->
  (Z.to_nat id0 + length reactions <= length (product_array t))%nat ->
  (2 * (Z.to_nat id0 + length reactions) <= length (rate_constants t))%nat ->
  (2 * (Z.to_nat id0 + length reactions) <= length (coord_array t))%nat ->
  rows_of_two (reactant_array t) -> rows_of_two (product_array t) ->
  Forall (supported (length (species_rxn_mapping_list t))) reactions ->
  exists t', compile_reactions d id0 reactions t = Ok t'.
Proof.
  induction reactions as [|reaction reactions IH];
    intros id0 t Hid Hra Hpa Hrc Hca Hrows_r Hrows_p Hsup.
  - by exists t.
  - apply Forall_cons in Hsup as [Hhead Hsup]. cbn [length] in *.
    cbn [compile_reactions].
    destruct (compile_reaction_total d id0 reaction t)
      as (t1 & E1 & Hr1 & Hp1 & Hm1); [lia..|done|done|done|].
    rewrite E1. cbn [rbind].
    apply compile_reaction_effect in E1
      as (_ & _ & _ & Hlra & Hlpa & Hrc1 & _ & Hlca & _); [|done].
    apply IH; try done; try lia.
    + rewrite Hrc1, !length_insert. lia.
    + by rewrite Hm1.
Qed.

Lemma fill_initial_state_total : forall items st,
  Forall (fun p => 0 <= p.1 < Z.of_nat (length st)) items ->
  exists st', fill_initial_state items st = Ok st'.
Proof.
  induction items as [|[mol_id amount] items IH]; intros st Hitems.
  - by exists st.
  - apply Forall_cons in Hitems as [Hhead Hitems]. cbn in Hhead.
    cbn [fill_initial_state]. rewrite setitem_total by done. cbn [rbind].
    apply IH. by rewrite length_insert.
Qed.

(** X9. Compilation succeeds on every well-formed input: a non-empty
    species table, dictionary keys that are species of the table, and
    reactions with one or two species of the table on each side. *)
Theorem initialize_simulation_succeeds num_entries (d : gmap Z Z) reactions :
  (0 < num_entries)%nat ->
  (forall key amount, d !! key = Some amount -> 0 <= key < Z.of_nat num_entries) ->
  Forall (supported num_entries) reactions ->
  exists out, initialize_simulation num_entries d reactions = Ok out.
Proof.
  intros Hn Hkeys Hsup. unfold initialize_simulation.
  destruct (fill_initial_state_total (map_to_list d) (replicate num_entries 0))
    as [st0 ->].
  { apply Forall_forall. intros [key amount] Hp. cbn.
    apply elem_of_map_to_list in Hp. rewrite length_replicate. eauto. }
  cbn [rbind].
  destruct (compile_reactions_total d reactions 0
              (fresh_tables num_entries (length reactions))) as [t Ht];
    cbn [fresh_tables reactant_array product_array rate_constants coord_array
         species_rxn_mapping_list]; rewrite ?length_replicate;
    try lia; try (apply Forall_replicate; done); try done.
  rewrite Ht. cbn [rbind].
  apply compile_reactions_mapping in Ht as (Hlen & _); [|lia].
  cbn [fresh_tables species_rxn_mapping_list] in Hlen.
  rewrite length_replicate in Hlen.
  destruct (species_rxn_mapping_list t) as [|l ls] eqn:El; [cbn in Hlen; lia|].
  cbn [map py_max rbind]. rewrite <- El.
  assert (Hmax : py_max (map length (species_rxn_mapping_list t))
                 = Ok (foldl Nat.max (length l) (map length ls)))
    by (by rewrite El).
  apply py_max_bound in Hmax. rewrite List.Forall_map in Hmax.
  rewrite (pad_rows_spec _ _ Hmax). cbn [rbind]. by eexists.
Qed.

Lemma initialize_simulation_succeeds_witness :
  exists out, initialize_simulation 3 {[ 0 := 100 ]} dimer_reactions = Ok out.
Proof.
  apply (initialize_simulation_succeeds 3 {[ 0 := 100 ]} dimer_reactions).
  - lia.
  - intros key amount H. apply lookup_singleton_Some in H as [<- _]. lia.
  - unfold dimer_reactions, supported, supported_side. cbn.
    repeat first [ apply Forall_nil | apply Forall_cons; split | split ];
      cbn; first [ lia | left; reflexivity | right; reflexivity ].
Defined.

(** ** Network compiler and coordination calculator together *)

Lemma record_side_valid d channel id : forall side idx arr m counts arr' m' counts',
  record_side d channel id idx side arr m counts = Ok (arr', m', counts') ->
  Forall (fun e => exists k, Py.norm (length m) e = Some k) side.
Proof.
  induction side as [|entry side IH]; intros idx arr m counts arr' m' counts' H;
    [constructor|].
  cbn [record_side] in H. inv_bind H.
  match goal with
  | E : Py.getitem m entry = Ok _, E' : Py.setitem m entry _ = Ok _ |- _ =>
      apply getitem_Ok in E as (k & Hk & _); apply setitem_length in E' as Hlen
  end.
  constructor; [eauto|]. apply IH in H. by rewrite Hlen in H.
Qed.

(** Every entry id of a compiled reaction is an index of the species
    table. *)
Lemma compile_reactions_valid d : forall reactions id0 t t',
  0 <= id0 ->
  compile_reactions d id0 reactions t = Ok t' ->
  forall rxn e, rxn ∈ reactions ->
    e ∈ Reaction.reactants rxn \/ e ∈ Reaction.products rxn ->
    exists k, Py.norm (length (species_rxn_mapping_list t)) e = Some k.
Proof.
  induction reactions as [|reaction reactions IH]; intros id0 t t' Hid H rxn e Hin He.
  { by apply elem_of_nil in Hin. }
  cbn [compile_reactions] in H.
  destruct (compile_reaction d id0 reaction t) as [t1|] eqn:E1; [|done].
  cbn [rbind] in H.
  pose proof E1 as E1'.
  apply compile_reaction_inv in E1
    as (rc1 & ra & m1 & nrf & pa & m2 & nrr & hf & ca1 & hr &
        _ & _ & Hfor & Hrev & _ & _ & _ & _ & Hm & _ & _).
  pose proof (record_side_mapping _ _ _ _ _ _ _ _ _ _ _ Hfor) as [Hl1 _].
  pose proof (record_side_mapping _ _ _ _ _ _ _ _ _ _ _ Hrev) as [Hl2 _].
  apply elem_of_cons in Hin as [->|Hin].
  - apply record_side_valid in Hfor, Hrev. rewrite Forall_forall in Hfor, Hrev.
    destruct He as [He|He]; [by apply Hfor|].
    rewrite Hl1 in Hrev. by apply Hrev.
  - destruct (IH (id0 + 1) t1 t' ltac:(lia) H rxn e Hin He) as [k Hk].
    exists k. by rewrite Hm, Hl2, Hl1 in Hk.
Qed.

(** The facts about the compiled arrays that the agreement with the
    runtime calculator rests on. *)
Lemma compiled_side_facts num_entries (d : gmap Z Z) reactions out (id : nat) rxn :
  initialize_simulation num_entries d reactions = Ok out ->
  (forall key amount, d !! key = Some amount -> 0 <= key) ->
  reactions !! id = Some rxn ->
  let rs := Reaction.reactants rxn in
  let ps := Reaction.products rxn in
  Py.getitem (c_reactants out) (Z.of_nat id) = Ok (rs ++ replicate (2 - length rs) (-1)) /\
  Py.getitem (c_products out) (Z.of_nat id) = Ok (ps ++ replicate (2 - length ps) (-1)) /\
  (exists hf, initial_coordination rs (map (dict_get d) rs) = Ok hf /\
     c_coord_array out !! (2 * id)%nat = Some hf) /\
  (exists hr, initial_coordination ps (map (dict_get d) ps) = Ok hr /\
     c_coord_array out !! (2 * id + 1)%nat = Some hr) /\
  (forall e, e ∈ rs \/ e ∈ ps -> 0 <= e ->
     Py.getitem (c_initial_state out) e = Ok (dict_get d e)).
Proof.
  intros Hinit Hkeys Hid rs ps. pose proof Hinit as Hinit'.
  apply initialize_simulation_inv in Hinit
    as (t & w & Hcomp & _ & _ & -> & -> & -> & _).
  pose proof Hcomp as Hcomp1. pose proof Hcomp as Hcomp2.
  apply compile_reactions_table in Hcomp as (_ & _ & _ & _ & _ & _ & Hrxn); [|lia].
  apply compile_reactions_arrays in Hcomp1
    as (_ & _ & _ & _ & Harr); [|lia|apply Forall_replicate; done..].
  destruct (Harr id rxn Hid) as ((hf & Hhf & Hcf) & (hr & Hhr & Hcr) & _).
  pose proof (initial_coordination_Ok _ _ _ Hhf) as Hlr.
  pose proof (initial_coordination_Ok _ _ _ Hhr) as Hlp.
  fold rs in Hlr, Hhf. fold ps in Hlp, Hhr.
  destruct (Hrxn id rxn Hid) as (Ha & Hb & _).
  change (Z.to_nat 0) with 0%nat in *. rewrite Nat.add_0_l in *.
  rewrite Z.add_0_l in Hcf, Hcr.
  cbn [fresh_tables reactant_array product_array] in Ha, Hb.
  assert (Hfresh : replicate (length reactions) [-1; -1] !! id = Some [-1; -1]).
  { apply lookup_replicate_2. by eapply lookup_lt_Some. }
  specialize (Ha _ Hfresh). specialize (Hb _ Hfresh). fold rs in Ha. fold ps in Hb.
  assert (Hpad : forall side : list Z, length side = 1%nat \/ length side = 2%nat ->
            drop (length side) [-1; -1] = replicate (2 - length side) (-1)).
  { intros side [->| ->]; reflexivity. }
  rewrite Hpad in Ha, Hb by done.
  split; [apply getitem_nonneg; [lia | by rewrite Nat2Z.id]|].
  split; [apply getitem_nonneg; [lia | by rewrite Nat2Z.id]|].
  split.
  { exists hf. split; [done|]. rewrite <- Hcf. f_equal. lia. }
  split.
  { exists hr. split; [done|]. rewrite <- Hcr. f_equal. lia. }
  intros e He He0.
  destruct (compile_reactions_valid d reactions 0 _ t ltac:(lia) Hcomp2 rxn e) as [k Hk];
    [by eapply list_elem_of_lookup_2 | done |].
  cbn [fresh_tables species_rxn_mapping_list] in Hk. rewrite length_replicate in Hk.
  apply norm_nonneg_inv in Hk as [-> Hlt]; [|done].
  unfold initialize_simulation in Hinit'.
  destruct (fill_initial_state _ _) as [st0|] eqn:E; [|done].
  cbn [rbind] in Hinit'. inv_bind Hinit'. injection Hinit' as <-.
  cbn [c_initial_state]. apply getitem_nonneg; [done|].
  apply fill_initial_state_spec in E as [Hin Hout].
  - unfold dict_get. destruct (d !! e) as [v|] eqn:Ed; cbn [default].
    + apply Hin. rewrite Z2Nat.id by done. by apply elem_of_map_to_list.
    + rewrite Hout.
      * apply lookup_replicate_2. lia.
      * intros v Hv. apply elem_of_map_to_list in Hv.
        rewrite Z2Nat.id in Hv by done. congruence.
  - apply NoDup_fst_map_to_list.
  - apply Forall_forall. intros [key amount] Hp. cbn.
    apply elem_of_map_to_list in Hp. eauto.
Qed.

(** The two calculators on a side without a repeated species. *)
Lemma coordination_agree_on_side (reactants products : list (list Z)) (st : list Z)
    (d : gmap Z Z) rxn_id (reverse : bool) (side : list Z) hf :
  Py.getitem (if reverse then products else reactants) rxn_id
    = Ok (side ++ replicate (2 - length side) (-1)) ->
  initial_coordination side (map (dict_get d) side) = Ok hf ->
  NoDup side ->
  Forall (fun e => 0 <= e) side ->
  (forall a b, a ∈ side -> b ∈ side -> a <> b ->
     - 2 ^ 63 <= dict_get d a * dict_get d b < 2 ^ 63) ->
  (forall e, e ∈ side -> Py.getitem st e = Ok (dict_get d e)) ->
  get_coordination reactants products st rxn_id reverse = Ok hf.
Proof.
  intros Hrow Hhf Hnd Hpos Hfit Hst.
  destruct (get_coordination_cases reactants products st rxn_id reverse _ Hrow)
    as (H1 & H2 & _).
  destruct (initial_coordination_Ok _ _ _ Hhf) as [Hlen|Hlen].
  - destruct side as [|a [|b side]]; try done.
    apply Forall_cons in Hpos as [Ha _].
    cbn in Hhf. injection Hhf as <-.
    apply (H1 a); [reflexivity | lia | apply Hst, elem_of_cons; by left].
  - destruct side as [|a [|b [|c side]]]; try done.
    apply Forall_cons in Hpos as [Ha Hpos]. apply Forall_cons in Hpos as [Hb _].
    apply NoDup_cons in Hnd as [Hab _].
    assert (Hina : a ∈ [a; b]) by (apply elem_of_cons; by left).
    assert (Hinb : b ∈ [a; b])
      by (apply elem_of_cons; right; apply elem_of_cons; by left).
    assert (a <> b) by (intros ->; apply Hab, elem_of_cons; by left).
    unfold initial_coordination in Hhf. cbn [length Nat.eqb map] in Hhf.
    change (Py.getitem [a; b] 0) with (Ok (A := Z) a) in Hhf.
    change (Py.getitem [a; b] 1) with (Ok (A := Z) b) in Hhf.
    cbn [rbind] in Hhf. destruct (Z.eqb_spec a b); [done|].
    cbn in Hhf. injection Hhf as <-.
    rewrite <- (int64_exact (dict_get d a * dict_get d b)) by (by apply Hfit).
    apply (H2 a b); try (reflexivity || lia || done); by apply Hst.
Qed.

(** X10. Except for a side made of the same species twice, and as long
    as the product of the two initial counts of a side fits in 64 bits,
    the initial coordination numbers are those of the runtime
    calculator: for a reaction whose reactant (product) side has no
    repeated species and only non-negative ids, the cell of the forward
    (reverse) channel in the compiled coordination vector is what
    [get_coordination] returns on the compiled tables and the compiled
    initial state. *)
Theorem initial_coordination_agrees num_entries (d : gmap Z Z) reactions out
    (id : nat) rxn :
  initialize_simulation num_entries d reactions = Ok out ->
  (forall key amount, d !! key = Some amount -> 0 <= key) ->
  reactions !! id = Some rxn ->
  (NoDup (Reaction.reactants rxn) ->
   Forall (fun e => 0 <= e) (Reaction.reactants rxn) ->
   (forall a b, a ∈ Reaction.reactants rxn -> b ∈ Reaction.reactants rxn -> a <> b ->
      - 2 ^ 63 <= dict_get d a * dict_get d b < 2 ^ 63) ->
   exists h, c_coord_array out !! (2 * id)%nat = Some h /\
     get_coordination (c_reactants out) (c_products out) (c_initial_state out)
       (Z.of_nat id) false = Ok h) /\
  (NoDup (Reaction.products rxn) ->
   Forall (fun e => 0 <= e) (Reaction.products rxn) ->
   (forall a b, a ∈ Reaction.products rxn -> b ∈ Reaction.products rxn -> a <> b ->
      - 2 ^ 63 <= dict_get d a * dict_get d b < 2 ^ 63) ->
   exists h, c_coord_array out !! (2 * id + 1)%nat = Some h /\
     get_coordination (c_reactants out) (c_products out) (c_initial_state out)
       (Z.of_nat id) true = Ok h).
Proof.
  intros Hinit Hkeys Hid.
  destruct (compiled_side_facts _ _ _ _ _ _ Hinit Hkeys Hid)
    as (Hr & Hp & (hf & Hhf & Hcf) & (hr & Hhr & Hcr) & Hst).
  split; intros Hnd Hpos Hfit.
  - exists hf. split; [done|].
    apply (coordination_agree_on_side _ _ _ d _ false (Reaction.reactants rxn));
      try done.
    intros e He. apply Hst; [by left|]. rewrite Forall_forall in Hpos. auto.
  - exists hr. split; [done|].
    apply (coordination_agree_on_side _ _ _ d _ true (Reaction.products rxn));
      try done.
    intros e He. apply Hst; [by right|]. rewrite Forall_forall in Hpos. auto.
Qed.

Lemma initial_coordination_agrees_witness :
  exists h, c_coord_array dimer_compiled !! (2 * 0)%nat = Some h /\
    get_coordination (c_reactants dimer_compiled) (c_products dimer_compiled)
      (c_initial_state dimer_compiled) (Z.of_nat 0) false = Ok h.
Proof.
  refine (proj1 (initial_coordination_agrees 3 {[ 0 := 100 ]} dimer_reactions
                   dimer_compiled 0%nat (Reaction.mk [0] [1] 1 1) _ _ _) _ _ _).
  - vm_compute. reflexivity.
  - intros key amount H. apply lookup_singleton_Some in H as [<- _]. lia.
  - reflexivity.
  - cbn. apply NoDup_singleton.
  - cbn. solve_Forall.
  - cbn. intros a b Ha Hb Hab.
    apply list_elem_of_singleton in Ha, Hb. congruence.
Defined.

(** ** Network compiler: the compiled tables are well formed *)

(** The loop over one side appends its channel only to the lists of the
    species that the side designates. *)
Lemma record_side_mapping_sound d channel id : forall side idx arr m counts arr' m' counts',
  record_side d channel id idx side arr m counts = Ok (arr', m', counts') ->
  forall (k : nat) l, m !! k = Some l ->
    exists ext, m' !! k = Some (l ++ ext) /\
      Forall (fun c => c = channel /\
                exists e, e ∈ side /\ Py.norm (length m) e = Some k) ext.
Proof.
  induction side as [|entry side IH]; intros idx arr m counts arr' m' counts' H k l Hk.
  - cbn in H. injection H as <- <- <-. exists []. by rewrite app_nil_r.
  - cbn [record_side] in H. inv_bind H.
    match goal with
    | E : Py.getitem m entry = Ok ?l0, E' : Py.setitem m entry _ = Ok ?m1 |- _ =>
        apply getitem_Ok in E as (k0 & Hk0 & Hl0);
        apply setitem_Ok in E' as (k0' & Hk0' & ->)
    end.
    assert (k0' = k0) as -> by congruence. clear Hk0'.
    destruct (decide (k = k0)) as [->|Hne].
    + assert (a0 = l) as -> by congruence.
      destruct (IH _ _ _ _ _ _ _ H k0 (l ++ [channel])) as (ext & Hm' & Hall).
      { apply list_lookup_insert_eq. by eapply lookup_lt_Some. }
      exists ([channel] ++ ext). rewrite app_assoc. split; [done|].
      apply Forall_app. split.
      * constructor; [|constructor]. split; [done|]. exists entry.
        split; [set_solver | done].
      * rewrite length_insert in Hall. eapply Forall_impl; [exact Hall|].
        intros c (Hc & e & He & Hn). split; [done|]. exists e. split; [set_solver | done].
    + destruct (IH _ _ _ _ _ _ _ H k l) as (ext & Hm' & Hall).
      { by rewrite list_lookup_insert_ne. }
      exists ext. split; [done|].
      rewrite length_insert in Hall. eapply Forall_impl; [exact Hall|].
      intros c (Hc & e & He & Hn). split; [done|]. exists e. split; [set_solver | done].
Qed.

(** Every channel that compilation appends to the list of species [k]
    belongs to a reaction that designates [k] on the side the channel
    consumes. *)
Lemma compile_reactions_mapping_sound d : forall reactions id0 t t',
  0 <= id0 ->
  compile_reactions d id0 reactions t = Ok t' ->
  forall (k : nat) l, species_rxn_mapping_list t !! k = Some l ->
    exists ext, species_rxn_mapping_list t' !! k = Some (l ++ ext) /\
      Forall (fun c => exists (j : nat) rxn e,
                reactions !! j = Some rxn /\
                Py.norm (length (species_rxn_mapping_list t)) e = Some k /\
                ((c = 2 * (id0 + Z.of_nat j) /\ e ∈ Reaction.reactants rxn) \/
                 (c = 2 * (id0 + Z.of_nat j) + 1 /\ e ∈ Reaction.products rxn))) ext.
Proof.
  induction reactions as [|reaction reactions IH]; intros id0 t t' Hid H k l Hk.
  - cbn in H. injection H as <-. exists []. by rewrite app_nil_r.
  - cbn [compile_reactions] in H.
    destruct (compile_reaction d id0 reaction t) as [t1|] eqn:E1; [|done].
    cbn [rbind] in H.
    apply compile_reaction_inv in E1
      as (rc1 & ra & m1 & nrf & pa & m2 & nrr & hf & ca1 & hr &
          _ & _ & Hfor & Hrev & _ & _ & _ & _ & Hm & _ & _).
    pose proof (record_side_mapping _ _ _ _ _ _ _ _ _ _ _ Hfor) as [Hl1 _].
    pose proof (record_side_mapping _ _ _ _ _ _ _ _ _ _ _ Hrev) as [Hl2 _].
    destruct (record_side_mapping_sound _ _ _ _ _ _ _ _ _ _ _ Hfor k l Hk)
      as (e1 & Hk1 & Hall1).
    destruct (record_side_mapping_sound _ _ _ _ _ _ _ _ _ _ _ Hrev k _ Hk1)
      as (e2 & Hk2 & Hall2).
    rewrite <- Hm in Hk2.
    destruct (IH (id0 + 1) t1 t' ltac:(lia) H k _ Hk2) as (e3 & Hk3 & Hall3).
    exists (e1 ++ e2 ++ e3). split; [by rewrite Hk3, <- !app_assoc|].
    apply Forall_app; split; [|apply Forall_app; split].
    + eapply Forall_impl; [exact Hall1|]. intros c (-> & e & He & Hn).
      exists 0%nat, reaction, e. split; [done|]. split; [done|]. left.
      split; [lia | done].
    + eapply Forall_impl; [exact Hall2|]. intros c (-> & e & He & Hn).
      exists 0%nat, reaction, e. split; [done|]. rewrite Hl1 in Hn. split; [done|].
      right. split; [lia | done].
    + eapply Forall_impl; [exact Hall3|].
      intros c (j & rxn & e & Hj & Hn & Hc).
      exists (S j), rxn, e. split; [done|].
      rewrite Hm, Hl2, Hl1 in Hn. split; [done|].
      replace (id0 + Z.of_nat (S j)) with (id0 + 1 + Z.of_nat j) by lia. done.
Qed.

(** X11. The dependency table lists nothing else than dependencies:
    when no entry id is negative, a cell of row [s] of the compiled
    table holds either the sentinel or a channel whose consuming side
    contains species [s]: [2 id] for a reaction [id] with [s] among its
    reactants, [2 id + 1] for one with [s] among its products. *)
Theorem dependency_rows_sound num_entries d reactions out (s : nat) row c :
  initialize_simulation num_entries d reactions = Ok out ->
  (forall rxn e, rxn ∈ reactions ->
     e ∈ Reaction.reactants rxn \/ e ∈ Reaction.products rxn -> 0 <= e) ->
  c_species_rxn_mapping out !! s = Some row ->
  c ∈ row ->
  c = -1 \/
  exists (id : nat) rxn, reactions !! id = Some rxn /\
    ((c = 2 * Z.of_nat id /\ Z.of_nat s ∈ Reaction.reactants rxn) \/
     (c = 2 * Z.of_nat id + 1 /\ Z.of_nat s ∈ Reaction.products rxn)).
Proof.
  intros Hinit Hpos Hrow Hc.
  apply initialize_simulation_inv in Hinit as (t & w & Hcomp & Hmax & Hpad & _).
  apply py_max_bound in Hmax. rewrite List.Forall_map in Hmax.
  rewrite (pad_rows_spec _ _ Hmax) in Hpad. injection Hpad as Hpad.
  rewrite <- Hpad, lookup_map in Hrow.
  destruct (species_rxn_mapping_list t !! s) as [chans|] eqn:Hchans; [|done].
  cbn in Hrow. injection Hrow as <-.
  pose proof (compile_reactions_mapping _ _ _ _ _ (Z.le_refl 0) Hcomp) as [Hlen _].
  cbn [fresh_tables species_rxn_mapping_list] in Hlen.
  destruct (compile_reactions_mapping_sound _ _ _ _ _ (Z.le_refl 0) Hcomp s [])
    as (ext & Hext & Hall).
  { cbn [fresh_tables species_rxn_mapping_list]. apply lookup_replicate_2.
    apply lookup_lt_Some in Hchans. rewrite Hlen, length_replicate in Hchans. done. }
  rewrite Hchans in Hext. injection Hext as ->. cbn [app] in Hc.
  apply elem_of_app in Hc as [Hc|Hc].
  - right. rewrite Forall_forall in Hall.
    destruct (Hall c Hc) as (j & rxn & e & Hj & Hn & Hside).
    assert (He : 0 <= e).
    { apply (Hpos rxn e); [by eapply list_elem_of_lookup_2|].
      destruct Hside as [[_ ?]|[_ ?]]; auto. }
    apply norm_nonneg_inv in Hn as [-> _]; [|done].
    rewrite Z2Nat.id by done. exists j, rxn. split; [done|].
    rewrite !Z.add_0_l in Hside. done.
  - left. by apply elem_of_replicate in Hc as [-> _].
Qed.

Lemma dependency_rows_sound_witness :
  3 = -1 \/
  exists (id : nat) rxn, dimer_reactions !! id = Some rxn /\
    ((3 = 2 * Z.of_nat id /\ Z.of_nat 1 ∈ Reaction.reactants rxn) \/
     (3 = 2 * Z.of_nat id + 1 /\ Z.of_nat 1 ∈ Reaction.products rxn)).
Proof.
  apply (dependency_rows_sound 3 {[ 0 := 100 ]} dimer_reactions dimer_compiled 1%nat
           [1; 3; -1] 3).
  - vm_compute. reflexivity.
  - intros rxn e Hrxn He. unfold dimer_reactions in Hrxn.
    repeat (apply elem_of_cons in Hrxn as [->|Hrxn]);
      [| |by apply elem_of_nil in Hrxn]; cbn in He;
      destruct He as [He|He];
      repeat (apply elem_of_cons in He as [->|He]); try lia;
      by apply elem_of_nil in He.
  - reflexivity.
  - set_solver.
Defined.

(** X12. The compiled tables are what the updater and the calculator
    expect: when no entry id is negative, every row of the two species
    tables is a side (one species and the sentinel, or two species) of
    species ids below [num_entries], and every cell of the dependency
    table is the sentinel or a channel index below twice the number of
    reactions. *)
Theorem compiled_tables_well_formed num_entries d reactions out :
  initialize_simulation num_entries d reactions = Ok out ->
  (forall rxn e, rxn ∈ reactions ->
     e ∈ Reaction.reactants rxn \/ e ∈ Reaction.products rxn -> 0 <= e) ->
  Forall (fun row => side_row row /\ wf_row num_entries row) (c_reactants out) /\
  Forall (fun row => side_row row /\ wf_row num_entries row) (c_products out) /\
  Forall (Forall (fun c => c = -1 \/ 0 <= c < 2 * Z.of_nat (length reactions)))
    (c_species_rxn_mapping out).
Proof.
  intros Hinit Hpos. pose proof Hinit as Hinit'.
  apply initialize_simulation_inv in Hinit
    as (t & w & Hcomp & Hmax & Hpad & Er & Ep & _).
  pose proof Hcomp as Hcomp1. pose proof Hcomp as Hcomp2. pose proof Hcomp as Hcomp3.
  apply compile_reactions_table in Hcomp1
    as (_ & _ & Hlr & Hlp & _ & _ & Hrxn); [|lia].
  apply compile_reactions_arrays in Hcomp2
    as (_ & _ & _ & _ & Harr); [|lia|apply Forall_replicate; done..].
  cbn [fresh_tables reactant_array product_array] in Hlr, Hlp, Hrxn.
  rewrite length_replicate in Hlr, Hlp.
  assert (Hside : forall side rxn, rxn ∈ reactions ->
            side = Reaction.reactants rxn \/ side = Reaction.products rxn ->
            length side = 1%nat \/ length side = 2%nat ->
            side_row (side ++ replicate (2 - length side) (-1)) /\
            wf_row num_entries (side ++ replicate (2 - length side) (-1))).
  { intros side rxn Hin Hwhich Hlen.
    assert (Hall : Forall (fun e => 0 <= e < Z.of_nat num_entries) side).
    { apply Forall_forall. intros e He.
      assert (He' : e ∈ Reaction.reactants rxn \/ e ∈ Reaction.products rxn)
        by (destruct Hwhich as [<-|<-]; auto).
      pose proof (Hpos rxn e Hin He') as He0.
      destruct (compile_reactions_valid d reactions 0 _ t (Z.le_refl 0) Hcomp3 rxn e Hin He')
        as [k Hk].
      cbn [fresh_tables species_rxn_mapping_list] in Hk.
      rewrite length_replicate in Hk.
      apply norm_nonneg_inv in Hk as [_ Hlt]; [lia | done]. }
    destruct Hlen as [Hlen|Hlen].
    - destruct side as [|a [|b side]]; try done.
      apply Forall_cons in Hall as [Ha _]. cbn. split.
      + left. exists a. split; [done | lia].
      + unfold wf_row. solve_Forall.
    - destruct side as [|a [|b [|x side]]]; try done.
      apply Forall_cons in Hall as [Ha Hall]. apply Forall_cons in Hall as [Hb _].
      cbn. split.
      + right. exists a, b. repeat split; lia.
      + unfold wf_row. solve_Forall. }
  assert (Hfresh : forall id : nat, (id < length reactions)%nat ->
            replicate (length reactions) [-1; -1] !! id = Some [-1; -1])
    by (intros; by apply lookup_replicate_2).
  assert (Hpad2 : forall side : list Z, length side = 1%nat \/ length side = 2%nat ->
            drop (length side) [-1; -1] = replicate (2 - length side) (-1)).
  { intros side [->| ->]; reflexivity. }
  split; [|split].
  - rewrite Er. apply Forall_lookup. intros id row Hrow.
    assert (Hid : (id < length reactions)%nat).
    { apply lookup_lt_Some in Hrow. lia. }
    destruct (lookup_lt_is_Some_2 reactions id Hid) as [rxn Hrx].
    destruct (Harr id rxn Hrx) as ((hf & Hhf & _) & _).
    apply initial_coordination_Ok in Hhf.
    destruct (Hrxn id rxn Hrx) as (Ha & _).
    change (Z.to_nat 0) with 0%nat in Ha. rewrite Nat.add_0_l in Ha.
    rewrite (Ha _ (Hfresh id Hid)), Hpad2 in Hrow by done. injection Hrow as <-.
    eapply Hside; eauto. by eapply list_elem_of_lookup_2.
  - rewrite Ep. apply Forall_lookup. intros id row Hrow.
    assert (Hid : (id < length reactions)%nat).
    { apply lookup_lt_Some in Hrow. lia. }
    destruct (lookup_lt_is_Some_2 reactions id Hid) as [rxn Hrx].
    destruct (Harr id rxn Hrx) as (_ & (hr & Hhr & _) & _).
    apply initial_coordination_Ok in Hhr.
    destruct (Hrxn id rxn Hrx) as (_ & Hb & _).
    change (Z.to_nat 0) with 0%nat in Hb. rewrite Nat.add_0_l in Hb.
    rewrite (Hb _ (Hfresh id Hid)), Hpad2 in Hrow by done. injection Hrow as <-.
    eapply Hside; eauto. by eapply list_elem_of_lookup_2.
  - apply py_max_bound in Hmax. rewrite List.Forall_map in Hmax.
    rewrite (pad_rows_spec _ _ Hmax) in Hpad. injection Hpad as <-.
    cbn [c_species_rxn_mapping]. apply List.Forall_map.
    apply Forall_lookup. intros s chans Hchans. cbn beta.
    pose proof (compile_reactions_mapping _ _ _ _ _ (Z.le_refl 0) Hcomp) as [Hlen _].
    cbn [fresh_tables species_rxn_mapping_list] in Hlen.
    destruct (compile_reactions_mapping_sound _ _ _ _ _ (Z.le_refl 0) Hcomp s [])
      as (ext & Hext & Hall).
    { cbn [fresh_tables species_rxn_mapping_list]. apply lookup_replicate_2.
      apply lookup_lt_Some in Hchans. rewrite Hlen, length_replicate in Hchans. done. }
    rewrite Hchans in Hext. injection Hext as ->. cbn [app].
    apply Forall_app. split.
    + eapply Forall_impl; [exact Hall|]. intros c (j & rxn & e & Hj & _ & Hc).
      right. apply lookup_lt_Some in Hj. rewrite !Z.add_0_l in Hc.
      destruct Hc as [[-> _]|[-> _]]; lia.
    + apply Forall_replicate. by left.
Qed.

Lemma compiled_tables_well_formed_witness :
  Forall (fun row => side_row row /\ wf_row 3 row) (c_reactants dimer_compiled) /\
  Forall (fun row => side_row row /\ wf_row 3 row) (c_products dimer_compiled) /\
  Forall (Forall (fun c => c = -1 \/ 0 <= c < 2 * Z.of_nat (length dimer_reactions)))
    (c_species_rxn_mapping dimer_compiled).
Proof.
  apply (compiled_tables_well_formed 3 {[ 0 := 100 ]} dimer_reactions dimer_compiled).
  - vm_compute. reflexivity.
  - intros rxn e Hrxn He. unfold dimer_reactions in Hrxn.
    repeat (apply elem_of_cons in Hrxn as [->|Hrxn]);
      [| |by apply elem_of_nil in Hrxn]; cbn in He;
      destruct He as [He|He];
      repeat (apply elem_of_cons in He as [->|He]); try lia;
      by apply elem_of_nil in He.
Defined.

(** ** Event selection: which draws fire which channel *)

Section SelectionInterval.
Local Open Scope Q_scope.
Variable np_log : Q -> Q.

Lemma sum_filter_nonneg (a : list Q) : 0 <= Np.sum (List.filter (Np.Qlt_bool 0) a).
Proof.
  apply sum_nonneg. apply List.Forall_forall. intros x Hx.
  apply List.filter_In in Hx as [_ Hx]. apply Qlt_bool_true in Hx. lra.
Qed.

(** The running total on a positive channel is the total before it plus
    its own propensity. *)
Lemma cum_pos_split (p : list Q) (k : nat) x :
  p !! k = Some x -> 0 < x ->
  cum_pos p k == Np.sum (List.filter (Np.Qlt_bool 0) (take k p)) + x.
Proof.
  intros Hk Hx. unfold cum_pos.
  rewrite (filter_take_S p k x Hk) by (by apply Qlt_bool_true).
  rewrite sum_app, sum_cons.
  assert (Hnil : Np.sum [] == 0) by reflexivity. rewrite Hnil. ring.
Qed.

Lemma cum_pos_before (p : list Q) (j k : nat) :
  (j < k)%nat ->
  cum_pos p j <= Np.sum (List.filter (Np.Qlt_bool 0) (take k p)).
Proof.
  intros Hjk. unfold cum_pos.
  replace k with (S j + (k - S j))%nat by lia.
  rewrite <- take_take_drop, List.filter_app, sum_app.
  pose proof (sum_filter_nonneg (take (k - S j) (drop (S j) p))). lra.
Qed.

(** When some positive channel precedes [k], one of them has the total
    before [k] as its running total. *)
Lemma last_positive_before (p : list Q) : forall k : nat,
  rank p k <> 0%nat ->
  exists (j : nat) y, (j < k)%nat /\ p !! j = Some y /\ 0 < y /\
    cum_pos p j = Np.sum (List.filter (Np.Qlt_bool 0) (take k p)).
Proof.
  induction k as [|k IH]; intros Hrank.
  - by unfold rank in Hrank.
  - destruct (p !! k) as [y|] eqn:Hk.
    + destruct (Np.Qlt_bool 0 y) eqn:Hy.
      * exists k, y. split; [lia|]. split; [done|]. split; [by apply Qlt_bool_true|].
        reflexivity.
      * assert (Hsame : List.filter (Np.Qlt_bool 0) (take (S k) p)
                        = List.filter (Np.Qlt_bool 0) (take k p)).
        { rewrite (take_S_r _ _ _ Hk), List.filter_app. cbn [List.filter].
          by rewrite Hy, app_nil_r. }
        destruct IH as (j & z & Hj & Hz & Hz0 & Hcum).
        { unfold rank in *. by rewrite Hsame in Hrank. }
        exists j, z. split; [lia|]. by rewrite Hsame.
    + apply lookup_ge_None in Hk.
      assert (Hsame : take (S k) p = take k p) by (by rewrite !take_ge by lia).
      destruct IH as (j & z & Hj & Hz & Hz0 & Hcum).
      { unfold rank in *. by rewrite Hsame in Hrank. }
      exists j, z. split; [lia|]. by rewrite Hsame.
Qed.

Lemma first_reaching_unique (p : list Q) target c c' :
  first_reaching p target c -> first_reaching p target c' -> c = c'.
Proof.
  intros (k & x & -> & Hk & Hx & Hreach & Hmin)
         (k' & x' & -> & Hk' & Hx' & Hreach' & Hmin').
  destruct (Nat.lt_trichotomy k k') as [Hlt|[->|Hlt]]; [|done|].
  - pose proof (Hmin' k x Hlt Hk Hx). lra.
  - pose proof (Hmin k' x' Hlt Hk' Hx'). lra.
Qed.

(** The scan succeeds as soon as the target is within the running total
    of some positive channel. *)
Lemma select_finds (p : list Q) A0 r1 r2 (k : nat) x :
  ~ A0 == 0 -> p !! k = Some x -> 0 < x -> r2 * A0 <= cum_pos p k ->
  exists c, select np_log p (Np.where_pos p) A0 r1 r2 = Ok (- np_log r1 / A0, c).
Proof.
  intros HA Hk Hx Hreach. unfold select, Np.divide.
  destruct (Qeq_bool A0 0) eqn:EA.
  { apply Qeq_bool_iff in EA. done. }
  cbn [rbind]. rewrite take_where_pos. cbn [rbind].
  set (chosen := List.filter (Np.Qlt_bool 0) p) in *.
  assert (Hx' : Np.Qlt_bool 0 x = true) by (by apply Qlt_bool_true).
  assert (Hrank : (rank p k < length chosen)%nat).
  { pose proof (take_rank_filter p (S k)) as Ht. fold chosen in Ht.
    apply (f_equal length) in Ht. rewrite length_take in Ht.
    fold (rank p (S k)) in Ht. rewrite (rank_S _ _ _ Hk Hx') in Ht. lia. }
  destruct (lookup_lt_is_Some_2 (Np.cumsum chosen) (rank p k)) as [y Hy].
  { unfold Np.cumsum. by rewrite cumsum_from_length. }
  pose proof (cumsum_prefix_sum p k x (rank p k) y Hk Hx' eq_refl Hy) as ->.
  destruct (where_ge_from_exists (Np.cumsum chosen) (r2 * A0) 0%Z _ _ Hy Hreach)
    as [a Ha].
  fold (Np.where_ge (Np.cumsum chosen) (r2 * A0)) in Ha.
  rewrite jit_getitem, Ha. cbn [rbind].
  apply where_ge_from_head in Ha as (n & z & -> & Hn & _).
  destruct (lookup_lt_is_Some_2 (Np.where_pos p) n) as [c Hc].
  { apply lookup_lt_Some in Hn. unfold Np.cumsum in Hn.
    rewrite cumsum_from_length in Hn.
    pose proof (where_pos_from_length p 0) as Hl.
    fold (Np.where_pos p) in Hl. fold chosen in Hl. lia. }
  exists c.
  assert (Hget : Py.getitem (Np.where_pos p) (0 + Z.of_nat n) = Ok c).
  { apply getitem_nonneg; [lia|]. by rewrite Z.add_0_l, Nat2Z.id. }
  by rewrite jit_getitem, Hget.
Qed.

(** X13. Inverse-transform sampling: with a non-zero total [A0], a
    channel [k] of propensity [x > 0] is the one selected exactly when
    the target [r2 * A0] is at most the running total [C] on [k] and, if
    a positive channel precedes [k], above [C - x]: the targets that fire
    [k] fill an interval of length [x]. *)
Theorem select_interval (p : list Q) A0 r1 r2 (k : nat) x :
  ~ A0 == 0 ->
  p !! k = Some x ->
  0 < x ->
  (select np_log p (Np.where_pos p) A0 r1 r2 = Ok (- np_log r1 / A0, Z.of_nat k)
   <->
   r2 * A0 <= cum_pos p k /\
   (rank p k = 0%nat \/ cum_pos p k - x < r2 * A0)).
Proof.
  intros HA Hk Hx. pose proof (cum_pos_split p k x Hk Hx) as Hsplit. split.
  - intros Hsel. apply select_inv in Hsel as (_ & _ & Hfirst).
    destruct Hfirst as (k' & x' & Hkk & Hk' & Hx' & Hreach & Hmin).
    apply Nat2Z.inj in Hkk as <-. split; [done|].
    destruct (Nat.eq_dec (rank p k) 0%nat) as [|Hrank]; [by left | right].
    destruct (last_positive_before p k Hrank) as (j & y & Hj & Hy & Hy0 & Hcum).
    pose proof (Hmin j y Hj Hy Hy0) as Hlt. rewrite Hcum in Hlt. lra.
  - intros [Hreach Hlow].
    assert (Hfirst : first_reaching p (r2 * A0) (Z.of_nat k)).
    { exists k, x. repeat split; try done.
      intros j y Hj Hy Hy0. pose proof (cum_pos_before p j k Hj) as Hle.
      destruct Hlow as [Hrank|Hlow]; [|lra].
      exfalso. apply Qlt_bool_true in Hy0.
      pose proof (rank_S _ _ _ Hy Hy0). pose proof (rank_mono p (S j) k). lia. }
    destruct (select_finds p A0 r1 r2 k x HA Hk Hx Hreach) as [c Hc].
    pose proof Hc as Hc'. apply select_inv in Hc' as (_ & _ & Hfirst').
    by rewrite (first_reaching_unique _ _ _ _ Hfirst Hfirst').
Qed.

End SelectionInterval.

Lemma select_interval_witness :
  select (fun _ => 0%Q) [3; 0; 5]%Q (Np.where_pos [3; 0; 5]%Q) 8%Q (1 # 2) (1 # 2)
  = Ok ((- (fun _ : Q => 0%Q) (1 # 2) / 8)%Q, Z.of_nat 2)
  <->
  ((1 # 2) * 8 <= cum_pos [3; 0; 5]%Q 2)%Q /\
  (rank [3; 0; 5]%Q 2 = 0%nat \/ (cum_pos [3; 0; 5]%Q 2 - 5 < (1 # 2) * 8)%Q).
Proof.
  apply (select_interval (fun _ => 0%Q) [3; 0; 5]%Q 8%Q (1 # 2) (1 # 2) 2%nat 5%Q).
  - discriminate.
  - reflexivity.
  - reflexivity.
Defined.

(** ** The driver loop *)

Lemma update_state_Ok_inv (reactants products : list (list Z)) rxn_ind
    (reverse : bool) (st st' : list Z) :
  (update_state reactants products rxn_ind reverse st).1 = Ok st' ->
  rxn_ind <> -1 /\
  exists consumed produced,
    Py.getitem (if reverse then products else reactants) rxn_ind = Ok consumed /\
    Py.getitem (if reverse then reactants else products) rxn_ind = Ok produced.
Proof.
  unfold update_state. destruct (Z.eqb_spec rxn_ind (-1)) as [|Hne]; [done|].
  intros H. split; [done|].
  destruct reverse; unfold Pop.bind, Pop.lift, Pop.get in H;
    rewrite !jit_getitem in H.
  - destruct (Py.getitem products rxn_ind) as [consumed|]; [|done].
    destruct (consume consumed st) as [[[]|] st1]; [|done].
    destruct (Py.getitem reactants rxn_ind) as [produced|]; [|done]. eauto.
  - destruct (Py.getitem reactants rxn_ind) as [consumed|]; [|done].
    destruct (consume consumed st) as [[[]|] st1]; [|done].
    destruct (Py.getitem products rxn_ind) as [produced|]; [|done]. eauto.
Qed.

Lemma getitem_elem_of {A} (l : list A) i x : Py.getitem l i = Ok x -> x ∈ l.
Proof.
  intros H. apply getitem_Ok in H as (k & _ & Hk). by eapply list_elem_of_lookup_2.
Qed.

(** An update that succeeds on well-formed rows: the counts stay
    non-negative, and each cell moves by its slots on the two sides. *)
Lemma update_state_cells (reactants products : list (list Z)) rxn_ind
    (reverse : bool) (st st' : list Z) :
  Forall (wf_row (length st)) reactants ->
  Forall (wf_row (length st)) products ->
  (update_state reactants products rxn_ind reverse st).1 = Ok st' ->
  exists consumed produced,
    Py.getitem (if reverse then products else reactants) rxn_ind = Ok consumed /\
    Py.getitem (if reverse then reactants else products) rxn_ind = Ok produced /\
    length st' = length st /\
    (nonneg st -> nonneg st') /\
    forall (k : nat) m, st !! k = Some m ->
      st' !! k = Some (m - occurrences (Z.of_nat k) consumed
                         + occurrences (Z.of_nat k) produced).
Proof.
  intros Hwr Hwp H.
  destruct (update_state_Ok_inv _ _ _ _ _ _ H) as (Hne & consumed & produced & Hc & Hp).
  exists consumed, produced. split; [done|]. split; [done|].
  rewrite (update_state_rows _ _ _ _ _ _ _ Hne Hc Hp) in H.
  assert (Hwc : wf_row (length st) consumed).
  { rewrite Forall_forall in Hwr, Hwp. apply getitem_elem_of in Hc.
    destruct reverse; auto. }
  assert (Hwd : wf_row (length st) produced).
  { rewrite Forall_forall in Hwr, Hwp. apply getitem_elem_of in Hp.
    destruct reverse; auto. }
  pose proof (consume_spec consumed st Hwc) as HC.
  destruct (consume consumed st) as [[[]|e] sa]; [|done].
  destruct HC as (Hlen_a & Hnn_a & Hocc_a).
  assert (Hwd_a : wf_row (length sa) produced) by (by rewrite Hlen_a).
  destruct (produce_spec produced sa Hwd_a) as (sb & Eb & Hlen_b & Hnn_b & Hocc_b).
  rewrite Eb in H. cbn [fst] in H. injection H as <-.
  split; [congruence|]. split; [auto|].
  intros k m Hk. by rewrite (Hocc_b _ _ (Hocc_a _ _ Hk)).
Qed.

Section DriverLoop.
Variable np_log : Q -> Q.



End DriverLoop.


(** ** The refresh of the coordination numbers *)

Lemma occurrences_absent k ids : k ∉ ids -> occurrences k ids = 0.
Proof.
  induction ids as [|id ids IH]; intros Hk; [done|]. cbn [occurrences].
  destruct (Z.eqb_spec id k) as [->|_]; [set_solver|]. rewrite IH; [lia | set_solver].
Qed.

Lemma get_coordination_Ok_row (reactants products : list (list Z)) (st : list Z)
    rxn_id (reverse : bool) h :
  get_coordination reactants products st rxn_id reverse = Ok h ->
  exists row, Py.getitem (if reverse then products else reactants) rxn_id = Ok row.
Proof.
  unfold get_coordination. intros H. rewrite !jit_getitem in H.
  destruct reverse.
  - destruct (Py.getitem products rxn_id) as [row|]; [eauto | done].
  - destruct (Py.getitem reactants rxn_id) as [row|]; [eauto | done].
Qed.

(** Two states that agree on the species of a side give the side the
    same coordination number. *)
Lemma coordination_same_counts (reactants products : list (list Z))
    (st st2 : list Z) rxn_id (reverse : bool) row :
  Py.getitem (if reverse then products else reactants) rxn_id = Ok row ->
  side_row row ->
  (forall a, a ∈ row -> a <> -1 ->
     exists n, Py.getitem st a = Ok n /\ Py.getitem st2 a = Ok n) ->
  get_coordination reactants products st2 rxn_id reverse
  = get_coordination reactants products st rxn_id reverse.
Proof.
  intros Hrow Hside Hsame.
  destruct (get_coordination_cases reactants products st rxn_id reverse row Hrow)
    as (H1 & H2 & H3).
  destruct (get_coordination_cases reactants products st2 rxn_id reverse row Hrow)
    as (H1' & H2' & H3').
  destruct Hside as [(a & -> & Ha)|(a & b & -> & Ha & Hb)].
  - destruct (Hsame a) as (n & Hn & Hn'); [set_solver | done |].
    by rewrite (H1 a n), (H1' a n).
  - destruct (Hsame a) as (n & Hn & Hn'); [set_solver | done |].
    destruct (Hsame b) as (m & Hm & Hm'); [set_solver | done |].
    destruct (Z.eq_dec a b) as [<-|Hab].
    + by rewrite (H3 a n), (H3' a n).
    + by rewrite (H2 a b n m), (H2' a b n m).
Qed.

(** The rows gathered for the species of a side. *)
Lemma collect_rows_spec (mapping : list (list Z)) : forall ids gathered,
  collect_rows mapping ids = Ok gathered ->
  (forall id mrow, id ∈ ids -> id <> -1 -> Py.getitem mapping id = Ok mrow ->
     forall c, c ∈ mrow -> c ∈ gathered) /\
  (forall c, c ∈ gathered -> exists mrow, mrow ∈ mapping /\ c ∈ mrow).
Proof.
  induction ids as [|id ids IH]; intros gathered H.
  - cbn in H. injection H as <-. split.
    + intros id mrow Hid. by apply elem_of_nil in Hid.
    + intros c Hc. by apply elem_of_nil in Hc.
  - cbn [collect_rows] in H. destruct (Z.eqb_spec id (-1)) as [->|Hne].
    + destruct (IH _ H) as [Hin Hout]. split; [|done].
      intros id mrow Hid Hid' Hget c Hc. apply (Hin id mrow); try done.
      apply elem_of_cons in Hid as [Hid|Hid]; [done | done].
    + rewrite jit_getitem in H.
      destruct (Py.getitem mapping id) as [mrow0|] eqn:Eg; [|done].
      cbn [rbind] in H.
      destruct (collect_rows mapping ids) as [more|] eqn:Em; [|done].
      cbn [rbind] in H. injection H as <-.
      destruct (IH more eq_refl) as [Hin Hout]. split.
      * intros id' mrow Hid Hid' Hget c Hc. apply elem_of_app.
        apply elem_of_cons in Hid as [->|Hid].
        -- left. congruence.
        -- right. by apply (Hin id' mrow).
      * intros c Hc. apply elem_of_app in Hc as [Hc|Hc]; [|by apply Hout].
        apply getitem_elem_of in Eg. eauto.
Qed.

(** The loop that recomputes coordination numbers: a listed channel ends
    with the value of the calculator on the state, any other cell is
    untouched. *)
Lemma refresh_coordination_spec (reactants products : list (list Z)) (st : list Z) :
  forall channels coord_array coord_array',
  Forall (fun c => -1 <= c) channels ->
  refresh_coordination reactants products st channels coord_array = Ok coord_array' ->
  length coord_array' = length coord_array /\
  forall c : nat,
    (Z.of_nat c ∈ channels -> forall h, coord_array' !! c = Some h ->
       channel_coordination reactants products st (Z.of_nat c) = Ok h) /\
    (Z.of_nat c ∉ channels -> coord_array' !! c = coord_array !! c).
Proof.
  induction channels as [|x channels IH]; intros coord_array coord_array' Hge H.
  - cbn in H. injection H as <-. split; [done|]. intros c. split; [set_solver | done].
  - apply Forall_cons in Hge as [Hx Hge]. cbn [refresh_coordination] in H.
    destruct (Z.eqb_spec x (-1)) as [->|Hne].
    + destruct (IH _ _ Hge H) as [Hlen Hcells]. split; [done|]. intros c.
      destruct (Hcells c) as [Hin Hout]. split.
      * intros Hc. apply Hin. apply elem_of_cons in Hc as [Hc|Hc]; [lia | done].
      * intros Hc. apply Hout. intros Hc'. apply Hc. apply elem_of_cons. by right.
    + inv_bind H.
      match goal with
      | E : Py.setitem coord_array x _ = Ok _ |- _ =>
          apply setitem_nonneg in E as [-> Hlt]; [|lia]
      end.
      destruct (IH _ _ Hge H) as [Hlen Hcells]. rewrite length_insert in Hlen.
      split; [done|]. intros c. destruct (Hcells c) as [Hin Hout]. split.
      * intros Hc h Hh.
        destruct (decide (Z.of_nat c ∈ channels)) as [Hc'|Hc']; [by apply Hin|].
        apply elem_of_cons in Hc as [Hc|Hc]; [|done]. subst x.
        rewrite Hout, Nat2Z.id in Hh by done.
        rewrite list_lookup_insert_eq in Hh by lia. injection Hh as <-. done.
      * intros Hc. rewrite Hout
          by (intros Hc'; apply Hc; apply elem_of_cons; by right).
        apply list_lookup_insert_ne. intros Heq. apply Hc.
        apply elem_of_cons. left. lia.
Qed.

Section Refresh.
Variable np_log : Q -> Q.

(** What a completed iteration has refreshed. *)
Lemma simulate_step_refresh_inv net i r1 r2 s s' :
  simulate_step np_log net i r1 r2 s = Ok s' ->
  exists c reactant_row product_row from_reactants from_products,
    (update_state (net_reactants net) (net_products net) (c / 2)
       (negb (c mod 2 =? 0)) (state s)).1 = Ok (state s') /\
    Py.getitem (net_reactants net) (c / 2) = Ok reactant_row /\
    collect_rows (net_species_rxn_mapping net) reactant_row = Ok from_reactants /\
    Py.getitem (net_products net) (c / 2) = Ok product_row /\
    collect_rows (net_species_rxn_mapping net) product_row = Ok from_products /\
    refresh_coordination (net_reactants net) (net_products net) (state s')
      (remove_dups (from_reactants ++ from_products)) (coord s) = Ok (coord s').
Proof.
  unfold simulate_step. intros H.
  destruct (select np_log _ _ _ r1 r2) as [[tau c]|] eqn:Esel;
    cbn [rbind] in H; [|discriminate].
  inv_bind H. injection H as <-. cbn [state coord].
  eexists c, _, _, _, _. repeat split; eauto.
Qed.

(** X16. The refresh is enough: on well-formed tables with a dependency
    table that lists, for each species, the channels that consume it, an
    iteration that starts with every coordination number equal to what
    the calculator gives on the state ends the same way on the new
    state, though it recomputes only the channels listed for the species
    of the reaction that fired. *)
Theorem refresh_keeps_coordination_consistent net step_counter r1 r2 s s' :
  simulate_step np_log net step_counter r1 r2 s = Ok s' ->
  Forall (fun row => side_row row /\ wf_row (length (state s)) row) (net_reactants net) ->
  Forall (fun row => side_row row /\ wf_row (length (state s)) row) (net_products net) ->
  Forall (Forall (fun c => -1 <= c)) (net_species_rxn_mapping net) ->
  dependency_complete (net_reactants net) (net_products net)
    (net_species_rxn_mapping net) ->
  coord_consistent (net_reactants net) (net_products net) (state s) (coord s) ->
  coord_consistent (net_reactants net) (net_products net) (state s') (coord s') /\
  length (coord s') = length (coord s).
Proof.
  intros Hstep Hwr Hwp Hmap Hdep Hcons.
  apply simulate_step_refresh_inv in Hstep
    as (c0 & rr & pr & fr & fp & Hupd & Hrr & Hfr & Hpr & Hfp & Href).
  set (R := net_reactants net) in *. set (P := net_products net) in *.
  set (M := net_species_rxn_mapping net) in *.
  assert (Hwr' : Forall (wf_row (length (state s))) R)
    by (eapply Forall_impl; [exact Hwr|]; by intros ? [_ ?]).
  assert (Hwp' : Forall (wf_row (length (state s))) P)
    by (eapply Forall_impl; [exact Hwp|]; by intros ? [_ ?]).
  destruct (update_state_cells _ _ _ _ _ _ Hwr' Hwp' Hupd)
    as (consumed & produced & Hc & Hp & Hlen & _ & Hcells).
  assert (Hfired : forall k : nat, Z.of_nat k ∉ rr -> Z.of_nat k ∉ pr ->
            state s' !! k = state s !! k).
  { intros k Hkr Hkp. destruct (state s !! k) as [m|] eqn:Hm.
    - rewrite (Hcells _ _ Hm).
      assert (Hocc : occurrences (Z.of_nat k) consumed = 0
                     /\ occurrences (Z.of_nat k) produced = 0).
      { destruct (negb (c0 mod 2 =? 0));
          rewrite Hc in *; rewrite Hp in *; simplify_eq;
          split; by apply occurrences_absent. }
      destruct Hocc as [-> ->]. f_equal. lia.
    - apply lookup_ge_None in Hm. apply lookup_ge_None. lia. }
  destruct (collect_rows_spec M _ _ Hfr) as [Hfr_in Hfr_out].
  destruct (collect_rows_spec M _ _ Hfp) as [Hfp_in Hfp_out].
  assert (Hge : Forall (fun c => -1 <= c) (remove_dups (fr ++ fp))).
  { apply Forall_forall. intros c Hc'. rewrite elem_of_remove_dups in Hc'.
    rewrite Forall_forall in Hmap.
    apply elem_of_app in Hc' as [Hc'|Hc'];
      [destruct (Hfr_out c Hc') as (mrow & Hmrow & Hin)
      |destruct (Hfp_out c Hc') as (mrow & Hmrow & Hin)];
      specialize (Hmap mrow Hmrow); rewrite Forall_forall in Hmap; auto. }
  destruct (refresh_coordination_spec R P (state s') _ _ _ Hge Href)
    as [Hlen' Hrefreshed].
  split; [|done]. intros c h Hh.
  destruct (Hrefreshed c) as [Hin Hout].
  destruct (decide (Z.of_nat c ∈ remove_dups (fr ++ fp))) as [Hc'|Hc']; [by apply Hin|].
  rewrite (Hout Hc') in Hh. pose proof (Hcons c h Hh) as Hold.
  unfold channel_coordination in *. rewrite <- Hold.
  destruct (get_coordination_Ok_row _ _ _ _ _ _ Hold) as [row Hrow].
  assert (Hrow_ok : side_row row /\ wf_row (length (state s)) row).
  { rewrite Forall_forall in Hwr, Hwp. apply getitem_elem_of in Hrow.
    destruct (negb (Z.of_nat c mod 2 =? 0)); auto. }
  destruct Hrow_ok as [Hside Hwf].
  apply (coordination_same_counts R P (state s) (state s') _ _ row Hrow Hside).
  intros a Ha Hne. unfold wf_row in Hwf. rewrite Forall_forall in Hwf.
  destruct (Hwf a Ha) as [|Harange]; [done|].
  destruct (lookup_lt_is_Some_2 (state s) (Z.to_nat a)) as [n Hn]; [lia|].
  exists n. split; [apply getitem_nonneg; [lia | done]|].
  apply getitem_nonneg; [lia|]. rewrite Hfired; [done| |].
  - intros Hk. apply Hc'. rewrite elem_of_remove_dups, elem_of_app. left.
    destruct (Hdep c (Z.to_nat a) row Hrow) as (mrow & Hmrow & Hcm).
    { by rewrite Z2Nat.id by lia. }
    rewrite Z2Nat.id in Hk by lia.
    apply (Hfr_in a mrow Hk Hne); [|done].
    apply getitem_nonneg; [lia | done].
  - intros Hk. apply Hc'. rewrite elem_of_remove_dups, elem_of_app. right.
    destruct (Hdep c (Z.to_nat a) row Hrow) as (mrow & Hmrow & Hcm).
    { by rewrite Z2Nat.id by lia. }
    rewrite Z2Nat.id in Hk by lia.
    apply (Hfp_in a mrow Hk Hne); [|done].
    apply getitem_nonneg; [lia | done].
Qed.

End Refresh.

Lemma refresh_keeps_coordination_consistent_witness :
  coord_consistent (net_reactants pair_network) (net_products pair_network)
    (state pair_after) (coord pair_after) /\
  length (coord pair_after) = length (coord pair_start).
Proof.
  apply (refresh_keeps_coordination_consistent (fun _ => 0%Q) pair_network 0
           (1 # 2) (1 # 2) pair_start pair_after).
  - vm_compute. reflexivity.
  - change (Forall (fun row => side_row row /\ wf_row 2 row) [[0; -1]]).
    apply Forall_cons. split; [|done]. split.
    + left. exists 0. split; [done | lia].
    + unfold wf_row. solve_Forall.
  - change (Forall (fun row => side_row row /\ wf_row 2 row) [[1; -1]]).
    apply Forall_cons. split; [|done]. split.
    + left. exists 1. split; [done | lia].
    + unfold wf_row. solve_Forall.
  - change (Forall (Forall (fun c => -1 <= c)) [[0]; [1]]).
    apply Forall_cons. split; [solve_Forall|].
    apply Forall_cons. split; [solve_Forall | done].
  - intros c k row Hrow Hk. unfold consuming_row in Hrow.
    destruct c as [|[|c]].
    + injection Hrow as <-. apply elem_of_cons in Hk as [Hk|Hk].
      * assert (k = 0%nat) as -> by lia. exists [0]. split; [done|].
        by apply list_elem_of_singleton.
      * apply elem_of_cons in Hk as [Hk|Hk]; [lia | by apply elem_of_nil in Hk].
    + injection Hrow as <-. apply elem_of_cons in Hk as [Hk|Hk].
      * assert (k = 1%nat) as -> by lia. exists [1]. split; [done|].
        by apply list_elem_of_singleton.
      * apply elem_of_cons in Hk as [Hk|Hk]; [lia | by apply elem_of_nil in Hk].
    + exfalso.
      assert (Hdiv : 1 <= Z.of_nat (S (S c)) / 2)
        by (apply Z.div_le_lower_bound; lia).
      apply getitem_nonneg in Hrow; [|lia]. apply lookup_lt_Some in Hrow.
      assert (Hone : forall l : list (list Z),
                l = net_products pair_network \/ l = net_reactants pair_network ->
                length l = 1%nat) by (intros l [->| ->]; reflexivity).
      rewrite Hone in Hrow by (destruct (negb _); auto). lia.
  - intros c h Hc. destruct c as [|[|c]].
    + injection Hc as <-. reflexivity.
    + injection Hc as <-. reflexivity.
    + done.
Defined.

(** X17. The compiler provides what the refresh needs: when no entry
    id is negative, the compiled dependency table lists, for every
    species of a row of the compiled species tables, the channel that
    consumes that row. *)
Theorem compiled_dependency_complete num_entries d reactions out :
  initialize_simulation num_entries d reactions = Ok out ->
  (forall rxn e, rxn ∈ reactions ->
     e ∈ Reaction.reactants rxn \/ e ∈ Reaction.products rxn -> 0 <= e) ->
  dependency_complete (c_reactants out) (c_products out) (c_species_rxn_mapping out).
Proof.
  intros Hinit Hpos c k row Hrow Hk.
  apply initialize_simulation_inv in Hinit
    as (t & w & Hcomp & Hmax & Hpad & Er & Ep & _).
  pose proof Hcomp as Hcomp1. pose proof Hcomp as Hcomp2. pose proof Hcomp as Hcomp3.
  apply compile_reactions_table in Hcomp1
    as (_ & _ & Hlr & Hlp & _ & _ & Hrxn); [|lia].
  apply compile_reactions_arrays in Hcomp2
    as (_ & _ & _ & _ & Harr); [|lia|apply Forall_replicate; done..].
  cbn [fresh_tables reactant_array product_array] in Hlr, Hlp, Hrxn.
  rewrite length_replicate in Hlr, Hlp.
  apply py_max_bound in Hmax. rewrite List.Forall_map in Hmax.
  rewrite (pad_rows_spec _ _ Hmax) in Hpad. injection Hpad as Hpad.
  rewrite <- Hpad. clear Hpad.
  unfold consuming_row in Hrow. rewrite Er, Ep in Hrow.
  assert (Hdiv : 0 <= Z.of_nat c / 2) by (apply Z.div_pos; lia).
  apply getitem_nonneg in Hrow; [|done].
  set (id := Z.to_nat (Z.of_nat c / 2)) in *.
  assert (Hid : (id < length reactions)%nat).
  { apply lookup_lt_Some in Hrow. destruct (negb _); lia. }
  destruct (lookup_lt_is_Some_2 reactions id Hid) as [rxn Hrx].
  assert (Hin : rxn ∈ reactions) by (by eapply list_elem_of_lookup_2).
  destruct (Harr id rxn Hrx) as ((hf & Hhf & _) & (hr & Hhr & _) & _).
  apply initial_coordination_Ok in Hhf, Hhr.
  destruct (Hrxn id rxn Hrx) as (Ha & Hb & _).
  change (Z.to_nat 0) with 0%nat in Ha, Hb. rewrite Nat.add_0_l in Ha, Hb.
  assert (Hfresh : replicate (length reactions) [-1; -1] !! id = Some [-1; -1])
    by (by apply lookup_replicate_2).
  specialize (Ha _ Hfresh). specialize (Hb _ Hfresh).
  assert (Hside : forall side : list Z,
            Z.of_nat k ∈ side ++ drop (length side) [-1; -1] -> Z.of_nat k ∈ side).
  { intros side Hs. apply elem_of_app in Hs as [Hs|Hs]; [done|].
    exfalso. destruct side as [|? [|? ?]]; cbn in Hs; rewrite ?drop_nil in Hs;
      repeat (apply elem_of_cons in Hs as [Hs|Hs]; [lia|]);
      by apply elem_of_nil in Hs. }
  assert (Hkn : forall e, e = Z.of_nat k ->
            e ∈ Reaction.reactants rxn \/ e ∈ Reaction.products rxn ->
            (k < num_entries)%nat).
  { intros e -> He.
    destruct (compile_reactions_valid d reactions 0 _ t (Z.le_refl 0) Hcomp3 rxn _ Hin He)
      as [k' Hk'].
    cbn [fresh_tables species_rxn_mapping_list] in Hk'.
    rewrite length_replicate in Hk'.
    apply norm_nonneg_inv in Hk' as [_ Hlt]; lia. }
  destruct (compile_reactions_mapping _ _ _ _ _ (Z.le_refl 0) Hcomp) as [Hlen Hext].
  cbn [fresh_tables species_rxn_mapping_list] in Hext.
  assert (Hc2 : Z.of_nat c = 2 * (Z.of_nat c / 2) + Z.of_nat c mod 2)
    by (apply Z.div_mod; lia).
  assert (Hidz : Z.of_nat id = Z.of_nat c / 2) by (unfold id; lia).
  cbn [c_species_rxn_mapping].
  destruct (Z.eqb_spec (Z.of_nat c mod 2) 0) as [Heven|Hodd]; cbn [negb] in Hrow.
  - rewrite Ha in Hrow. injection Hrow as <-. apply Hside in Hk.
    pose proof (Hkn _ eq_refl (or_introl Hk)) as Hlt.
    destruct (Hext k []) as (ext & Hext_k & _ & Hin_ext);
      [by apply lookup_replicate_2|].
    destruct (Hin_ext id rxn Hrx) as [Hfw _]. specialize (Hfw Hk).
    exists (ext ++ replicate (w - length ext) (-1)). split.
    + by rewrite lookup_map, Hext_k.
    + apply elem_of_app. left. replace (Z.of_nat c) with (2 * (0 + Z.of_nat id)) by lia.
      done.
  - rewrite Hb in Hrow. injection Hrow as <-. apply Hside in Hk.
    pose proof (Hkn _ eq_refl (or_intror Hk)) as Hlt.
    destruct (Hext k []) as (ext & Hext_k & _ & Hin_ext);
      [by apply lookup_replicate_2|].
    destruct (Hin_ext id rxn Hrx) as [_ Hbw]. specialize (Hbw Hk).
    exists (ext ++ replicate (w - length ext) (-1)). split.
    + by rewrite lookup_map, Hext_k.
    + apply elem_of_app. left.
      assert (Hmod : Z.of_nat c mod 2 = 1)
        by (pose proof (Z.mod_pos_bound (Z.of_nat c) 2); lia).
      replace (Z.of_nat c) with (2 * (0 + Z.of_nat id) + 1) by lia. done.
Qed.

Lemma compiled_dependency_complete_witness :
  dependency_complete (c_reactants dimer_compiled) (c_products dimer_compiled)
    (c_species_rxn_mapping dimer_compiled).
Proof.
  apply (compiled_dependency_complete 3 {[ 0 := 100 ]} dimer_reactions dimer_compiled).
  - vm_compute. reflexivity.
  - intros rxn e Hrxn He. unfold dimer_reactions in Hrxn.
    repeat (apply elem_of_cons in Hrxn as [->|Hrxn]);
      [| |by apply elem_of_nil in Hrxn]; cbn in He;
      destruct He as [He|He];
      repeat (apply elem_of_cons in He as [->|He]); try lia;
      by apply elem_of_nil in He.
Defined.

(** ** Replay of the history *)









Section ReplayRun.
Variable np_log : Q -> Q.


End ReplayRun.




(** ** The driver stays inside its arrays *)

(** On rows that hold species of the array, the updater returns or
    raises [ValueError]. *)
Lemma update_state_outcome (reactants products : list (list Z)) rxn_ind
    (reverse : bool) (st : list Z) consumed produced :
  rxn_ind <> -1 ->
  Py.getitem (if reverse then products else reactants) rxn_ind = Ok consumed ->
  Py.getitem (if reverse then reactants else products) rxn_ind = Ok produced ->
  wf_row (length st) consumed ->
  wf_row (length st) produced ->
  (exists st', update_state reactants products rxn_ind reverse st = (Ok st', st') /\
     length st' = length st) \/
  (exists st', update_state reactants products rxn_ind reverse st
     = (Raise ValueError, st')).
Proof.
  intros Hne Hc Hp Hwc Hwp. rewrite (update_state_rows _ _ _ _ _ _ _ Hne Hc Hp).
  pose proof (consume_spec consumed st Hwc) as Hspec.
  destruct (consume consumed st) as [[[]|e] st1].
  - destruct Hspec as (Hlen & _). rewrite <- Hlen in Hwp.
    destruct (produce_spec produced st1 Hwp) as (st2 & -> & Hlen2 & _).
    left. exists st2. split; [done | congruence].
  - destruct Hspec as (-> & _). right. eauto.
Qed.

(** The calculator returns on every side of species of the array. *)
Lemma get_coordination_total (reactants products : list (list Z)) (st : list Z)
    rxn_id (reverse : bool) row :
  Py.getitem (if reverse then products else reactants) rxn_id = Ok row ->
  side_row row ->
  wf_row (length st) row ->
  exists h, get_coordination reactants products st rxn_id reverse = Ok h.
Proof.
  intros Hrow Hside Hwf.
  destruct (get_coordination_cases reactants products st rxn_id reverse row Hrow)
    as (H1 & H2 & H3).
  assert (Hget : forall a, a ∈ row -> a <> -1 -> exists n, Py.getitem st a = Ok n).
  { intros a Ha Hne. unfold wf_row in Hwf. rewrite Forall_forall in Hwf.
    destruct (Hwf a Ha) as [|Hin]; [done|].
    destruct (getitem_total st a Hin) as (n & Hn & _). eauto. }
  destruct Hside as [(a & -> & Ha)|(a & b & -> & Ha & Hb)].
  - destruct (Hget a) as (n & Hn); [apply elem_of_cons; by left | done |]. eauto.
  - destruct (Hget a) as (n & Hn); [apply elem_of_cons; by left | done |].
    destruct (Hget b) as (m & Hm);
      [apply elem_of_cons; right; apply elem_of_cons; by left | done |].
    destruct (Z.eq_dec a b) as [<-|Hab]; eauto.
Qed.

Lemma collect_rows_total (mapping : list (list Z)) : forall ids,
  wf_row (length mapping) ids ->
  exists gathered, collect_rows mapping ids = Ok gathered.
Proof.
  induction ids as [|id ids IH]; intros Hwf; [by eexists|].
  apply Forall_cons in Hwf as [Hid Hwf]. cbn [collect_rows].
  destruct (Z.eqb_spec id (-1)) as [->|Hne]; [by apply IH|].
  destruct Hid as [|Hin]; [done|].
  destruct (getitem_total mapping id Hin) as (row & Hrow & _).
  rewrite jit_getitem, Hrow. cbn [rbind].
  destruct (IH Hwf) as [more ->]. by eexists.
Qed.

Lemma refresh_coordination_total (reactants products : list (list Z)) (st : list Z) :
  length products = length reactants ->
  Forall (fun row => side_row row /\ wf_row (length st) row) reactants ->
  Forall (fun row => side_row row /\ wf_row (length st) row) products ->
  forall channels coord_array,
  Forall (fun c => c = -1 \/ 0 <= c < 2 * Z.of_nat (length reactants)) channels ->
  length coord_array = (2 * length reactants)%nat ->
  exists coord_array',
    refresh_coordination reactants products st channels coord_array = Ok coord_array' /\
    length coord_array' = length coord_array.
Proof.
  intros Hlen Hr Hp. induction channels as [|c channels IH]; intros coord_array Hch Hco.
  - by eexists.
  - apply Forall_cons in Hch as [Hc Hch]. cbn [refresh_coordination].
    destruct (Z.eqb_spec c (-1)) as [->|Hne]; [by apply IH|].
    destruct Hc as [|Hc]; [done|].
    assert (Hdiv : 0 <= c / 2 < Z.of_nat (length reactants)).
    { split; [apply Z.div_pos; lia | apply Z.div_lt_upper_bound; lia]. }
    set (reverse := negb (c mod 2 =? 0)).
    destruct (getitem_total (if reverse then products else reactants) (c / 2))
      as (row & Hrow & _).
    { destruct reverse; lia. }
    assert (Hrow' : side_row row /\ wf_row (length st) row).
    { pose proof (getitem_elem_of _ _ _ Hrow) as Hin.
      rewrite Forall_forall in Hr, Hp. destruct reverse; auto. }
    destruct (get_coordination_total reactants products st (c / 2) reverse row Hrow)
      as [h Hh]; [tauto..|].
    rewrite Hh. cbn [rbind].
    rewrite jit_setitem, setitem_total by lia. cbn [rbind].
    destruct (IH (<[Z.to_nat c := h]> coord_array)) as (coord' & -> & Hlen');
      [done | by rewrite length_insert |].
    exists coord'. split; [done|]. by rewrite Hlen', length_insert.
Qed.

Section InBounds.
Variable np_log : Q -> Q.

(** One iteration on well-shaped arrays: it completes, keeping the
    shapes and recording a channel of the propensity vector, or it
    raises [ValueError] (a species ran out) or [ZeroDivisionError] (the
    total is zero). *)
Lemma simulate_step_safe net num_species time_steps (i : nat) r1 r2 s :
  well_shaped net num_species ->
  run_invariant net num_species time_steps s ->
  (i < time_steps)%nat ->
  (r2 <= 1)%Q ->
  (exists s' (k : nat),
     simulate_step np_log net (Z.of_nat i) r1 r2 s = Ok s' /\
     run_invariant net num_species time_steps s' /\
     reaction_history s' = <[i := Z.of_nat k]> (reaction_history s) /\
     (k < 2 * length (net_reactants net))%nat) \/
  simulate_step np_log net (Z.of_nat i) r1 r2 s = Raise ValueError \/
  simulate_step np_log net (Z.of_nat i) r1 r2 s = Raise ZeroDivisionError.
Proof.
  intros (Hlp & Hlr & Hlm & Hr & Hp & Hm) (Hst & Hco & Hpr & Hrel & HA & Hh & Ht) Hi Hr2.
  unfold simulate_step.
  destruct (Qeq_bool (total_propensity s) 0) eqn:EA.
  { right; right. unfold select, Np.divide. by rewrite EA. }
  assert (Hpos : (0 < total_propensity s)%Q).
  { pose proof (sum_filter_nonneg (propensity_array s)) as Hnn.
    assert (Hne : ~ (total_propensity s == 0)%Q)
      by (intros E; apply Qeq_bool_iff in E; congruence).
    rewrite <- HA in Hnn. lra. }
  rewrite Hrel.
  destruct (select_total np_log _ _ r1 r2 HA Hpos Hr2) as [c Hsel].
  destruct (select_inv np_log _ _ _ _ _ _ Hsel) as (_ & _ & k & x & -> & Hk & _).
  rewrite Hsel. cbn [rbind].
  apply lookup_lt_Some in Hk. rewrite Hpr in Hk.
  set (c := Z.of_nat k) in *. set (reverse := negb (c mod 2 =? 0)).
  assert (Hdiv : 0 <= c / 2 < Z.of_nat (length (net_reactants net))).
  { split; [apply Z.div_pos; lia | apply Z.div_lt_upper_bound; lia]. }
  destruct (getitem_total (net_reactants net) (c / 2) Hdiv) as (row_r & Hrow_r & _).
  destruct (getitem_total (net_products net) (c / 2)) as (row_p & Hrow_p & _); [lia|].
  assert (Hwr : side_row row_r /\ wf_row num_species row_r).
  { rewrite Forall_forall in Hr. apply Hr. by eapply getitem_elem_of. }
  assert (Hwp : side_row row_p /\ wf_row num_species row_p).
  { rewrite Forall_forall in Hp. apply Hp. by eapply getitem_elem_of. }
  destruct (update_state_outcome (net_reactants net) (net_products net) (c / 2)
              reverse (state s)
              (if reverse then row_p else row_r) (if reverse then row_r else row_p))
    as [(st' & Hupd & Hlen')|(st' & Hupd)];
    [lia | by destruct reverse | by destruct reverse
     | rewrite Hst; destruct reverse; tauto
     | rewrite Hst; destruct reverse; tauto | |].
  2: { right; left. by rewrite Hupd. }
  rewrite Hupd. cbn [fst rbind].
  rewrite !jit_getitem, Hrow_r, Hrow_p. cbn [rbind].
  destruct (collect_rows_total (net_species_rxn_mapping net) row_r)
    as [from_r Hfr]; [rewrite Hlm; tauto|].
  destruct (collect_rows_total (net_species_rxn_mapping net) row_p)
    as [from_p Hfp]; [rewrite Hlm; tauto|].
  rewrite Hfr, Hfp. cbn [rbind].
  assert (Hch : Forall (fun c' => c' = -1 \/
                          0 <= c' < 2 * Z.of_nat (length (net_reactants net)))
                  (remove_dups (from_r ++ from_p))).
  { apply Forall_forall. intros c' Hc'. rewrite elem_of_remove_dups in Hc'.
    assert (Hin : exists mrow, mrow ∈ net_species_rxn_mapping net /\ c' ∈ mrow).
    { apply elem_of_app in Hc' as [Hc'|Hc'].
      - by apply (proj2 (collect_rows_spec _ _ _ Hfr)).
      - by apply (proj2 (collect_rows_spec _ _ _ Hfp)). }
    destruct Hin as (mrow & Hmrow & Hc'm).
    rewrite Forall_forall in Hm. specialize (Hm mrow Hmrow).
    rewrite Forall_forall in Hm. by apply Hm. }
  rewrite <- Hst, <- Hlen' in Hr, Hp.
  destruct (refresh_coordination_total (net_reactants net) (net_products net) st'
              Hlp Hr Hp _ (coord s) Hch Hco) as (coord' & Hrefresh & Hlenc).
  rewrite Hrefresh. cbn [rbind].
  unfold Np.multiply.
  replace (length (net_rate_constants net) =? length coord')%nat with true
    by (symmetry; apply Nat.eqb_eq; lia).
  cbn [rbind]. rewrite take_where_pos. cbn [rbind].
  rewrite !setitem_total by lia. cbn [rbind]. rewrite Nat2Z.id.
  left. eexists _, k. split; [reflexivity|].
  split; [|split; [reflexivity | done]].
  unfold run_invariant.
  cbn [state coord propensity_array relevant_ind total_propensity
       reaction_history times].
  rewrite length_zip_with, !length_insert.
  repeat split; try done; lia.
Qed.

(** The loop on well-shaped arrays, with second draws at most one. *)
Lemma simulate_loop_safe net num_species time_steps draws :
  well_shaped net num_species ->
  (forall i, ((draws i).2 <= 1)%Q) ->
  forall remaining i s,
    (i + remaining = time_steps)%nat ->
    run_invariant net num_species time_steps s ->
    (forall (j : nat) c, (j < i)%nat -> reaction_history s !! j = Some c ->
       exists k : nat, c = Z.of_nat k /\ (k < 2 * length (net_reactants net))%nat) ->
    match simulate_loop np_log net draws remaining i s with
    | Ok s' =>
        run_invariant net num_species time_steps s' /\
        forall (j : nat) c, reaction_history s' !! j = Some c ->
          exists k : nat, c = Z.of_nat k /\ (k < 2 * length (net_reactants net))%nat
    | Raise e => e = ValueError \/ e = ZeroDivisionError
    end.
Proof.
  intros Hshape Hdraws. induction remaining as [|n IH]; intros i s Hsum Hinv Hgood.
  - cbn [simulate_loop]. split; [done|]. intros j c Hj. apply (Hgood j c); [|done].
    apply lookup_lt_Some in Hj. destruct Hinv as (_ & _ & _ & _ & _ & Hh & _). lia.
  - cbn [simulate_loop]. pose proof (Hdraws i) as Hr2.
    destruct (draws i) as [r1 r2]. cbn [snd] in Hr2.
    destruct (simulate_step_safe net num_species time_steps i r1 r2 s Hshape Hinv)
      as [(s1 & k & Hstep & Hinv1 & Hhist & Hk)|[Hstep|Hstep]];
      [lia | done | | |]; rewrite Hstep; cbn [rbind]; [|by left|by right].
    apply IH; [lia | done |].
    intros j c Hj Hc. rewrite Hhist in Hc.
    destruct (decide (j = i)) as [->|Hne].
    + rewrite list_lookup_insert_eq in Hc
        by (destruct Hinv as (_ & _ & _ & _ & _ & Hh & _); lia).
      injection Hc as <-. eauto.
    + rewrite list_lookup_insert_ne in Hc by done. apply (Hgood j c); [lia | done].
Qed.

(** X15. [simulate] stays inside its arrays, and its history names rows
    of the tables: on arrays of the shapes that the compiler gives them,
    with a propensity vector of one cell per channel, an initial total
    that is the sum of the strictly positive propensities and second
    draws at most one, the run reads and writes no cell outside an
    array and raises no [RuntimeError] or [IndexError]: it returns, or
    it raises [ValueError] or [ZeroDivisionError]. When it returns, both
    rows have [time_steps] entries, and every recorded channel index is
    non-negative with its reaction index [c / 2] a row of both species
    tables. *)
Theorem simulate_history_shape time_steps num_species
    (coord_array rate_consts propensities : list Q) (A0 : Q)
    (species_rxn_mapping reactants products : list (list Z)) (st : list Z) draws :
  well_shaped (mk_network rate_consts species_rxn_mapping reactants products)
    (length st) ->
  length coord_array = (2 * length reactants)%nat ->
  length propensities = (2 * length reactants)%nat ->
  (A0 == Np.sum (List.filter (Np.Qlt_bool 0) propensities))%Q ->
  (forall i, ((draws i).2 <= 1)%Q) ->
  match simulate np_log time_steps num_species coord_array rate_consts propensities
          A0 species_rxn_mapping reactants products st draws with
  | Ok (hist, ts) =>
      length hist = time_steps /\ length ts = time_steps /\
      forall (i : nat) c, hist !! i = Some c ->
        0 <= c /\
        (Z.to_nat (c / 2) < length reactants)%nat /\
        (Z.to_nat (c / 2) < length products)%nat
  | Raise e => e = ValueError \/ e = ZeroDivisionError
  end.
Proof.
  intros Hshape Hco Hpr HA Hdraws. unfold simulate.
  set (net := mk_network rate_consts species_rxn_mapping reactants products) in *.
  pose proof (simulate_loop_safe net (length st) time_steps draws Hshape Hdraws
                time_steps 0%nat
                (simulate_init time_steps coord_array propensities A0 st)) as Hloop.
  destruct (simulate_loop np_log net draws time_steps 0 _) as [s'|e]; cbn [rbind].
  - destruct Hloop as [(_ & _ & _ & _ & _ & Hh & Ht) Hgood].
    + lia.
    + unfold run_invariant.
      cbn [simulate_init state coord propensity_array relevant_ind total_propensity
           reaction_history times net net_reactants].
      rewrite !length_replicate. done.
    + intros j c Hj. lia.
    + split; [done|]. split; [done|]. intros i c Hc.
      destruct (Hgood i c Hc) as (k & -> & Hk). cbn [net net_reactants] in Hk.
      destruct Hshape as (Hlp & _). cbn [net net_reactants net_products] in Hlp.
      assert (Hdiv : 0 <= Z.of_nat k / 2 < Z.of_nat (length reactants)).
      { split; [apply Z.div_pos; lia | apply Z.div_lt_upper_bound; lia]. }
      lia.
  - apply Hloop.
    + lia.
    + unfold run_invariant.
      cbn [simulate_init state coord propensity_array relevant_ind total_propensity
           reaction_history times net net_reactants].
      rewrite !length_replicate. done.
    + intros j c Hj. lia.
Qed.

End InBounds.

Lemma pair_network_well_shaped : well_shaped pair_network 2.
Proof.
  unfold well_shaped. cbn [pair_network net_products net_reactants net_rate_constants
                           net_species_rxn_mapping length].
  split; [done|]. split; [done|]. split; [done|].
  split; [|split].
  - apply Forall_cons. split; [|done]. split.
    + left. by exists 0.
    + unfold wf_row. solve_Forall.
  - apply Forall_cons. split; [|done]. split.
    + left. by exists 1.
    + unfold wf_row. solve_Forall.
  - apply Forall_cons. split; [solve_Forall|].
    apply Forall_cons. split; [solve_Forall | done].
Qed.

Lemma simulate_history_shape_witness :
  length [0; 1; 0] = 3%nat /\ length [0 # 100; 0 # 100; 0 # 100]%Q = 3%nat /\
  forall (i : nat) c, [0; 1; 0] !! i = Some c ->
    0 <= c /\
    (Z.to_nat (c / 2) < length (net_reactants pair_network))%nat /\
    (Z.to_nat (c / 2) < length (net_products pair_network))%nat.
Proof.
  refine (simulate_history_shape (fun _ => 0%Q) 3 2 [100; 0]%Q [1; 1]%Q [100; 0]%Q 100%Q
            [[0]; [1]] [[0; -1]] [[1; -1]] [100; 0]
            (fun _ => (1 # 2, 999 # 1000)%Q) _ _ _ _ _).
  - exact pair_network_well_shaped.
  - reflexivity.
  - reflexivity.
  - vm_compute. reflexivity.
  - intros i. cbn [snd]. discriminate.
Defined.
